(** * Geo-zone alert distribution: a shallow embedding

    The development follows the three source units of the alert pipeline:

    - [LocationService]       (src/services/locationService.ts)
    - [EnhancedAlertService]  (src/services/enhancedAlertService.ts)
    - [SendEmergencyAlert]    (supabase/functions/send-emergency-alert/index.ts)

    JavaScript numbers are IEEE 754 binary64 values, embedded as Rocq's
    primitive floats; strings are byte strings; objects used as maps are
    finite maps with the inherited [Object.prototype] members made explicit.
    The host facilities whose results the language leaves to the
    implementation (trigonometry, the Unicode case mappings, date and number
    formatting, the network) are parameters of the definitions that use
    them, and so is the content generator the alert service calls, which
    may return or be rejected. *)

From Stdlib Require Import Floats ZArith Ascii String Lia.
From stdpp Require Import base option list strings gmap pretty.

Set Warnings "-inexact-float".
Set Default Proof Using "Type".

(** ** JavaScript values *)

Module JS.

(** Truthiness of an optional string property: [undefined] and the empty
    string are falsy, every other string is truthy. *)
Definition truthy (v : option string) : bool :=
  match v with
  | Some s => negb (String.eqb s "")
  | None => false
  end.

(** [v || d] for an optional string [v] and a string default [d]. *)
Definition or_else (v : option string) (d : string) : string :=
  match v with
  | Some s => if String.eqb s "" then d else s
  | None => d
  end.

(** Template interpolation of a value that may be [undefined]. *)
Definition interp (v : option string) : string :=
  match v with
  | Some s => s
  | None => "undefined"
  end.

(** The two case mappings on the ASCII letters; every other byte is left as
    it is. *)
Definition lower_ascii (c : ascii) : ascii :=
  let n := Ascii.nat_of_ascii c in
  if (65 <=? n)%nat && (n <=? 90)%nat then Ascii.ascii_of_nat (n + 32) else c.

Definition upper_ascii (c : ascii) : ascii :=
  let n := Ascii.nat_of_ascii c in
  if (97 <=? n)%nat && (n <=? 122)%nat then Ascii.ascii_of_nat (n - 32) else c.

Fixpoint map_string (f : ascii → ascii) (s : string) : string :=
  match s with
  | EmptyString => EmptyString
  | String c s' => String (f c) (map_string f s')
  end.

Definition ascii_lower : string → string := map_string lower_ascii.
Definition ascii_upper : string → string := map_string upper_ascii.

(** A string of ASCII characters only. *)
Fixpoint is_ascii (s : string) : bool :=
  match s with
  | EmptyString => true
  | String c s' => (Ascii.nat_of_ascii c <? 128)%nat && is_ascii s'
  end.

(** [String.prototype.toLowerCase] is the host's and follows the Unicode case
    mappings, which the model does not spell out. What it fixes: on a string
    of ASCII characters the letters A to Z are mapped and nothing else, and
    no result has a letter A to Z left in it. *)
Class Casing := {
  toLowerCase : string → string;
  toLowerCase_ascii : ∀ s, is_ascii s = true → toLowerCase s = ascii_lower s;
  toLowerCase_folded : ∀ s, ascii_lower (toLowerCase s) = toLowerCase s
}.

(** The lower-casing that maps the ASCII letters and nothing else: what the
    host's does on every string the examples use. *)
Definition lower_ascii_folded (c : ascii) : lower_ascii (lower_ascii c) = lower_ascii c.
Proof. by destruct c as [[] [] [] [] [] [] [] []]. Defined.

Definition ascii_lower_folded (s : string) : ascii_lower (ascii_lower s) = ascii_lower s.
Proof.
  unfold ascii_lower. induction s as [|c s IH]; [reflexivity|].
  simpl. by rewrite lower_ascii_folded, IH.
Defined.

Definition ascii_casing : Casing :=
  {| toLowerCase := ascii_lower;
     toLowerCase_ascii := λ s _, eq_refl;
     toLowerCase_folded := ascii_lower_folded |}.

(** [hay.includes(needle)]: [needle] occurs in [hay] as a contiguous run. *)
Fixpoint includes (hay needle : string) : bool :=
  String.prefix needle hay ||
  match hay with
  | EmptyString => false
  | String _ hay' => includes hay' needle
  end.

(** [xs.join(sep)] on an array of strings. *)
Fixpoint join (sep : string) (xs : list string) : string :=
  match xs with
  | [] => ""
  | [x] => x
  | x :: xs' => x +:+ sep +:+ join sep xs'
  end.

(** Property names every ordinary object inherits from [Object.prototype]
    (the Deno runtime deletes the [__proto__] accessor on start-up). *)
Definition object_prototype_keys : list string :=
  [ "constructor"; "hasOwnProperty"; "isPrototypeOf"; "propertyIsEnumerable";
    "toLocaleString"; "toString"; "valueOf";
    "__defineGetter__"; "__defineSetter__"; "__lookupGetter__";
    "__lookupSetter__" ].

Definition inherited (k : string) : bool :=
  bool_decide (k ∈ object_prototype_keys).

(** The outcome of a property read [o[k]] on an ordinary object: an own
    property, a member found on the prototype, or [undefined]. *)
Inductive Property (A : Type) : Type :=
| Own (a : A)
| Inherited (k : string)
| Undefined.
Global Arguments Own {A} a.
Global Arguments Inherited {A} k.
Global Arguments Undefined {A}.

(** [o[k]] where [o] came out of [JSON.parse]. *)
Definition get {A} (o : gmap string A) (k : string) : Property A :=
  match o !! k with
  | Some a => Own a
  | None => if inherited k then Inherited k else Undefined
  end.

(** [o[k]] where [o] is an object literal with the listed own properties. *)
Fixpoint assoc {A} (o : list (string * A)) (k : string) : option A :=
  match o with
  | [] => None
  | (k', a) :: o' => if String.eqb k k' then Some a else assoc o' k
  end.

Definition get_literal {A} (o : list (string * A)) (k : string) : Property A :=
  match assoc o k with
  | Some a => Own a
  | None => if inherited k then Inherited k else Undefined
  end.

(** An [Error] value: what [String(e)] and [e.message] read. *)
Record Error := mkError { name : string; message : string }.

Definition String_of_error (e : Error) : string :=
  if String.eqb (message e) "" then name e
  else name e +:+ ": " +:+ message e.

End JS.

(** ** src/services/locationService.ts *)

Module LocationService.

Record LocationCoordinates := mkCoordinates { lat : float; lng : float }.

Record LocationInfo := mkLocationInfo {
  city : string;
  state : string;
  coordinates : LocationCoordinates;
  region : string
}.

(** [Math.sin], [Math.cos] and [Math.atan2] return implementation-approximated
    values; what the language fixes is that a NaN argument gives NaN. *)
Class MathLib := {
  approx_sin : float → float;
  approx_cos : float → float;
  approx_atan2 : float → float → float
}.

Section Distance.
Context `{MathLib}.

Definition Math_PI : float := 3.141592653589793%float.

Definition Math_sin (x : float) : float :=
  if is_nan x then nan else approx_sin x.

Definition Math_cos (x : float) : float :=
  if is_nan x then nan else approx_cos x.

Definition Math_atan2 (y x : float) : float :=
  if is_nan y || is_nan x then nan else approx_atan2 y x.

Definition Math_sqrt (x : float) : float := PrimFloat.sqrt x.

Definition toRadians (degrees : float) : float :=
  (degrees * (Math_PI / 180))%float.

(** Haversine distance in kilometres. *)
Definition calculateDistance (coord1 coord2 : LocationCoordinates) : float :=
  let R := 6371%float in
  let dLat := toRadians (lat coord2 - lat coord1)%float in
  let dLng := toRadians (lng coord2 - lng coord1)%float in
  let a :=
    (Math_sin (dLat / 2) * Math_sin (dLat / 2) +
     Math_cos (toRadians (lat coord1)) * Math_cos (toRadians (lat coord2)) *
     Math_sin (dLng / 2) * Math_sin (dLng / 2))%float in
  let c := (2 * Math_atan2 (Math_sqrt a) (Math_sqrt (1 - a)))%float in
  (R * c)%float.
End Distance.

Definition mkCity (c s : string) (la ln : float) (r : string) : LocationInfo :=
  mkLocationInfo c s (mkCoordinates la ln) r.

Definition getMajorIndianCities : list LocationInfo := Eval cbv [mkCity] in [
  mkCity "Mumbai" "Maharashtra" 19.0760 72.8777 "West";
  mkCity "Delhi" "Delhi" 28.7041 77.1025 "North";
  mkCity "Bengaluru" "Karnataka" 12.9716 77.5946 "South";
  mkCity "Chennai" "Tamil Nadu" 13.0827 80.2707 "South";
  mkCity "Kolkata" "West Bengal" 22.5726 88.3639 "East";
  mkCity "Hyderabad" "Telangana" 17.3850 78.4867 "South";
  mkCity "Pune" "Maharashtra" 18.5204 73.8567 "West";
  mkCity "Ahmedabad" "Gujarat" 23.0225 72.5714 "West";
  mkCity "Jaipur" "Rajasthan" 26.9124 75.7873 "North";
  mkCity "Lucknow" "Uttar Pradesh" 26.8467 80.9462 "North";
  mkCity "Kanpur" "Uttar Pradesh" 26.4499 80.3319 "North";
  mkCity "Nagpur" "Maharashtra" 21.1458 79.0882 "Central";
  mkCity "Indore" "Madhya Pradesh" 22.7196 75.8577 "Central";
  mkCity "Thane" "Maharashtra" 19.2183 72.9781 "West";
  mkCity "Bhopal" "Madhya Pradesh" 23.2599 77.4126 "Central";
  mkCity "Visakhapatnam" "Andhra Pradesh" 17.6868 83.2185 "South";
  mkCity "Pimpri-Chinchwad" "Maharashtra" 18.6298 73.7997 "West";
  mkCity "Patna" "Bihar" 25.5941 85.1376 "East";
  mkCity "Vadodara" "Gujarat" 22.3072 73.1812 "West";
  mkCity "Ghaziabad" "Uttar Pradesh" 28.6692 77.4538 "North";
  mkCity "Ludhiana" "Punjab" 30.9010 75.8573 "North";
  mkCity "Agra" "Uttar Pradesh" 27.1767 78.0081 "North";
  mkCity "Nashik" "Maharashtra" 19.9975 73.7898 "West";
  mkCity "Faridabad" "Haryana" 28.4089 77.3178 "North";
  mkCity "Meerut" "Uttar Pradesh" 28.9845 77.7064 "North";
  mkCity "Rajkot" "Gujarat" 22.3039 70.8022 "West";
  mkCity "Kalyan-Dombivli" "Maharashtra" 19.2403 73.1305 "West";
  mkCity "Vasai-Virar" "Maharashtra" 19.4912 72.8054 "West";
  mkCity "Varanasi" "Uttar Pradesh" 25.3176 82.9739 "North";
  mkCity "Srinagar" "Jammu and Kashmir" 34.0837 74.7973 "North";
  mkCity "Aurangabad" "Maharashtra" 19.8762 75.3433 "West";
  mkCity "Dhanbad" "Jharkhand" 23.7957 86.4304 "East";
  mkCity "Amritsar" "Punjab" 31.6340 74.8723 "North";
  mkCity "Navi Mumbai" "Maharashtra" 19.0330 73.0297 "West";
  mkCity "Allahabad" "Uttar Pradesh" 25.4358 81.8463 "North";
  mkCity "Ranchi" "Jharkhand" 23.3441 85.3096 "East";
  mkCity "Howrah" "West Bengal" 22.5958 88.2636 "East";
  mkCity "Coimbatore" "Tamil Nadu" 11.0168 76.9558 "South";
  mkCity "Jabalpur" "Madhya Pradesh" 23.1815 79.9864 "Central";
  mkCity "Gwalior" "Madhya Pradesh" 26.2183 78.1828 "Central";
  mkCity "Vijayawada" "Andhra Pradesh" 16.5062 80.6480 "South";
  mkCity "Jodhpur" "Rajasthan" 26.2389 73.0243 "North";
  mkCity "Madurai" "Tamil Nadu" 9.9252 78.1198 "South";
  mkCity "Raipur" "Chhattisgarh" 21.2514 81.6296 "Central";
  mkCity "Kota" "Rajasthan" 25.2138 75.8648 "North";
  mkCity "Chandigarh" "Chandigarh" 30.7333 76.7794 "North";
  mkCity "Guwahati" "Assam" 26.1445 91.7362 "Northeast";
  mkCity "Solapur" "Maharashtra" 17.6599 75.9064 "West";
  mkCity "Hubli-Dharwad" "Karnataka" 15.3647 75.1240 "South";
  mkCity "Bareilly" "Uttar Pradesh" 28.3670 79.4304 "North";
  mkCity "Moradabad" "Uttar Pradesh" 28.8386 78.7733 "North";
  mkCity "Mysore" "Karnataka" 12.2958 76.6394 "South";
  mkCity "Gurgaon" "Haryana" 28.4595 77.0266 "North";
  mkCity "Aligarh" "Uttar Pradesh" 27.8974 78.0880 "North";
  mkCity "Jalandhar" "Punjab" 31.3260 75.5762 "North";
  mkCity "Tiruchirappalli" "Tamil Nadu" 10.7905 78.7047 "South";
  mkCity "Bhubaneswar" "Odisha" 20.2961 85.8245 "East";
  mkCity "Salem" "Tamil Nadu" 11.6643 78.1460 "South";
  mkCity "Warangal" "Telangana" 17.9689 79.5941 "South";
  mkCity "Mira-Bhayandar" "Maharashtra" 19.2952 72.8544 "West";
  mkCity "Thiruvananthapuram" "Kerala" 8.5241 76.9366 "South";
  mkCity "Bhiwandi" "Maharashtra" 19.3002 73.0635 "West";
  mkCity "Saharanpur" "Uttar Pradesh" 29.9680 77.5552 "North";
  mkCity "Guntur" "Andhra Pradesh" 16.3067 80.4365 "South";
  mkCity "Amravati" "Maharashtra" 20.9374 77.7796 "West";
  mkCity "Bikaner" "Rajasthan" 28.0229 73.3119 "North";
  mkCity "Noida" "Uttar Pradesh" 28.5355 77.3910 "North";
  mkCity "Jamshedpur" "Jharkhand" 22.8046 86.2029 "East";
  mkCity "Bhilai Nagar" "Chhattisgarh" 21.1938 81.3509 "Central";
  mkCity "Cuttack" "Odisha" 20.4625 85.8828 "East";
  mkCity "Firozabad" "Uttar Pradesh" 27.1592 78.3957 "North";
  mkCity "Kochi" "Kerala" 9.9312 76.2673 "South";
  mkCity "Bhavnagar" "Gujarat" 21.7645 72.1519 "West";
  mkCity "Dehradun" "Uttarakhand" 30.3165 78.0322 "North";
  mkCity "Durgapur" "West Bengal" 23.5204 87.3119 "East";
  mkCity "Asansol" "West Bengal" 23.6739 86.9524 "East";
  mkCity "Rourkela" "Odisha" 22.2604 84.8536 "East";
  mkCity "Nanded" "Maharashtra" 19.1383 77.3210 "West";
  mkCity "Kolhapur" "Maharashtra" 16.7050 74.2433 "West";
  mkCity "Ajmer" "Rajasthan" 26.4499 74.6399 "North";
  mkCity "Akola" "Maharashtra" 20.7002 77.0082 "West";
  mkCity "Gulbarga" "Karnataka" 17.3297 76.8343 "South";
  mkCity "Jamnagar" "Gujarat" 22.4707 70.0577 "West";
  mkCity "Ujjain" "Madhya Pradesh" 23.1765 75.7885 "Central";
  mkCity "Loni" "Uttar Pradesh" 28.7333 77.2833 "North";
  mkCity "Siliguri" "West Bengal" 26.7271 88.3953 "East";
  mkCity "Jhansi" "Uttar Pradesh" 25.4484 78.5685 "North";
  mkCity "Ulhasnagar" "Maharashtra" 19.2215 73.1645 "West";
  mkCity "Jammu" "Jammu and Kashmir" 32.7266 74.8570 "North";
  mkCity "Sangli-Miraj & Kupwad" "Maharashtra" 16.8524 74.5815 "West";
  mkCity "Mangalore" "Karnataka" 12.9141 74.8560 "South";
  mkCity "Erode" "Tamil Nadu" 11.3410 77.7172 "South";
  mkCity "Belgaum" "Karnataka" 15.8497 74.4977 "South";
  mkCity "Ambattur" "Tamil Nadu" 13.1143 80.1548 "South";
  mkCity "Tirunelveli" "Tamil Nadu" 8.7139 77.7567 "South";
  mkCity "Malegaon" "Maharashtra" 20.5579 74.5287 "West";
  mkCity "Gaya" "Bihar" 24.7914 85.0002 "East"
]%float.

(** The three buckets [getAlertZones] fills. *)
Record AlertZones := mkAlertZones {
  immediate : list LocationInfo;
  nearby : list LocationInfo;
  regional : list LocationInfo
}.

Section Zones.
Context `{MathLib}.

(** One iteration of the [forEach] body: push the city into at most one
    bucket. *)
Definition push_city (alertCoordinates : LocationCoordinates)
    (zones : AlertZones) (c : LocationInfo) : AlertZones :=
  let distance := calculateDistance alertCoordinates (coordinates c) in
  if (distance <=? 5)%float then
    mkAlertZones (immediate zones ++ [c]) (nearby zones) (regional zones)
  else if (distance <=? 25)%float then
    mkAlertZones (immediate zones) (nearby zones ++ [c]) (regional zones)
  else if (distance <=? 100)%float then
    mkAlertZones (immediate zones) (nearby zones) (regional zones ++ [c])
  else zones.

Definition getAlertZones_of (cities : list LocationInfo)
    (alertCoordinates : LocationCoordinates) : AlertZones :=
  foldl (push_city alertCoordinates) (mkAlertZones [] [] []) cities.

Definition getAlertZones (alertCoordinates : LocationCoordinates) : AlertZones :=
  getAlertZones_of getMajorIndianCities alertCoordinates.

(** [findNearbyCities], with the default radius of 50 km. *)
Definition findNearbyCities (alertCoordinates : LocationCoordinates)
    (radiusKm : option float) : list LocationInfo :=
  let r := default 50%float radiusKm in
  filter (λ c, Is_true (calculateDistance alertCoordinates (coordinates c) <=? r)%float)
         getMajorIndianCities.
End Zones.

(** [getCityCoordinates]: the first catalog entry whose lower-cased name
    contains the lower-cased query or is contained in it. *)
Definition name_matches {casing : JS.Casing} (a b : string) : bool :=
  JS.includes (JS.toLowerCase a) (JS.toLowerCase b) ||
  JS.includes (JS.toLowerCase b) (JS.toLowerCase a).

Definition getCityCoordinates {casing : JS.Casing} (cityName : string)
    : option LocationCoordinates :=
  coordinates <$> List.find (λ c, name_matches (city c) cityName) getMajorIndianCities.


(** *** Locations in free text *)

(** An entry of the table of states ([@/data/indianStates]), with the fields
    the code reads. *)
Record IndianState := mkIndianState {
  state_name : string;
  state_code : string;
  state_capital : string;
  state_region : string
}.

(** The city whose coordinates stand for a state: its capital when the
    catalog has it among the state's cities, the state's first city
    otherwise. *)
Definition stateCoordinates (st : IndianState) : option LocationCoordinates :=
  let stateCities :=
    List.filter (λ c, String.eqb (state c) (state_name st)) getMajorIndianCities in
  match stateCities with
  | [] => None
  | first :: _ =>
      match List.find (λ c, String.eqb (city c) (state_capital st)) stateCities with
      | Some capital => Some (coordinates capital)
      | None => Some (coordinates first)
      end
  end.

(** The loop over the states of [parseLocationFromAlert]; a state that the
    text names but that has no city in the catalog is passed over. *)
Fixpoint parseStateFromAlert {casing : JS.Casing} (states : list IndianState)
    (text : string) : option LocationCoordinates :=
  match states with
  | [] => None
  | st :: rest =>
      if JS.includes text (JS.toLowerCase (state_name st)) then
        match stateCoordinates st with
        | Some c => Some c
        | None => parseStateFromAlert rest text
        end
      else parseStateFromAlert rest text
  end.

Definition parseLocationFromAlert {casing : JS.Casing}
    (indianStates : list IndianState) (alertText : string)
    : option LocationCoordinates :=
  let text := JS.toLowerCase alertText in
  match List.find (λ c, JS.includes text (JS.toLowerCase (city c)))
                  getMajorIndianCities with
  | Some c => Some (coordinates c)
  | None => parseStateFromAlert indianStates text
  end.

(** *** Distance bands

    The comparisons of a distance with a threshold, as the floating-point
    tests decide them: each is false when the distance is NaN. *)
Definition at_most (d a : float) : Prop := (d <=? a)%float = true.
Definition more_than (d a : float) : Prop := (a <? d)%float = true.
Definition not_a_number (d : float) : Prop := is_nan d = true.

(** A catalog entry that was pushed into none of the three buckets. *)
Definition in_no_zone (z : AlertZones) (c : LocationInfo) : Prop :=
  ¬ c ∈ immediate z ∧ ¬ c ∈ nearby z ∧ ¬ c ∈ regional z.

Section Bands.
Context `{MathLib}.

(** The test of each branch of the [forEach] body, with the tests of the
    branches before it negated. *)
Definition band1 (epicenter : LocationCoordinates) (c : LocationInfo) : bool :=
  (calculateDistance epicenter (coordinates c) <=? 5)%float.

Definition band2 (epicenter : LocationCoordinates) (c : LocationInfo) : bool :=
  negb (calculateDistance epicenter (coordinates c) <=? 5)%float &&
  (calculateDistance epicenter (coordinates c) <=? 25)%float.

Definition band3 (epicenter : LocationCoordinates) (c : LocationInfo) : bool :=
  negb (calculateDistance epicenter (coordinates c) <=? 5)%float &&
  negb (calculateDistance epicenter (coordinates c) <=? 25)%float &&
  (calculateDistance epicenter (coordinates c) <=? 100)%float.
End Bands.

(** A coarse Math library (first terms of the series), enough to run the
    model on a point that coincides with a catalog entry. *)
Definition coarse_math : MathLib :=
  {| approx_sin := λ x, x;
     approx_cos := λ x, (1 - x * x / 2)%float;
     approx_atan2 := λ y x, (y / x)%float |}.

Definition chennai : LocationInfo :=
  mkLocationInfo "Chennai" "Tamil Nadu" (mkCoordinates 13.0827 80.2707) "South".

Definition nowhere : LocationCoordinates := mkCoordinates nan nan.

End LocationService.

(** ** src/types/alert.ts *)

Module Types.

Inductive Severity := critical | warning | info.
Inductive AlertType := earthquake | flood | fire | storm | other.

Global Instance Severity_eq_dec : EqDecision Severity.
Proof. solve_decision. Defined.
Global Instance AlertType_eq_dec : EqDecision AlertType.
Proof. solve_decision. Defined.

(** The string each member of the two unions is at run time. *)
Definition severity_string (s : Severity) : string :=
  match s with
  | critical => "critical"
  | warning => "warning"
  | info => "info"
  end.

Definition alertType_string (t : AlertType) : string :=
  match t with
  | earthquake => "earthquake"
  | flood => "flood"
  | fire => "fire"
  | storm => "storm"
  | other => "other"
  end.

(** One entry of an alert's [languages] record. *)
Record Localized := mkLocalized { loc_title : string; loc_description : string }.

Record Alert := mkAlert {
  alert_id : string;
  title : string;
  description : string;
  severity : Severity;
  type : AlertType;
  location : string;
  coordinates : option LocationService.LocationCoordinates;
  timestamp : string;
  source : string;
  magnitude : option float;
  languages : gmap string Localized;
  isActive : bool
}.

End Types.

(** ** src/services/enhancedAlertService.ts *)

Module EnhancedAlertService.

Record Preferences := mkPreferences {
  language : string;
  emailAlerts : bool;
  smsAlerts : bool;
  severityLevels : list string;
  alertTypes : list string
}.

Record Subscriber := mkSubscriber {
  subscriber_id : string;
  email : option string;
  phone : option string;
  city : string;
  state : option string;
  coordinates : option LocationService.LocationCoordinates;
  preferences : Preferences
}.

Inductive ZoneType := immediate | nearby | regional.

Global Instance ZoneType_eq_dec : EqDecision ZoneType.
Proof. solve_decision. Defined.

Definition zoneType_string (z : ZoneType) : string :=
  match z with
  | immediate => "immediate"
  | nearby => "nearby"
  | regional => "regional"
  end.

Record AlertZone := mkAlertZone {
  type : ZoneType;
  severity : Types.Severity;
  cities : list string;
  radius : float
}.

(** Reduce severity level for distant zones. *)
Definition reduceSeverity (s : Types.Severity) : Types.Severity :=
  match s with
  | Types.critical => Types.warning
  | Types.warning => Types.info
  | _ => Types.info
  end.

(** [xs.length > 0] *)
Definition nonempty {A} (xs : list A) : bool :=
  match xs with [] => false | _ :: _ => true end.

Section Zones.
Context `{LocationService.MathLib}.

Definition defineAlertZones
    (alertCoordinates : LocationService.LocationCoordinates)
    (originalSeverity : Types.Severity) : list AlertZone :=
  let zones := [] in
  let immediateZone := LocationService.getAlertZones alertCoordinates in
  let zones :=
    if nonempty (LocationService.immediate immediateZone) then
      zones ++ [ mkAlertZone immediate originalSeverity
                   (map LocationService.city (LocationService.immediate immediateZone))
                   5%float ]
    else zones in
  let zones :=
    if nonempty (LocationService.nearby immediateZone) then
      let nearbySeverity := reduceSeverity originalSeverity in
      zones ++ [ mkAlertZone nearby nearbySeverity
                   (map LocationService.city (LocationService.nearby immediateZone))
                   25%float ]
    else zones in
  let zones :=
    if bool_decide (originalSeverity = Types.critical) &&
       nonempty (LocationService.regional immediateZone) then
      zones ++ [ mkAlertZone regional Types.info
                   (map LocationService.city (LocationService.regional immediateZone))
                   100%float ]
    else zones in
  zones.
End Zones.

(** The predicate of the [zoneSubscribers] filter in [createTargetedAlerts]. *)
Definition isInZone {casing : JS.Casing} (zone : AlertZone)
    (subscriber : Subscriber) : bool :=
  existsb (λ c,
    JS.includes (JS.toLowerCase (city subscriber)) (JS.toLowerCase c) ||
    JS.includes (JS.toLowerCase c) (JS.toLowerCase (city subscriber)))
    (cities zone).

Definition array_includes (xs : list string) (x : string) : bool :=
  existsb (String.eqb x) xs.

Definition inZoneAndWanted {casing : JS.Casing} (originalAlert : Types.Alert)
    (zone : AlertZone) (subscriber : Subscriber) : bool :=
  if negb (isInZone zone subscriber) then false
  else
    let wantsSeverity :=
      array_includes (severityLevels (preferences subscriber))
                     (Types.severity_string (severity zone)) in
    let wantsType :=
      array_includes (alertTypes (preferences subscriber))
                     (Types.alertType_string (Types.type originalAlert)) in
    wantsSeverity && wantsType.

Definition zoneSubscribers {casing : JS.Casing} (originalAlert : Types.Alert)
    (zone : AlertZone) (subscribers : list Subscriber) : list Subscriber :=
  List.filter (inZoneAndWanted originalAlert zone) subscribers.

(** What the service needs from its surroundings: the multilingual content
    generator of the alert processor, which returns the alert with its
    [languages] record or is rejected with an error, and the printing of a
    number inside a template. *)
Class Services := {
  generateMultilingualContent : Types.Alert → JS.Error + Types.Alert;
  number_toString : float → string
}.

Record TargetedAlert := mkTargeted {
  alert : Types.Alert;
  recipients : list Subscriber;
  zone : AlertZone
}.

Section Targeting.
Context `{Services} {casing : JS.Casing}.

Definition with_text (a : Types.Alert) (t d : string) (s : Types.Severity)
    : Types.Alert :=
  Types.mkAlert (Types.alert_id a) t d s (Types.type a) (Types.location a)
    (Types.coordinates a) (Types.timestamp a) (Types.source a)
    (Types.magnitude a) (Types.languages a) (Types.isActive a).

Definition createZoneSpecificAlert (originalAlert : Types.Alert)
    (zone : AlertZone) : JS.Error + Types.Alert :=
  let zoneAlert :=
    match type zone with
    | nearby =>
        with_text originalAlert
          ("Nearby Emergency Alert: " +:+ Types.title originalAlert)
          ("Emergency situation detected " +:+ number_toString (radius zone) +:+
           "km from your location. " +:+ Types.description originalAlert +:+
           " Monitor the situation and be prepared to take action if conditions change.")
          (severity zone)
    | regional =>
        with_text originalAlert
          ("Regional Alert: " +:+ Types.title originalAlert)
          ("Emergency situation in your region. " +:+
           Types.description originalAlert +:+
           " Stay informed and follow local authority guidance.")
          (severity zone)
    | immediate => originalAlert
    end in
  generateMultilingualContent zoneAlert.

(** The loop of [createTargetedAlerts] over the zones; [targetedAlerts] is
    the array filled so far. A rejection of the content generator ends the
    loop and is the rejection of the whole call. *)
Fixpoint targetedAlerts_from (originalAlert : Types.Alert)
    (subscribers : list Subscriber) (zones : list AlertZone)
    (targetedAlerts : list TargetedAlert) : JS.Error + list TargetedAlert :=
  match zones with
  | [] => inr targetedAlerts
  | z :: rest =>
      let zs := zoneSubscribers originalAlert z subscribers in
      if negb (nonempty zs) then
        targetedAlerts_from originalAlert subscribers rest targetedAlerts
      else
        match createZoneSpecificAlert originalAlert z with
        | inl e => inl e
        | inr zoneAlert =>
            targetedAlerts_from originalAlert subscribers rest
              (targetedAlerts ++ [ mkTargeted zoneAlert zs z ])
        end
  end.

Definition createTargetedAlerts (originalAlert : Types.Alert)
    (zones : list AlertZone) (subscribers : list Subscriber)
    : JS.Error + list TargetedAlert :=
  targetedAlerts_from originalAlert subscribers zones [].

(** The batch of a zone: the zone, its matching subscribers, and the alert
    the generator returned for it. *)
Definition batch_of (originalAlert : Types.Alert) (subscribers : list Subscriber)
    (t : TargetedAlert) (z : AlertZone) : Prop :=
  zone t = z ∧ recipients t = zoneSubscribers originalAlert z subscribers ∧
  createZoneSpecificAlert originalAlert z = inr (alert t).
End Targeting.

(** A recipient as it is sent to the edge function. *)
Record FormattedRecipient := mkFormatted {
  r_email : option string;
  r_phone : option string;
  r_language : string
}.

Definition formatRecipient (subscriber : Subscriber) : FormattedRecipient :=
  mkFormatted
    (if emailAlerts (preferences subscriber) then email subscriber else None)
    (if smsAlerts (preferences subscriber) then phone subscriber else None)
    (language (preferences subscriber)).

Definition formattedRecipients (rs : list Subscriber) : list FormattedRecipient :=
  List.filter (λ r, JS.truthy (r_email r) || JS.truthy (r_phone r))
              (map formatRecipient rs).

(** The recipients one zone's request carries: the zone's subscribers,
    formatted, without those that are left with no address. *)
Definition zoneRecipients {casing : JS.Casing} (originalAlert : Types.Alert)
    (zone : AlertZone) (subscribers : list Subscriber) : list FormattedRecipient :=
  formattedRecipients (zoneSubscribers originalAlert zone subscribers).


(** One batch of [sendLocationBasedNotifications]: the body posted to the
    edge function, or nothing when no recipient is left. *)
Record EdgeRequest := mkEdgeRequest {
  req_recipients : list FormattedRecipient;
  req_alert : Types.Alert;
  req_zone : ZoneType;
  req_radius : float
}.

Definition notificationRequest (t : TargetedAlert) : option EdgeRequest :=
  let formatted := formattedRecipients (recipients t) in
  if negb (nonempty formatted) then None
  else Some (mkEdgeRequest formatted (alert t) (type (zone t)) (radius (zone t))).

(** [sendLocationBasedNotifications]: the requests posted, one per batch
    that has a recipient left. *)
Definition sendLocationBasedNotifications (targetedAlerts : list TargetedAlert)
    : list EdgeRequest :=
  omap notificationRequest targetedAlerts.

Section Distribution.
Context `{LocationService.MathLib} `{Services} {casing : JS.Casing}.

(** [processAndDistributeAlert] over the subscribers the directory returned:
    the requests posted to the edge function; nothing at all when the alert
    cannot be located. An error of [createTargetedAlerts] is thrown again
    before anything is posted. *)
Definition processAndDistributeAlert (a : Types.Alert)
    (subscribers : list Subscriber) : JS.Error + list EdgeRequest :=
  let alertCoordinates :=
    match Types.coordinates a with
    | Some c => Some c
    | None => LocationService.getCityCoordinates (Types.location a)
    end in
  match alertCoordinates with
  | None => inr []
  | Some c =>
      let zones := defineAlertZones c (Types.severity a) in
      match createTargetedAlerts a zones subscribers with
      | inl error => inl error
      | inr targetedAlerts => inr (sendLocationBasedNotifications targetedAlerts)
      end
  end.
End Distribution.

(** *** The subscriber directory *)

(** A row of [alert_subscriptions] and a row of [profiles], with the columns
    the query selects. *)
Record Subscription := mkSubscription {
  email_alerts : bool;
  sms_alerts : bool;
  severity_levels : list string;
  alert_types : list string
}.

Record Profile := mkProfile {
  profile_id : string;
  user_id : string;
  full_name : string;
  profile_city : option string;
  profile_state : option string;
  users_email : option string;
  alert_subscriptions : list Subscription
}.

(** What the query comes back with: an error, or the rows ([data] may be
    [null]). *)
Inductive QueryResult :=
| QueryError (message : string)
| QueryData (profiles : option (list Profile)).

(** The body of the [map] callback. Looking up a city that is [null] throws,
    and so does reading [email_alerts] off a missing first subscription;
    [phone_number] is not among the selected columns, so reading it gives
    [undefined]. *)
Definition subscriberOfProfile {casing : JS.Casing} (profile : Profile)
    : option Subscriber :=
  match profile_city profile, alert_subscriptions profile with
  | Some city, subscription :: _ =>
      Some (mkSubscriber (user_id profile) (users_email profile) None
              city (profile_state profile)
              (LocationService.getCityCoordinates city)
              (mkPreferences "en" (email_alerts subscription)
                 (sms_alerts subscription) (severity_levels subscription)
                 (alert_types subscription)))
  | _, _ => None
  end.

(** A row the callback maps without an exception. *)
Definition mapped (profile : Profile) : bool :=
  match profile_city profile, alert_subscriptions profile with
  | Some _, _ :: _ => true
  | _, _ => false
  end.

(** [getActiveSubscribers]: an error of the query, or an exception while the
    rows are mapped, gives the empty list. *)
Definition getActiveSubscribers {casing : JS.Casing} (result : QueryResult)
    : list Subscriber :=
  match result with
  | QueryError _ => []
  | QueryData profiles =>
      match mapM subscriberOfProfile (default [] profiles) with
      | Some subscribers => subscribers
      | None => []
      end
  end.

Section Testing.
Context `{LocationService.MathLib} `{Services} {casing : JS.Casing}.

(** Delhi, the default of [testLocationBasedAlert]. *)
Definition delhi : LocationService.LocationCoordinates :=
  LocationService.mkCoordinates 28.7041 77.1025.

Definition with_coordinates (a : Types.Alert)
    (c : LocationService.LocationCoordinates) : Types.Alert :=
  Types.mkAlert (Types.alert_id a) (Types.title a) (Types.description a)
    (Types.severity a) (Types.type a) (Types.location a) (Some c)
    (Types.timestamp a) (Types.source a) (Types.magnitude a)
    (Types.languages a) (Types.isActive a).

Definition testLocationBasedAlert (testAlert : Types.Alert)
    (subscribers : list Subscriber) : JS.Error + list EdgeRequest :=
  let testAlert :=
    match Types.coordinates testAlert with
    | Some _ => testAlert
    | None =>
        with_coordinates testAlert
          (default delhi (LocationService.getCityCoordinates (Types.location testAlert)))
    end in
  processAndDistributeAlert testAlert subscribers.
End Testing.

(** *** The inclusion conditions, one by one *)

Definition is_substring (needle hay : string) : Prop :=
  ∃ before after, hay = before +:+ needle +:+ after.

(** (1) the subscriber's location and some member location of the zone
    contain one another once both are lower-cased. *)
Definition location_matches {casing : JS.Casing} (zone : AlertZone)
    (subscriber : Subscriber) : Prop :=
  ∃ c, c ∈ cities zone ∧
    (is_substring (JS.toLowerCase c) (JS.toLowerCase (city subscriber)) ∨
     is_substring (JS.toLowerCase (city subscriber)) (JS.toLowerCase c)).

(** (2) the zone's severity is in the subscriber's severity filter. *)
Definition wants_severity (zone : AlertZone) (subscriber : Subscriber) : Prop :=
  Types.severity_string (severity zone) ∈ severityLevels (preferences subscriber).

(** (3) the alert's type is in the subscriber's type filter. *)
Definition wants_type (originalAlert : Types.Alert) (subscriber : Subscriber) : Prop :=
  Types.alertType_string (Types.type originalAlert) ∈ alertTypes (preferences subscriber).

(** (4) some channel is opted into and its address is not empty. *)
Definition has_address (a : option string) : Prop := ∃ s, a = Some s ∧ s ≠ "".

Definition reachable (subscriber : Subscriber) : Prop :=
  (emailAlerts (preferences subscriber) = true ∧ has_address (email subscriber)) ∨
  (smsAlerts (preferences subscriber) = true ∧ has_address (phone subscriber)).

(** The decision the two filters take together for one subscriber. *)
Definition included {casing : JS.Casing} (originalAlert : Types.Alert)
    (zone : AlertZone) (subscriber : Subscriber) : bool :=
  inZoneAndWanted originalAlert zone subscriber &&
  (JS.truthy (r_email (formatRecipient subscriber)) ||
   JS.truthy (r_phone (formatRecipient subscriber))).

End EnhancedAlertService.

(** ** supabase/functions/send-emergency-alert/index.ts *)

Module SendEmergencyAlert.

Inductive Channel := SMS | Email.

Global Instance Channel_eq_dec : EqDecision Channel.
Proof. solve_decision. Defined.

Definition channel_string (c : Channel) : string :=
  match c with SMS => "SMS" | Email => "Email" end.

Record Recipient := mkRecipient {
  phone : option string;
  email : option string;
  language : string
}.

Record Alert := mkAlert {
  alert_id : string;
  title : string;
  description : string;
  severity : Types.Severity;
  type : string;
  location : string;
  timestamp : string;
  source : string;
  zone : option EnhancedAlertService.ZoneType;
  radius : option float;
  languages : option (gmap string Types.Localized)
}.

(** The environment variables the handler reads. *)
Record Env := mkEnv {
  TWILIO_ACCOUNT_SID : option string;
  TWILIO_AUTH_TOKEN : option string;
  TWILIO_PHONE_NUMBER : option string;
  SMTP_HOST : option string;
  SMTP_USER : option string;
  SMTP_PASS : option string;
  FROM_EMAIL : option string;
  SMTP_PORT : option string
}.

(** Host facilities whose output the language leaves to the runtime. *)
Class Host := {
  date_toLocaleString : string → string;   (* new Date(s).toLocaleString() *)
  number_toString : float → string;        (* `${n}` for a number n *)
  Number : string → float;                 (* Number(s) *)
  native_toString : string → string;       (* `${m}` for an inherited member m *)
  toUpperCase : string → string            (* s.toUpperCase() *)
}.

Definition nl : string := String (Ascii.ascii_of_nat 10) EmptyString.

(** *** Message builders *)

(** The content a message is written with; a field read off a value that
    does not have it is [undefined]. *)
Record Content := mkContent {
  c_title : option string;
  c_description : option string
}.

Definition base_content (alert : Alert) : Content :=
  mkContent (Some (title alert)) (Some (description alert)).

Definition entry_content (l : Types.Localized) : Content :=
  mkContent (Some (Types.loc_title l)) (Some (Types.loc_description l)).

(** [(alert.languages && alert.languages[language]) ? alert.languages[language]
      : { title: alert.title, description: alert.description }] *)
Definition localized (alert : Alert) (language : string) : Content :=
  match languages alert with
  | Some m =>
      match JS.get m language with
      | JS.Own l => entry_content l
      | JS.Inherited _ => mkContent None None
      | JS.Undefined => base_content alert
      end
  | None => base_content alert
  end.

Section Messages.
Context `{Host}.

Definition interp_property (p : JS.Property string) : string :=
  match p with
  | JS.Own s => s
  | JS.Inherited k => native_toString k
  | JS.Undefined => "undefined"
  end.

Definition interp_number (n : option float) : string :=
  match n with
  | Some x => number_toString x
  | None => "undefined"
  end.

Definition severityEmoji (s : Types.Severity) : string :=
  match s with
  | Types.critical => "🚨"
  | Types.warning => "⚠️"
  | Types.info => "ℹ️"
  end.

Definition typeEmoji : list (string * string) :=
  [ ("earthquake", "🌍"); ("flood", "🌊"); ("fire", "🔥");
    ("storm", "⛈️"); ("other", "📢") ].

Definition zonePrefix (z : EnhancedAlertService.ZoneType) : string :=
  match z with
  | EnhancedAlertService.immediate => "🎯 IMMEDIATE AREA"
  | EnhancedAlertService.nearby => "📍 NEARBY AREA"
  | EnhancedAlertService.regional => "🗺️ REGIONAL ALERT"
  end.

(** The body of [createEnhancedSMSMessage] after [localized] is bound. *)
Definition sms_template (alert : Alert) (content : Content) : string :=
  let zoneInfo :=
    match zone alert with
    | Some z => zonePrefix z +:+ " (" +:+ interp_number (radius alert) +:+ "km)"
    | None => "DIRECT ALERT"
    end in
  severityEmoji (severity alert) +:+ " EMERGENCY ALERT" +:+ nl +:+
  zoneInfo +:+ nl +:+
  nl +:+
  interp_property (JS.get_literal typeEmoji (type alert)) +:+ " " +:+
    JS.interp (c_title content) +:+ nl +:+
  nl +:+
  "📍 Location: " +:+ location alert +:+ nl +:+
  "🕒 Time: " +:+ date_toLocaleString (timestamp alert) +:+ nl +:+
  "📡 Source: " +:+ source alert +:+ nl +:+
  nl +:+
  JS.interp (c_description content) +:+ nl +:+
  nl +:+
  match zone alert with
  | Some EnhancedAlertService.immediate => "🚨 TAKE IMMEDIATE ACTION"
  | Some EnhancedAlertService.nearby => "⚠️ MONITOR SITUATION"
  | _ => "📢 STAY INFORMED"
  end +:+ nl +:+
  nl +:+
  "Reply STOP to unsubscribe.".

Definition createEnhancedSMSMessage (alert : Alert) (language : string) : string :=
  sms_template alert (localized alert language).

(** The HTML document of an email: the template's literal text, chunk by
    chunk in source order (index.ts, lines 325 to 440), with the values
    interpolated between the chunks. *)
Inductive HtmlPart :=
| Markup (chunk : nat)
| Value (v : string).

Record EmailMessage := mkEmail { subject : string; html : list HtmlPart }.

Definition severityColor (s : Types.Severity) : string :=
  match s with
  | Types.critical => "#dc2626"
  | Types.warning => "#f59e0b"
  | Types.info => "#3b82f6"
  end.

Definition zoneColors (z : EnhancedAlertService.ZoneType) : string :=
  match z with
  | EnhancedAlertService.immediate => "#dc2626"
  | EnhancedAlertService.nearby => "#f59e0b"
  | EnhancedAlertService.regional => "#3b82f6"
  end.

Definition zoneLabels (z : EnhancedAlertService.ZoneType) : string :=
  match z with
  | EnhancedAlertService.immediate => "🎯 IMMEDIATE AREA ALERT"
  | EnhancedAlertService.nearby => "📍 NEARBY AREA WARNING"
  | EnhancedAlertService.regional => "🗺️ REGIONAL INFORMATION"
  end.

(** [alert.zone === 'immediate' ? a : alert.zone === 'nearby' ? b : c] *)
Definition by_zone {A} (alert : Alert) (a b c : A) : A :=
  match zone alert with
  | Some EnhancedAlertService.immediate => a
  | Some EnhancedAlertService.nearby => b
  | _ => c
  end.

(** The body of [createEnhancedEmailMessage] after [localized] is bound. *)
Definition email_template (alert : Alert) (language : string)
    (content : Content) : EmailMessage :=
  let zoneInfo :=
    match zone alert with
    | Some z => zoneLabels z
    | None => "DIRECT EMERGENCY ALERT"
    end in
  let zoneColor :=
    match zone alert with
    | Some z => zoneColors z
    | None => severityColor (severity alert)
    end in
  mkEmail
    (by_zone alert "🚨 IMMEDIATE" "⚠️ NEARBY" "📢 REGIONAL" +:+ " ALERT: " +:+
     JS.interp (c_title content))
    ([ Markup 0; Value zoneColor;
       Markup 1; Value zoneInfo;
       Markup 2; Value (JS.interp (c_title content));
       Markup 3; Value zoneColor;
       Markup 4; Value (location alert);
       Markup 5; Value (date_toLocaleString (timestamp alert));
       Markup 6; Value (severityColor (severity alert));
       Markup 7; Value (Types.severity_string (severity alert));
       Markup 8; Value (source alert);
       Markup 9 ] ++
     match zone alert with
     | Some z =>
         [ Markup 10; Value zoneColor;
           Markup 11; Value (toUpperCase (EnhancedAlertService.zoneType_string z));
           Markup 12; Value (interp_number (radius alert));
           Markup 13 ]
     | None => [ Value "" ]
     end ++
     [ Markup 14; Value (JS.interp (c_description content));
       Markup 15; Value (by_zone alert "#fef2f2" "#fffbeb" "#eff6ff");
       Markup 16; Value zoneColor;
       Markup 17; Value zoneColor;
       Markup 18;
       Value (by_zone alert "🚨 IMMEDIATE ACTION REQUIRED"
                "⚠️ MONITOR SITUATION CLOSELY" "📢 STAY INFORMED");
       Markup 19;
       Value (by_zone alert
          "You are in the immediate impact area. Follow emergency procedures and local authority guidance immediately."
          "Emergency situation detected near your location. Stay alert and be prepared to take action if conditions change."
          "Emergency situation in your region. Stay informed through official channels and follow local authority guidance.");
       Markup 20; Value (toUpperCase language);
       Markup 21; Value (alert_id alert);
       Markup 22 ]).

Definition createEnhancedEmailMessage (alert : Alert) (language : string)
    : EmailMessage :=
  email_template alert language (localized alert language).
End Messages.

(** *** Effects *)

(** The HTTP request [sendEnhancedSMS] hands to [fetch]: the credentials of
    the Basic authorization header and the three form fields, before their
    base64 and URL encoding. *)
Record FetchRequest := mkFetch {
  url : string;
  auth_user : string;
  auth_pass : string;
  To : string;
From : string;
Body : string
}.

(** What comes back: [fetch] itself rejects, or a response arrives whose
    body text can be read or not. *)
Inductive FetchResult :=
| FetchRejects (e : JS.Error)
| FetchResponds (status : nat) (statusText : string) (text : option string).

Inductive Level := log | warn | error.

Inductive Event :=
| Console (level : Level) (text : string)
| Fetch (r : FetchRequest)
| Timer (ms : nat).

Definition is_fetch (e : Event) : bool :=
  match e with Fetch _ => true | _ => false end.

Definition is_timer (e : Event) : bool :=
  match e with Timer _ => true | _ => false end.

Definition is_console (e : Event) : Prop :=
  match e with Console _ _ => True | _ => False end.

(** The value a send operation resolves with. *)
Record Delivery := mkDelivery {
  d_type : Channel;
  d_recipient : string;
  d_status : string;
  d_language : string
}.

(** How a promise settles. *)
Inductive Settled :=
| Fulfilled (value : Delivery)
| Rejected (reason : JS.Error).

Definition is_fulfilled (r : Settled) : bool :=
  match r with Fulfilled _ => true | Rejected _ => false end.

Definition is_rejected (r : Settled) : bool :=
  match r with Fulfilled _ => false | Rejected _ => true end.

(** A send operation that has been started: what it does before its first
    suspension, what it does when it resumes, and how it settles. *)
Record SendOp := mkSendOp {
  on_issue : list Event;
  on_settle : list Event;
  outcome : Settled
}.

Section Sending.
Context `{Host}.

(** [response.ok] *)
Definition response_ok (status : nat) : bool :=
  (200 <=? status)%nat && (status <=? 299)%nat.

Definition sendEnhancedSMS (network : FetchRequest → FetchResult)
    (phone : string) (alert : Alert) (language : string)
    (accountSid authToken fromNumber : string) : SendOp :=
  let smsBody := createEnhancedSMSMessage alert language in
  let request :=
    mkFetch ("https://api.twilio.com/2010-04-01/Accounts/" +:+ accountSid +:+
             "/Messages.json")
            accountSid authToken phone fromNumber smsBody in
  match network request with
  | FetchRejects e => mkSendOp [Fetch request] [] (Rejected e)
  | FetchResponds status statusText text =>
      if negb (response_ok status) then
        let details := default statusText text in
        mkSendOp [Fetch request] []
          (Rejected (JS.mkError "Error"
             ("SMS delivery failed: " +:+ pretty status +:+ " " +:+ details)))
      else
        mkSendOp [Fetch request]
          [Console log ("📱 SMS delivered to " +:+ phone +:+ " (" +:+ language +:+ ")")]
          (Fulfilled (mkDelivery SMS phone "delivered" language))
  end.

Definition sendEnhancedEmail (email : string) (alert : Alert) (language : string)
    (smtpHost smtpUser smtpPass fromEmail : string) (smtpPort : float) : SendOp :=
  let emailContent := createEnhancedEmailMessage alert language in
  mkSendOp
    [ Console log ("📧 Email prepared for " +:+ email +:+ " (" +:+ language +:+ "):");
      Timer 500 ]
    [ Console log ("📧 Email delivered to " +:+ email +:+ " (" +:+ language +:+ ")") ]
    (Fulfilled (mkDelivery Email email "delivered" language)).
End Sending.

(** *** The handler *)

Record Meta := mkMeta {
  m_channel : Channel;
  m_recipient : string;
  m_language : string
}.

(** An entry of the [errors] array; only the entries made from
    [deliveryMeta] carry a language. *)
Record ErrorEntry := mkErrorEntry {
  e_channel : Channel;
  e_recipient : string;
  e_language : option string;
  e_reason : string
}.

Definition missingTwilio (env : Env) : list string :=
  (if negb (JS.truthy (TWILIO_ACCOUNT_SID env)) then ["TWILIO_ACCOUNT_SID"] else []) ++
  (if negb (JS.truthy (TWILIO_AUTH_TOKEN env)) then ["TWILIO_AUTH_TOKEN"] else []) ++
  (if negb (JS.truthy (TWILIO_PHONE_NUMBER env)) then ["TWILIO_PHONE_NUMBER"] else []).

Definition missingSmtp (env : Env) : list string :=
  (if negb (JS.truthy (SMTP_HOST env)) then ["SMTP_HOST"] else []) ++
  (if negb (JS.truthy (FROM_EMAIL env)) then ["FROM_EMAIL"] else []) ++
  (if negb (JS.truthy (SMTP_USER env)) then ["SMTP_USER"] else []) ++
  (if negb (JS.truthy (SMTP_PASS env)) then ["SMTP_PASS"] else []).

Definition smsEnabled (env : Env) : bool :=
  bool_decide (length (missingTwilio env) = 0).

Definition emailEnabled (env : Env) : bool :=
  bool_decide (length (missingSmtp env) = 0).

(** [x!] for a setting the gate has found non-empty. *)
Definition sure (v : option string) : string := default "" v.

(** The three arrays the loop over the recipients fills. *)
Record Loop := mkLoop {
  deliveryTasks : list SendOp;
  deliveryMeta : list Meta;
  earlyErrors : list ErrorEntry
}.

Section Handler.
Context `{Host}.

(** The network, as the handler meets it: the answer to the request of the
    send operation started as the [i]-th delivery task. *)
Variable network : nat → FetchRequest → FetchResult.
Variable env : Env.

Definition smtpPort : float := Number (JS.or_else (SMTP_PORT env) "587").

Definition sms_not_configured : string :=
  "SMS service not configured: " +:+ JS.join ", " (missingTwilio env).

Definition email_not_configured : string :=
  "Email service not configured: " +:+ JS.join ", " (missingSmtp env).

(** The body of [for (const recipient of recipients)]. *)
Definition process_recipient (alert : Alert) (st : Loop) (recipient : Recipient)
    : Loop :=
  let lang := JS.or_else (Some (language recipient)) "en" in
  let st :=
    if JS.truthy (phone recipient) && smsEnabled env then
      mkLoop
        (deliveryTasks st ++
           [ sendEnhancedSMS (network (length (deliveryTasks st)))
               (sure (phone recipient)) alert lang
               (sure (TWILIO_ACCOUNT_SID env)) (sure (TWILIO_AUTH_TOKEN env))
               (sure (TWILIO_PHONE_NUMBER env)) ])
        (deliveryMeta st ++ [ mkMeta SMS (sure (phone recipient)) lang ])
        (earlyErrors st)
    else if JS.truthy (phone recipient) && negb (smsEnabled env) then
      mkLoop (deliveryTasks st) (deliveryMeta st)
        (earlyErrors st ++
           [ mkErrorEntry SMS (sure (phone recipient)) None sms_not_configured ])
    else st in
  let st :=
    if JS.truthy (email recipient) && emailEnabled env then
      mkLoop
        (deliveryTasks st ++
           [ sendEnhancedEmail (sure (email recipient)) alert lang
               (sure (SMTP_HOST env)) (sure (SMTP_USER env)) (sure (SMTP_PASS env))
               (sure (FROM_EMAIL env)) smtpPort ])
        (deliveryMeta st ++ [ mkMeta Email (sure (email recipient)) lang ])
        (earlyErrors st)
    else if JS.truthy (email recipient) && negb (emailEnabled env) then
      mkLoop (deliveryTasks st) (deliveryMeta st)
        (earlyErrors st ++
           [ mkErrorEntry Email (sure (email recipient)) None email_not_configured ])
    else st in
  st.

Definition process_recipients (alert : Alert) (recipients : list Recipient) : Loop :=
  foldl (process_recipient alert) (mkLoop [] [] []) recipients.

(** [Promise.allSettled]: each task writes its result into its own slot of
    the result array when it settles; [completion] lists the tasks in the
    order in which they settle. The array is handed over once every slot
    is filled. *)
Definition settle_slots (tasks : list SendOp) (completion : list nat)
    : list (option Settled) :=
  foldl (λ slots i,
           match tasks !! i with
           | Some t => <[ i := Some (outcome t) ]> slots
           | None => slots
           end)
        (replicate (length tasks) None) completion.

Definition allSettled (tasks : list SendOp) (completion : list nat)
    : option (list Settled) :=
  mapM (λ slot, slot) (settle_slots tasks completion).

(** The events of the resumed operations, in completion order. *)
Definition settle_events (tasks : list SendOp) (completion : list nat)
    : list Event :=
  flat_map (λ i, match tasks !! i with
                 | Some t => on_settle t
                 | None => []
                 end) completion.

Definition rejection_reason (e : JS.Error) : string :=
  JS.or_else (Some (JS.message e)) (JS.String_of_error e).

(** [deliveryResults.map((result, i) => rejected ? {...deliveryMeta[i], reason}
    : null).filter(Boolean)] *)
Definition deliveryErrors (meta : list Meta) (results : list Settled)
    : list ErrorEntry :=
  omap (λ x, x)
    (imap (λ i result,
             match result with
             | Rejected e =>
                 (λ m, mkErrorEntry (m_channel m) (m_recipient m)
                         (Some (m_language m)) (rejection_reason e))
                   <$> meta !! i
             | Fulfilled _ => None
             end) results).

Record DeliveryReport := mkReport {
  success : bool;
  sent : nat;
  failed : nat;
  errors : list ErrorEntry;
  report_zone : string;
  report_radius : option float;
  config : bool * bool;
  report_message : string
}.

Record Failure := mkFailure {
  f_success : bool;
  f_error : string;
  f_sent : nat;
  f_failed : nat
}.

Inductive Response :=
| Preflight                                  (* new Response(null, {headers}) *)
| Status200 (body : DeliveryReport)
| Status500 (body : Failure).

Definition zone_or (alert : Alert) (d : string) : string :=
  match zone alert with
  | Some z => EnhancedAlertService.zoneType_string z
  | None => d
  end.

Definition report (alert : Alert) (st : Loop) (deliveryResults : list Settled)
    : DeliveryReport :=
  let allErrors := earlyErrors st ++ deliveryErrors (deliveryMeta st) deliveryResults in
  let successful := length (List.filter is_fulfilled deliveryResults) in
  let failed := length allErrors in
  mkReport (bool_decide (failed = 0)) successful failed allErrors
    (zone_or alert "direct") (radius alert)
    (smsEnabled env, emailEnabled env)
    (zone_or alert "Direct" +:+ " zone alert: " +:+ pretty successful +:+
     " delivered, " +:+ pretty failed +:+ " failed").

(** The parsed request body. [req.json()] rejects on a body that is not
    JSON; a JSON body may lack either of the two properties the handler
    destructures. *)
Inductive RequestBody :=
| NotJson (e : JS.Error)
| Json (recipients : option (list Recipient)) (alert : option Alert).

Record Request := mkRequest { method : string; body : RequestBody }.

Definition failure_response (e : JS.Error) : Response :=
  Status500 (mkFailure false
    (JS.or_else (Some (JS.message e)) "Failed to process emergency alert") 0 0).

(** The [TypeError] of reading a property of [undefined]. *)
Definition undefined_read (property : string) : JS.Error :=
  JS.mkError "TypeError"
    ("Cannot read properties of undefined (reading '" +:+ property +:+ "')").

Definition critical_error : Event :=
  Console error "💥 Critical error in alert processing:".

Record Run := mkRun { response : Response; trace : list Event }.

Definition opening_logs (alert : Alert) (recipients : list Recipient) : list Event :=
  [ Console log ("📡 Processing " +:+ zone_or alert "direct" +:+ " zone alert for " +:+
                 pretty (length recipients) +:+ " recipients");
    Console log "Service status:" ] ++
  (if negb (smsEnabled env)
   then [ Console warn ("⚠️ SMS disabled - missing: " +:+ JS.join ", " (missingTwilio env)) ]
   else []) ++
  (if negb (emailEnabled env)
   then [ Console warn ("⚠️ Email disabled - missing: " +:+ JS.join ", " (missingSmtp env)) ]
   else []).

Definition closing_logs (r : DeliveryReport) : list Event :=
  [ Console log ("📊 Delivery summary: " +:+ pretty (sent r) +:+ " sent, " +:+
                 pretty (failed r) +:+ " failed") ] ++
  (if (0 <? length (errors r))%nat then [ Console error "❌ Delivery errors:" ] else []).

(** The request handler. [None]: some send operation has not settled, so
    the handler is still waiting on [Promise.allSettled]. *)
Definition handler (completion : list nat) (req : Request) : option Run :=
  if String.eqb (method req) "OPTIONS" then Some (mkRun Preflight [])
  else
    match body req with
    | NotJson e => Some (mkRun (failure_response e) [critical_error])
    | Json _ None =>
        Some (mkRun (failure_response (undefined_read "zone")) [critical_error])
    | Json None (Some _) =>
        Some (mkRun (failure_response (undefined_read "length")) [critical_error])
    | Json (Some recipients) (Some alert) =>
        let st := process_recipients alert recipients in
        match allSettled (deliveryTasks st) completion with
        | None => None
        | Some deliveryResults =>
            let r := report alert st deliveryResults in
            Some (mkRun (Status200 r)
                    (opening_logs alert recipients ++
                     flat_map on_issue (deliveryTasks st) ++
                     settle_events (deliveryTasks st) completion ++
                     closing_logs r))
        end
    end.

(** Every send operation the request starts is among those that settle. *)
Definition all_settle (completion : list nat) (req : Request) : Prop :=
  match body req with
  | Json (Some recipients) (Some alert) =>
      ∀ i, i < length (deliveryTasks (process_recipients alert recipients)) →
           i ∈ completion
  | _ => True
  end.
End Handler.


(** *** Accounting of one run *)

(** A task of a run: one per recipient and per channel whose address the
    recipient gave. *)
Record Task := mkTask { t_channel : Channel; t_address : string }.

Definition tasks_of (recipient : Recipient) : list Task :=
  (if JS.truthy (phone recipient) then [ mkTask SMS (sure (phone recipient)) ] else []) ++
  (if JS.truthy (email recipient) then [ mkTask Email (sure (email recipient)) ] else []).

Definition enumerate (recipients : list Recipient) : list Task :=
  flat_map tasks_of recipients.

Definition attempted (recipients : list Recipient) : nat :=
  length (enumerate recipients).

Definition rejected_count (results : list Settled) : nat :=
  length (List.filter is_rejected results).

(** Why a task failed: its channel's gate was closed, or its send operation
    was rejected. *)
Inductive FailureKind := Configuration | Transport.

Definition is_configuration (e : FailureKind * ErrorEntry) : bool :=
  match e.1 with Configuration => true | Transport => false end.

Definition is_transport (e : FailureKind * ErrorEntry) : bool :=
  match e.1 with Configuration => false | Transport => true end.

Definition on_channel (c : Channel) (e : ErrorEntry) : bool :=
  bool_decide (e_channel e = c).

Section Accounting.
Variable env : Env.

Definition lang_of (recipient : Recipient) : string :=
  JS.or_else (Some (language recipient)) "en".

(** What one pass of the loop body appends to [deliveryMeta] and to
    [earlyErrors]. *)
Definition metas_of (recipient : Recipient) : list Meta :=
  (if JS.truthy (phone recipient) && smsEnabled env
   then [ mkMeta SMS (sure (phone recipient)) (lang_of recipient) ] else []) ++
  (if JS.truthy (email recipient) && emailEnabled env
   then [ mkMeta Email (sure (email recipient)) (lang_of recipient) ] else []).

Definition gated_sms (recipient : Recipient) : ErrorEntry :=
  mkErrorEntry SMS (sure (phone recipient)) None (sms_not_configured env).

Definition gated_email (recipient : Recipient) : ErrorEntry :=
  mkErrorEntry Email (sure (email recipient)) None (email_not_configured env).

Definition gated_of (recipient : Recipient) : list ErrorEntry :=
  (if JS.truthy (phone recipient) && negb (smsEnabled env)
   then [ gated_sms recipient ] else []) ++
  (if JS.truthy (email recipient) && negb (emailEnabled env)
   then [ gated_email recipient ] else []).

(** The error entry of the send operation in slot [i], if it was rejected. *)
Definition transport_error (results : list Settled) (i : nat) (m : Meta)
    : list ErrorEntry :=
  match results !! i with
  | Some (Rejected e) =>
      [ mkErrorEntry (m_channel m) (m_recipient m) (Some (m_language m))
          (rejection_reason e) ]
  | _ => []
  end.

(** The failures of a run task by task, in the order the tasks are
    enumerated: recipients in submission order, SMS before Email; [i] is
    the slot of the next send operation. *)
Fixpoint failures_in_task_order (results : list Settled) (i : nat)
    (recipients : list Recipient) : list (FailureKind * ErrorEntry) :=
  match recipients with
  | [] => []
  | r :: rest =>
      let sms :=
        if JS.truthy (phone r) then
          if smsEnabled env
          then pair Transport <$>
                 transport_error results i (mkMeta SMS (sure (phone r)) (lang_of r))
          else [ (Configuration, gated_sms r) ]
        else [] in
      let i := if JS.truthy (phone r) && smsEnabled env then S i else i in
      let eml :=
        if JS.truthy (email r) then
          if emailEnabled env
          then pair Transport <$>
                 transport_error results i (mkMeta Email (sure (email r)) (lang_of r))
          else [ (Configuration, gated_email r) ]
        else [] in
      let i := if JS.truthy (email r) && emailEnabled env then S i else i in
      sms ++ eml ++ failures_in_task_order results i rest
  end.

(** What the loop records under a [deliveryMeta] entry: an SMS operation, which
    sets no timer, when the SMS gate is open; an email operation, which is
    fulfilled and fetches nothing, when the email gate is open. *)
Definition issued_as (t : SendOp) (m : Meta) : Prop :=
  match m_channel m with
  | SMS =>
      smsEnabled env = true ∧
      Forall (λ e, is_timer e = false) (on_issue t ++ on_settle t)
  | Email =>
      emailEnabled env = true ∧ is_fulfilled (outcome t) = true ∧
      Forall (λ e, is_fetch e = false) (on_issue t ++ on_settle t)
  end.

(** The entry a rejected send operation leaves in the [errors] array. *)
Definition rejected_entry (m : Meta) (r : Settled) : list ErrorEntry :=
  match r with
  | Rejected e =>
      [ mkErrorEntry (m_channel m) (m_recipient m) (Some (m_language m))
          (rejection_reason e) ]
  | Fulfilled _ => []
  end.

Definition errors_in_task_order (results : list Settled)
    (recipients : list Recipient) : list ErrorEntry :=
  (failures_in_task_order results 0 recipients).*2.
End Accounting.

(** What one send operation does to the outside: an SMS operation makes one
    request and sets no timer, an email operation sets one timer and makes no
    request; neither does either once it resumes. *)
Definition acts_as (t : SendOp) (m : Meta) : Prop :=
  List.filter is_fetch (on_settle t) = [] ∧ List.filter is_timer (on_settle t) = [] ∧
  match m_channel m with
  | SMS => (∃ r, List.filter is_fetch (on_issue t) = [ Fetch r ] ∧
                 To r = m_recipient m) ∧
           List.filter is_timer (on_issue t) = []
  | Email => List.filter is_fetch (on_issue t) = [] ∧
             List.filter is_timer (on_issue t) = [ Timer 500 ]
  end.

(** A request the handler cannot take apart. *)
Definition malformed (b : RequestBody) : Prop :=
  match b with
  | NotJson _ => True
  | Json recipients alert => recipients = None ∨ alert = None
  end.

(** *** A host and three runs to evaluate the model on *)

Definition float_to_Z (x : float) : option Z :=
  match Prim2SF x with
  | S754_zero _ => Some 0%Z
  | S754_finite s m e =>
      (λ z : Z, if s then (- z)%Z else z) <$>
        (if (0 <=? e)%Z then Some (Z.pos m * 2 ^ e)%Z
         else if (Z.pos m mod 2 ^ (- e) =? 0)%Z then Some (Z.pos m / 2 ^ (- e))%Z
         else None)
  | _ => None
  end.

Fixpoint digits_value (acc : nat) (s : string) : option nat :=
  match s with
  | EmptyString => Some acc
  | String c s' =>
      let n := Ascii.nat_of_ascii c in
      if (48 <=? n)%nat && (n <=? 57)%nat then digits_value (10 * acc + (n - 48)) s'
      else None
  end.

(** Prints and reads whole numbers, leaves a timestamp as it is written. *)
Definition plain_host : Host :=
  {| date_toLocaleString := λ s, s;
     number_toString := λ x, default "NaN" (pretty <$> float_to_Z x);
     Number := λ s, match digits_value 0 s with
                    | Some n => PrimFloat.of_uint63 (Uint63.of_Z (Z.of_nat n))
                    | None => nan
                    end;
     native_toString := λ k, "function " +:+ k +:+ "() { [native code] }";
     toUpperCase := JS.ascii_upper |}.

Definition flood_alert : Alert :=
  mkAlert "a-1" "Flood warning" "River level rising" Types.critical "flood"
    "Chennai" "2025-01-01T00:00:00Z" "IMD" None None None.

(** The same alert, carrying a [languages] record with no entry, and one with
    a Hindi entry. *)
Definition flood_alert_untranslated : Alert :=
  mkAlert "a-1" "Flood warning" "River level rising" Types.critical "flood"
    "Chennai" "2025-01-01T00:00:00Z" "IMD" None None (Some ∅).

Definition flood_alert_hindi : Alert :=
  mkAlert "a-1" "Flood warning" "River level rising" Types.critical "flood"
    "Chennai" "2025-01-01T00:00:00Z" "IMD" None None
    (Some {[ "hi" := Types.mkLocalized "Baadh ki chetavani" "Nadi ka star badh raha hai" ]}).

Definition all_set : Env :=
  mkEnv (Some "AC1") (Some "tok") (Some "+10000000000")
        (Some "smtp.example.org") (Some "mailer") (Some "secret")
        (Some "alerts@example.org") None.

(** No Twilio account identifier. *)
Definition no_account_sid : Env :=
  mkEnv None (Some "tok") (Some "+10000000000")
        (Some "smtp.example.org") (Some "mailer") (Some "secret")
        (Some "alerts@example.org") None.

(** No SMTP password. *)
Definition no_smtp_pass : Env :=
  mkEnv (Some "AC1") (Some "tok") (Some "+10000000000")
        (Some "smtp.example.org") (Some "mailer") None
        (Some "alerts@example.org") None.

Definition phone_only : Recipient := mkRecipient (Some "+911111111111") None "en".
Definition email_only : Recipient := mkRecipient None (Some "a@example.org") "en".
Definition phone_and_email : Recipient :=
  mkRecipient (Some "+912222222222") (Some "b@example.org") "en".

(** A provider that accepts every message, and one that answers 500. *)
Definition provider_accepts : nat → FetchRequest → FetchResult :=
  λ _ _, FetchResponds 201 "Created" (Some "{}").

Definition provider_fails : nat → FetchRequest → FetchResult :=
  λ _ _, FetchResponds 500 "Internal Server Error" (Some "down").

(** A provider that fails the first send operation only. *)
Definition provider_fails_first : nat → FetchRequest → FetchResult :=
  λ i _, match i with
         | 0 => FetchResponds 500 "Internal Server Error" (Some "down")
         | _ => FetchResponds 201 "Created" (Some "{}")
         end.

Definition post (recipients : list Recipient) : Request :=
  mkRequest "POST" (Json (Some recipients) (Some flood_alert)).

End SendEmergencyAlert.

(** ** The request on the wire *)

(** What [sendLocationBasedNotifications] serializes and the edge function
    parses: a property that is [undefined] is left out of the JSON text, the
    alert's type is its string, and [zone] and [radius] are set from the
    zone (the radii are 5, 25 and 100; a number that is not finite would be
    written as [null]). *)
Module Wire.

Definition recipient (r : EnhancedAlertService.FormattedRecipient)
    : SendEmergencyAlert.Recipient :=
  SendEmergencyAlert.mkRecipient (EnhancedAlertService.r_phone r)
    (EnhancedAlertService.r_email r) (EnhancedAlertService.r_language r).

Definition alert (a : Types.Alert) (z : EnhancedAlertService.ZoneType)
    (radius : float) : SendEmergencyAlert.Alert :=
  SendEmergencyAlert.mkAlert (Types.alert_id a) (Types.title a)
    (Types.description a) (Types.severity a)
    (Types.alertType_string (Types.type a)) (Types.location a)
    (Types.timestamp a) (Types.source a) (Some z) (Some radius)
    (Some (Types.languages a)).

Definition request (r : EnhancedAlertService.EdgeRequest)
    : SendEmergencyAlert.Request :=
  SendEmergencyAlert.mkRequest "POST"
    (SendEmergencyAlert.Json
       (Some (map recipient (EnhancedAlertService.req_recipients r)))
       (Some (alert (EnhancedAlertService.req_alert r)
                (EnhancedAlertService.req_zone r)
                (EnhancedAlertService.req_radius r)))).

End Wire.

(** ** The alert service (the [AlertService] class of src/pages/Auth.tsx) *)

Module AlertService.

(** The preferences object, every property of which may be missing. *)
Record Preferences := mkPreferences {
  language : option string;
  state : option string;
  region : option string;
  severityLevels : option (list string);
  alertTypes : option (list string)
}.

Record Subscriber := mkSubscriber {
  email : option string;
  phone : option string;
  preferences : Preferences
}.

(** The preferences [subscribe] stores: the ones given, with the two filter
    lists defaulted when they are missing. *)
Definition stored (preferences : option Preferences) : Preferences :=
  mkPreferences
    (p ← preferences; language p)
    (p ← preferences; state p)
    (p ← preferences; region p)
    (Some (default ["critical"; "warning"] (p ← preferences; severityLevels p)))
    (Some (default ["earthquake"; "flood"; "fire"; "storm"]
                   (p ← preferences; alertTypes p))).

(** [sub.email === email && sub.phone === phone] *)
Definition same_subscriber (email phone : option string) (sub : Subscriber) : bool :=
  bool_decide (AlertService.email sub = email) &&
  bool_decide (AlertService.phone sub = phone).

Definition subscribe (subscribers : list Subscriber) (email phone : option string)
    (preferences : option Preferences) : list Subscriber :=
  List.filter (λ sub, negb (same_subscriber email phone sub)) subscribers ++
  [ mkSubscriber email phone (stored preferences) ].

(** [xs?.length > 0] *)
Definition has_entries (xs : option (list string)) : bool :=
  match xs with
  | Some (_ :: _) => true
  | _ => false
  end.

(** The callback of the filter in [filterAlertsForSubscriber]. *)
Definition relevant {casing : JS.Casing}
    (indianStates : list LocationService.IndianState)
    (subscriber : Subscriber) (alert : Types.Alert) : bool :=
  let prefs := preferences subscriber in
  let located := negb (String.eqb (Types.location alert) "") in
  let alertLocation := JS.toLowerCase (Types.location alert) in
  let state_ok :=
    if JS.truthy (state prefs) && located then
      match List.find (λ s, bool_decide (Some (LocationService.state_code s) = state prefs))
                      indianStates with
      | Some st =>
          JS.includes alertLocation (JS.toLowerCase (LocationService.state_name st))
      | None => true
      end
    else true in
  let region_ok :=
    if JS.truthy (region prefs) && negb (JS.truthy (state prefs)) && located then
      existsb (λ st, JS.includes alertLocation
                       (JS.toLowerCase (LocationService.state_name st)))
        (List.filter (λ s, bool_decide (Some (LocationService.state_region s) = region prefs))
                     indianStates)
    else true in
  let severity_ok :=
    if has_entries (severityLevels prefs) then
      EnhancedAlertService.array_includes (default [] (severityLevels prefs))
        (Types.severity_string (Types.severity alert))
    else true in
  let type_ok :=
    if has_entries (alertTypes prefs) then
      EnhancedAlertService.array_includes (default [] (alertTypes prefs))
        (Types.alertType_string (Types.type alert))
    else true in
  if negb state_ok then false
  else if negb region_ok then false
  else if negb severity_ok then false
  else if negb type_ok then false
  else true.

Definition filterAlertsForSubscriber {casing : JS.Casing}
    (indianStates : list LocationService.IndianState)
    (alerts : list Types.Alert) (subscriber : Subscriber) : list Types.Alert :=
  List.filter (relevant indianStates subscriber) alerts.

(** The single recipient of the requests posted for a subscriber. *)
Definition recipientOf (subscriber : Subscriber) : SendEmergencyAlert.Recipient :=
  SendEmergencyAlert.mkRecipient (phone subscriber) (email subscriber)
    (JS.or_else (language (preferences subscriber)) "en").

(** The request [sendNotifications] posts for one alert: the body has the
    properties [alerts] and [recipients], and no property [alert]. *)
Definition notification (subscriber : Subscriber) (alert : Types.Alert)
    : SendEmergencyAlert.Request :=
  SendEmergencyAlert.mkRequest "POST"
    (SendEmergencyAlert.Json (Some [ recipientOf subscriber ]) None).

(** The requests of [sendNotifications], subscriber by subscriber, as long as
    no [fetch] rejects (a rejection ends the subscriber's requests). *)
Definition sendNotifications {casing : JS.Casing}
    (indianStates : list LocationService.IndianState)
    (subscribers : list Subscriber) (alerts : list Types.Alert)
    : list SendEmergencyAlert.Request :=
  flat_map (λ subscriber,
              map (notification subscriber)
                  (filterAlertsForSubscriber indianStates alerts subscriber))
           subscribers.

End AlertService.

(** ** The alert processor (the [NLPAlertProcessor] class of src/pages/Auth.tsx) *)

Module NLPAlertProcessor.

(** [magnitude >= 6.0], [magnitude >= 4.5] *)
Definition determineSeverityFromMagnitude (magnitude : float) : Types.Severity :=
  if (6.0 <=? magnitude)%float then Types.critical
  else if (4.5 <=? magnitude)%float then Types.warning
  else Types.info.

(** [o[k]] on an object literal in the browser, where an object answers to
    [__proto__] as well as to the members of [Object.prototype]. *)
Definition read {A} (o : list (string * A)) (k : string) : JS.Property A :=
  match JS.assoc o k with
  | Some a => JS.Own a
  | None =>
      if JS.inherited k || String.eqb k "__proto__" then JS.Inherited k
      else JS.Undefined
  end.

(** [map[word?.toLowerCase()] || fallback]: the value under the key, the
    inherited member when the key names one, the fallback otherwise. A
    missing word reads the key "undefined". *)
Definition lookup_or {casing : JS.Casing} {A} (table : list (string * A))
    (word : option string) (fallback : A) : JS.Property A :=
  match read table (default "undefined" (JS.toLowerCase <$> word)) with
  | JS.Own a => JS.Own a
  | JS.Inherited k => JS.Inherited k
  | JS.Undefined => JS.Own fallback
  end.

Definition mapIMDSeverity {casing : JS.Casing} (severity : option string)
    : JS.Property Types.Severity :=
  lookup_or [ ("red", Types.critical); ("orange", Types.warning);
              ("yellow", Types.info); ("severe", Types.critical);
              ("moderate", Types.warning); ("light", Types.info) ]
            severity Types.info.

Definition mapIMDType {casing : JS.Casing} (type : option string)
    : JS.Property string :=
  lookup_or [ ("cyclone", "storm"); ("heavy_rain", "flood");
              ("thunderstorm", "storm"); ("heatwave", "other");
              ("cold_wave", "other") ]
            type "other".

Definition mapNDMASeverity {casing : JS.Casing} (severity : option string)
    : JS.Property Types.Severity :=
  lookup_or [ ("extreme", Types.critical); ("severe", Types.critical);
              ("moderate", Types.warning); ("minor", Types.info);
              ("unknown", Types.info) ]
            severity Types.warning.

Definition mapNDMAType {casing : JS.Casing} (event : option string)
    : JS.Property string :=
  lookup_or [ ("earthquake", "earthquake"); ("flood", "flood"); ("fire", "fire");
              ("cyclone", "storm"); ("tsunami", "other"); ("landslide", "other") ]
            event "other".

Definition extractCoordinates {casing : JS.Casing}
    (indianStates : list LocationService.IndianState)
    (alert : Types.Alert) : option LocationService.LocationCoordinates :=
  match Types.coordinates alert with
  | Some c => Some c
  | None => LocationService.parseLocationFromAlert indianStates (Types.location alert)
  end.

(** An entry of [supportedLanguages] ([@/data/languages]). *)
Record Language := mkLanguage {
  code : string;
  name : string;
  nativeName : string;
  flag : string
}.

Definition emergencyTranslations : list (string * list (string * string)) :=
[ ("hi",
    [ ("earthquake", "भूकंप");
      ("flood", "बाढ़");
      ("fire", "आग");
      ("storm", "तूफान");
      ("critical", "गंभीर");
      ("warning", "चेतावनी");
      ("info", "जानकारी");
      ("magnitude", "तीव्रता");
      ("immediately", "तुरंत");
      ("evacuate", "निकासी");
      ("take shelter", "आश्रय लें");
      ("avoid", "बचें");
      ("emergency", "आपातकाल") ]);
  ("ta",
    [ ("earthquake", "நிலநடுக்கம்");
      ("flood", "வெள்ளம்");
      ("fire", "தீ");
      ("storm", "புயல்");
      ("critical", "முக்கியமான");
      ("warning", "எச்சரிக்கை");
      ("info", "தகவல்");
      ("magnitude", "அளவு");
      ("immediately", "உடனடியாக");
      ("evacuate", "வெளியேறு");
      ("take shelter", "அடைக்கலம் எடு");
      ("avoid", "தவிர்");
      ("emergency", "அவசரநிலை") ]);
  ("te",
    [ ("earthquake", "భూకంపం");
      ("flood", "వరద");
      ("fire", "మంట");
      ("storm", "తుఫాను");
      ("critical", "క్లిష్టమైన");
      ("warning", "హెచ్చరిక");
      ("info", "సమాచారం");
      ("magnitude", "తీవ్రత");
      ("immediately", "వెంటనే");
      ("evacuate", "ఖాళీ చేయండి");
      ("take shelter", "ఆశ్రయం తీసుకోండి");
      ("avoid", "దూరంగా ఉండండి");
      ("emergency", "అత్యవసర పరిస్థితి") ]);
  ("bn",
    [ ("earthquake", "ভূমিকম্প");
      ("flood", "বন্যা");
      ("fire", "আগুন");
      ("storm", "ঝড়");
      ("critical", "গুরুতর");
      ("warning", "সতর্কতা");
      ("info", "তথ্য");
      ("magnitude", "মাত্রা");
      ("immediately", "অবিলম্বে");
      ("evacuate", "সরে যান");
      ("take shelter", "আশ্রয় নিন");
      ("avoid", "এড়িয়ে চলুন");
      ("emergency", "জরুরি অবস্থা") ]);
  ("mr",
    [ ("earthquake", "भूकंप");
      ("flood", "पूर");
      ("fire", "आग");
      ("storm", "वादळ");
      ("critical", "गंभीर");
      ("warning", "चेतावणी");
      ("info", "माहिती");
      ("magnitude", "तीव्रता");
      ("immediately", "तातडीने");
      ("evacuate", "बाहेर पडा");
      ("take shelter", "आश्रय घ्या");
      ("avoid", "टाळा");
      ("emergency", "आणीबाणी") ]);
  ("gu",
    [ ("earthquake", "ભૂકંપ");
      ("flood", "પૂર");
      ("fire", "આગ");
      ("storm", "વાવાઝોડું");
      ("critical", "ગંભીર");
      ("warning", "ચેતવણી");
      ("info", "માહિતી");
      ("magnitude", "તીવ્રતા");
      ("immediately", "તાત્કાલિક");
      ("evacuate", "ખાલી કરો");
      ("take shelter", "આશ્રય લો");
      ("avoid", "ટાળો");
      ("emergency", "કટોકટી") ]);
  ("or",
    [ ("earthquake", "ଭୂମିକମ୍ପ");
      ("flood", "ବନ୍ୟା");
      ("fire", "ଅଗ୍ନିକାଣ୍ଡ");
      ("storm", "ଝଡ଼");
      ("critical", "ଗୁରୁତର");
      ("warning", "ସତର୍କତା");
      ("info", "ସୂଚନା");
      ("magnitude", "ପ୍ରବଳତା");
      ("immediately", "ତୁରନ୍ତ");
      ("evacuate", "ସ୍ଥାନାନ୍ତର");
      ("take shelter", "ଆଶ୍ରୟ ନିଅନ୍ତୁ");
      ("avoid", "ଏଡ଼ାନ୍ତୁ");
      ("emergency", "ଜରୁରୀକାଳୀନ") ]) ].

(** [text.replace(new RegExp(key, 'gi'), translated)] for a key of plain
    letters and spaces: every occurrence of the key, ignoring the case of
    ASCII letters, from left to right and without overlap. [skip] counts the
    characters of an occurrence still to pass. *)
Fixpoint prefix_ci (key text : string) : bool :=
  match key with
  | EmptyString => true
  | String a key' =>
      match text with
      | EmptyString => false
      | String b text' =>
          if Ascii.eqb (JS.lower_ascii a) (JS.lower_ascii b) then prefix_ci key' text'
          else false
      end
  end.

Fixpoint replace_from (key translated : string) (skip : nat) (text : string) : string :=
  match text with
  | EmptyString => EmptyString
  | String c rest =>
      match skip with
      | S k => replace_from key translated k rest
      | O =>
          if prefix_ci key text
          then translated +:+ replace_from key translated (String.length key - 1) rest
          else String c (replace_from key translated 0 rest)
      end
  end.

Definition replace_all (key translated text : string) : string :=
  replace_from key translated 0 text.

(** [getEmergencyInstructions]: after its table, the body reads
    [emergencyInstructions], a name that is bound nowhere in its scope (it is
    a local constant of [translateAlert]); evaluating it throws. *)
Definition not_defined (name : string) : JS.Error :=
  JS.mkError "ReferenceError" (name +:+ " is not defined").

Definition getEmergencyInstructions (alertType language : string)
    : JS.Error + string :=
  inl (not_defined "emergencyInstructions").

(** [translateAlert]: the dictionary of the target language is applied to the
    title and the description, then the instructions are asked for. *)
Definition translateAlert (alert : Types.Alert) (targetLanguage : string)
    : JS.Error + Types.Localized :=
  let translations :=
    match read emergencyTranslations targetLanguage with
    | JS.Own d => d
    | _ => []
    end in
  let translatedTitle :=
    foldl (λ text entry, replace_all entry.1 entry.2 text)
          (Types.title alert) translations in
  let translatedDescription :=
    foldl (λ text entry, replace_all entry.1 entry.2 text)
          (Types.description alert) translations in
  match getEmergencyInstructions (Types.alertType_string (Types.type alert))
          targetLanguage with
  | inl e => inl e
  | inr emergencyInstructions =>
      inr (Types.mkLocalized translatedTitle
             (if String.eqb emergencyInstructions "" then translatedDescription
              else translatedDescription +:+ " " +:+ emergencyInstructions))
  end.

(** The loop of [generateMultilingualContent] over the supported languages. *)
Fixpoint translate_into (alert : Types.Alert) (supported : list Language)
    (languages : gmap string Types.Localized)
    : JS.Error + gmap string Types.Localized :=
  match supported with
  | [] => inr languages
  | language :: rest =>
      if String.eqb (code language) "en" then
        translate_into alert rest
          (<[ code language :=
                Types.mkLocalized (Types.title alert) (Types.description alert) ]>
             languages)
      else
        match translateAlert alert (code language) with
        | inl e => inl e
        | inr translated =>
            translate_into alert rest (<[ code language := translated ]> languages)
        end
  end.

Definition generateMultilingualContent (supportedLanguages : list Language)
    (alert : Types.Alert) : JS.Error + Types.Alert :=
  match translate_into alert supportedLanguages ∅ with
  | inl e => inl e
  | inr languages =>
      inr (Types.mkAlert (Types.alert_id alert) (Types.title alert)
             (Types.description alert) (Types.severity alert) (Types.type alert)
             (Types.location alert) (Types.coordinates alert)
             (Types.timestamp alert) (Types.source alert) (Types.magnitude alert)
             languages (Types.isActive alert))
  end.

(** An alert with the names of the cities of its three zones. *)
Record ProcessedAlert := mkProcessed {
  processed : Types.Alert;
  zones_immediate : list string;
  zones_nearby : list string;
  zones_regional : list string
}.

Section Processing.
Context `{LocationService.MathLib} {casing : JS.Casing}.
Variable indianStates : list LocationService.IndianState.
Variable supportedLanguages : list Language.

(** The loop of [processGovernmentData] over the alerts the sources were
    parsed into; [alerts] is the array filled so far. *)
Fixpoint processAlerts (processedAlerts : list Types.Alert)
    (alerts : list ProcessedAlert) : JS.Error + list ProcessedAlert :=
  match processedAlerts with
  | [] => inr alerts
  | alert :: rest =>
      match extractCoordinates indianStates alert with
      | Some coordinates =>
          let zones := LocationService.getAlertZones coordinates in
          match generateMultilingualContent supportedLanguages alert with
          | inl e => inl e
          | inr multilingualAlert =>
              processAlerts rest
                (alerts ++
                 [ mkProcessed
                     (EnhancedAlertService.with_coordinates multilingualAlert coordinates)
                     (map LocationService.city (LocationService.immediate zones))
                     (map LocationService.city (LocationService.nearby zones))
                     (map LocationService.city (LocationService.regional zones)) ])
          end
      | None => processAlerts rest alerts
      end
  end.
End Processing.

End NLPAlertProcessor.

(** ** Values to run the model on *)

Module Examples.

(** A content generator that returns the alert as it is. *)
Definition plain_services : EnhancedAlertService.Services :=
  {| EnhancedAlertService.generateMultilingualContent := λ a, inr a;
     EnhancedAlertService.number_toString :=
       SendEmergencyAlert.number_toString (Host := SendEmergencyAlert.plain_host) |}.

Definition flood_at (location : string)
    (coordinates : option LocationService.LocationCoordinates) : Types.Alert :=
  Types.mkAlert "a-1" "Flood warning" "River level rising" Types.critical
    Types.flood location coordinates "2025-01-01T00:00:00Z" "IMD" None ∅ true.

(** A flood at Chennai's own coordinates, one whose coordinates are not
    numbers, and one at a place the catalog does not know. *)
Definition chennai_flood : Types.Alert :=
  flood_at "Chennai"
    (Some (LocationService.coordinates LocationService.chennai)).

Definition lost_flood : Types.Alert :=
  flood_at "Chennai" (Some LocationService.nowhere).

Definition atlantis_flood : Types.Alert := flood_at "Atlantis" None.

(** The directory with one profile in Chennai, subscribed to both channels. *)
Definition chennai_profile : EnhancedAlertService.Profile :=
  EnhancedAlertService.mkProfile "p-1" "u-1" "Asha" (Some "Chennai")
    (Some "Tamil Nadu")
    (Some "asha@example.org")
    [ EnhancedAlertService.mkSubscription true true
        [ "critical"; "warning" ] [ "flood" ] ].

Definition directory : EnhancedAlertService.QueryResult :=
  EnhancedAlertService.QueryData (Some [ chennai_profile ]).

(** The request of the immediate zone of the flood at Chennai. *)
Definition chennai_request : EnhancedAlertService.EdgeRequest :=
  EnhancedAlertService.mkEdgeRequest
    [ EnhancedAlertService.mkFormatted (Some "asha@example.org") None "en" ]
    chennai_flood EnhancedAlertService.immediate 5%float.

(** A table with one state. *)
Definition kerala : LocationService.IndianState :=
  LocationService.mkIndianState "Kerala" "KL" "Thiruvananthapuram" "South".

(** A subscriber of the alert service who gave an address and nothing else. *)
Definition asha : list AlertService.Subscriber :=
  AlertService.subscribe [] (Some "asha@example.org") None None.

(** The content generator of the repository, for a list of supported
    languages. *)
Definition repository_services (supportedLanguages : list NLPAlertProcessor.Language)
    : EnhancedAlertService.Services :=
  {| EnhancedAlertService.generateMultilingualContent :=
       NLPAlertProcessor.generateMultilingualContent supportedLanguages;
     EnhancedAlertService.number_toString :=
       SendEmergencyAlert.number_toString (Host := SendEmergencyAlert.plain_host) |}.

Definition english_and_hindi : list NLPAlertProcessor.Language :=
  [ NLPAlertProcessor.mkLanguage "en" "English" "English" "GB";
    NLPAlertProcessor.mkLanguage "hi" "Hindi" "Hindi" "IN" ].

End Examples.

(** * Properties *)

(** ** Order of the floating-point numbers *)

Section FloatOrder.

Lemma Prim2SF_nan_iff (d : float) : Prim2SF d = S754_nan ↔ is_nan d = true.
Proof.
  unfold Prim2SF. destruct (is_nan d); [tauto|].
  split; [|discriminate].
  destruct (is_zero d); [discriminate|].
  destruct (is_infinity d); [discriminate|].
  destruct (Z.frexp d) as [r e].
  destruct (shr_fexp _ _ _ _ _) as [shr e'].
  destruct (shr_m shr); discriminate.
Qed.

Lemma SFcompare_none (x y : spec_float) :
  SFcompare x y = None ↔ x = S754_nan ∨ y = S754_nan.
Proof.
  destruct x, y; simpl; split; intros Hc; try discriminate; try tauto;
    destruct Hc; discriminate.
Qed.

Lemma SFcompare_antisym (x y : spec_float) c :
  SFcompare x y = Some c → SFcompare y x = Some (CompOpp c).
Proof.
  destruct x as [sx|sx| |sx mx ex], y as [sy|sy| |sy my ey]; simpl;
    intros Hc; try discriminate; injection Hc as <-;
    try (destruct sx; reflexivity); try (destruct sy; reflexivity);
    try (destruct sx, sy; reflexivity).
  change (PosDef.Pos.compare_cont Eq mx my) with (Pos.compare mx my).
  change (PosDef.Pos.compare_cont Eq my mx) with (Pos.compare my mx).
  rewrite (Z.compare_antisym ex ey), (Pos.compare_antisym mx my).
  destruct sx, sy; simpl; try reflexivity;
    destruct (ex ?= ey)%Z; simpl; try reflexivity;
    destruct (mx ?= my)%positive; reflexivity.
Qed.

Lemma SFleb_trans (x y z : spec_float) :
  SFleb x y = true → SFleb y z = true → SFleb x z = true.
Proof.
  unfold SFleb.
  destruct x as [sx|sx| |sx mx ex], y as [sy|sy| |sy my ey], z as [sz|sz| |sz mz ez];
    simpl; try discriminate; try reflexivity;
    repeat match goal with s : bool |- _ => destruct s end;
    simpl; try discriminate; try reflexivity;
    repeat match goal with
           | |- context [PosDef.Pos.compare_cont Eq ?a ?b] =>
               change (PosDef.Pos.compare_cont Eq a b) with (Pos.compare a b)
           end;
    destruct (Z.compare_spec ex ey), (Z.compare_spec ey ez), (Z.compare_spec ex ez);
    simpl; try discriminate; try reflexivity; try lia; subst;
    destruct (Pos.compare_spec mx my), (Pos.compare_spec my mz), (Pos.compare_spec mx mz);
    simpl; try discriminate; try reflexivity; try lia.
Qed.

Lemma leb_trans (x y z : float) :
  (x <=? y)%float = true → (y <=? z)%float = true → (x <=? z)%float = true.
Proof. rewrite !leb_spec. apply SFleb_trans. Qed.

Lemma leb_not_nan (d a : float) : (d <=? a)%float = true → is_nan d = false.
Proof.
  rewrite leb_spec. unfold SFleb. intros Hle.
  destruct (is_nan d) eqn:Hn; [|reflexivity].
  apply Prim2SF_nan_iff in Hn. rewrite Hn in Hle. discriminate.
Qed.

Lemma ltb_not_nan (d a : float) : (a <? d)%float = true → is_nan d = false.
Proof.
  rewrite ltb_spec. unfold SFltb. intros Hlt.
  destruct (is_nan d) eqn:Hn; [|reflexivity].
  apply Prim2SF_nan_iff in Hn. rewrite Hn in Hlt.
  destruct (Prim2SF a); discriminate.
Qed.

(** Where [d <= a] fails, either [a < d] or [d] is NaN. *)
Lemma not_leb_iff (d a : float) :
  is_nan a = false →
  (d <=? a)%float = false ↔ (a <? d)%float = true ∨ is_nan d = true.
Proof.
  intros Ha. rewrite leb_spec, ltb_spec. unfold SFleb, SFltb.
  destruct (SFcompare (Prim2SF d) (Prim2SF a)) as [c|] eqn:Hc.
  - rewrite (SFcompare_antisym _ _ _ Hc).
    assert (is_nan d = false) as ->.
    { destruct (is_nan d) eqn:Hn; [|reflexivity].
      apply Prim2SF_nan_iff in Hn. rewrite Hn in Hc. discriminate. }
    destruct c; simpl; split; intros Hx; try discriminate; try tauto;
      destruct Hx as [Hx|Hx]; discriminate.
  - apply SFcompare_none in Hc as [Hd|Hd].
    + apply Prim2SF_nan_iff in Hd. rewrite Hd. tauto.
    + apply Prim2SF_nan_iff in Hd. congruence.
Qed.

Lemma ltb_iff (d a : float) :
  is_nan a = false →
  (a <? d)%float = true ↔ (d <=? a)%float = false ∧ is_nan d = false.
Proof.
  intros Ha. pose proof (not_leb_iff d a Ha) as Hn.
  pose proof (ltb_not_nan d a) as Hl.
  destruct (d <=? a)%float, (a <? d)%float, (is_nan d); intuition congruence.
Qed.

Lemma mul_nan_l (v : float) : (nan * v)%float = nan.
Proof. apply Prim2SF_inj. rewrite mul_spec. reflexivity. Qed.

End FloatOrder.

(** ** Geo classifier *)

Section GeoClassifier.
Import LocationService.
Context `{MathLib}.

Implicit Types (c : LocationInfo) (cities : list LocationInfo)
               (epicenter : LocationCoordinates).

Lemma elem_of_List_filter {A} (p : A → bool) (x : A) (l : list A) :
  x ∈ List.filter p l ↔ x ∈ l ∧ p x = true.
Proof. rewrite !list_elem_of_In. apply filter_In. Qed.

(** The loop fills each bucket with the catalog entries of its band, in
    catalog order. *)
Lemma push_city_fold cities epicenter z :
  foldl (push_city epicenter) z cities =
    mkAlertZones (immediate z ++ List.filter (band1 epicenter) cities)
                 (nearby z ++ List.filter (band2 epicenter) cities)
                 (regional z ++ List.filter (band3 epicenter) cities).
Proof.
  revert z. induction cities as [|c cities IH]; intros z; simpl.
  - rewrite !app_nil_r. by destruct z.
  - rewrite IH. unfold push_city, band1, band2, band3.
    destruct (calculateDistance epicenter (coordinates c) <=? 5)%float; simpl.
    { by rewrite <- app_assoc. }
    destruct (calculateDistance epicenter (coordinates c) <=? 25)%float; simpl.
    { by rewrite <- app_assoc. }
    destruct (calculateDistance epicenter (coordinates c) <=? 100)%float; simpl.
    { by rewrite <- app_assoc. }
    done.
Qed.

Lemma getAlertZones_of_filter cities epicenter :
  getAlertZones_of cities epicenter =
    mkAlertZones (List.filter (band1 epicenter) cities)
                 (List.filter (band2 epicenter) cities)
                 (List.filter (band3 epicenter) cities).
Proof. unfold getAlertZones_of. by rewrite push_city_fold. Qed.

(** The bands of every catalog entry, whatever its distance: an entry whose
    distance is not a number fails all three tests. *)
Lemma getAlertZones_tests epicenter c :
  c ∈ getMajorIndianCities →
  let d := calculateDistance epicenter (coordinates c) in
  let z := getAlertZones epicenter in
  (c ∈ immediate z ↔ at_most d 5) ∧
  (c ∈ nearby z ↔ more_than d 5 ∧ at_most d 25) ∧
  (c ∈ regional z ↔ more_than d 25 ∧ at_most d 100) ∧
  (in_no_zone z c ↔ more_than d 100 ∨ not_a_number d).
Proof.
  intros Hc d z. subst z. unfold getAlertZones, in_no_zone.
  rewrite getAlertZones_of_filter. cbn [immediate nearby regional].
  rewrite !elem_of_List_filter. unfold band1, band2, band3. fold d.
  unfold at_most, more_than, not_a_number.
  rewrite (ltb_iff d 5 eq_refl), (ltb_iff d 25 eq_refl), (ltb_iff d 100 eq_refl).
  pose proof (λ h, leb_trans d 5 25 h eq_refl) as T1.
  pose proof (λ h, leb_trans d 25 100 h eq_refl) as T2.
  pose proof (leb_not_nan d 100) as NN.
  destruct (d <=? 5)%float, (d <=? 25)%float, (d <=? 100)%float, (is_nan d);
    simpl; intuition congruence.
Qed.


Lemma chennai_in_catalog : chennai ∈ getMajorIndianCities.
Proof. unfold getMajorIndianCities, chennai. do 3 apply list_elem_of_further. apply list_elem_of_here. Qed.
End GeoClassifier.


(** ** Severity policy *)

Section SeverityPolicy.
Import EnhancedAlertService.
Context `{LocationService.MathLib}.

Lemma nonempty_iff {A} (xs : list A) : nonempty xs = true ↔ xs ≠ [].
Proof. destruct xs; simpl; split; congruence. Qed.

(** The zone list, zone by zone. *)
Lemma defineAlertZones_unfold
    (alertCoordinates : LocationService.LocationCoordinates) (s : Types.Severity) :
  let b := LocationService.getAlertZones alertCoordinates in
  defineAlertZones alertCoordinates s =
    (if nonempty (LocationService.immediate b)
     then [ mkAlertZone immediate s
              (map LocationService.city (LocationService.immediate b)) 5%float ]
     else []) ++
    (if nonempty (LocationService.nearby b)
     then [ mkAlertZone nearby (reduceSeverity s)
              (map LocationService.city (LocationService.nearby b)) 25%float ]
     else []) ++
    (if bool_decide (s = Types.critical) && nonempty (LocationService.regional b)
     then [ mkAlertZone regional Types.info
              (map LocationService.city (LocationService.regional b)) 100%float ]
     else []).
Proof.
  intros b. unfold defineAlertZones. fold b.
  by destruct (nonempty (LocationService.immediate b)),
              (nonempty (LocationService.nearby b)),
              (bool_decide (s = Types.critical) && nonempty (LocationService.regional b)).
Qed.

(** Case analysis on the membership of a zone in the zone list. *)
Ltac in_zones Hz :=
  rewrite !elem_of_app in Hz;
  repeat match type of Hz with
         | _ ∨ _ => destruct Hz as [Hz|Hz]
         end;
  repeat match type of Hz with
         | _ ∈ (if ?c then _ else _) => destruct c eqn:?
         end;
  repeat match type of Hz with
         | _ ∈ [] => by apply elem_of_nil in Hz
         | _ ∈ [_] => apply list_elem_of_singleton in Hz as ->
         end.

(** C3. For every original severity [s], every zone built for an alert has:
    severity [s] when it is the immediate zone, one degradation step of [s]
    when it is the nearby zone (critical to warning, warning to info, info
    stays info), and severity info when it is the regional zone, which exists
    only when [s] is critical (and some catalog entry is in the regional
    band). *)
Theorem defineAlertZones_severity
    (alertCoordinates : LocationService.LocationCoordinates) (s : Types.Severity) :
  let zones := defineAlertZones alertCoordinates s in
  Forall (λ z, match type z with
               | immediate => severity z = s
               | nearby => severity z = reduceSeverity s
               | regional => s = Types.critical ∧ severity z = Types.info
               end) zones ∧
  reduceSeverity Types.critical = Types.warning ∧
  reduceSeverity Types.warning = Types.info ∧
  reduceSeverity Types.info = Types.info ∧
  ((∃ z, z ∈ zones ∧ type z = regional) ↔
     s = Types.critical ∧
     LocationService.regional (LocationService.getAlertZones alertCoordinates) ≠ []) ∧
  ((∃ z, z ∈ zones ∧ type z = immediate) ↔
     LocationService.immediate (LocationService.getAlertZones alertCoordinates) ≠ []) ∧
  ((∃ z, z ∈ zones ∧ type z = nearby) ↔
     LocationService.nearby (LocationService.getAlertZones alertCoordinates) ≠ []).
Proof.
  intros zones. subst zones.
  rewrite defineAlertZones_unfold, <- !nonempty_iff. cbv zeta.
  generalize (LocationService.getAlertZones alertCoordinates). intros b.
  split; [|split; [done|split; [done|split; [done|]]]].
  - repeat (apply Forall_app; split);
      repeat case_match; repeat constructor; simpl; try done.
    by destruct s.
  - split; [|split]; (split; [intros (z & Hz & Ht)|]).
    + in_zones Hz; try discriminate Ht.
      match goal with Hc : _ && _ = true |- _ => apply andb_true_iff in Hc as [Hs Hr] end.
      by apply bool_decide_eq_true in Hs.
    + intros [-> Hr]. rewrite Hr. eexists. split; [|].
      { rewrite !elem_of_app. right. right. simpl. apply list_elem_of_here. }
      reflexivity.
    + in_zones Hz; try discriminate Ht. done.
    + intros Hr. rewrite Hr. eexists. split; [|].
      { rewrite !elem_of_app. left. apply list_elem_of_here. }
      reflexivity.
    + in_zones Hz; try discriminate Ht. done.
    + intros Hr. rewrite Hr. eexists. split; [|].
      { rewrite !elem_of_app. right. left. apply list_elem_of_here. }
      reflexivity.
Qed.

End SeverityPolicy.

(** ** Subscriber filter *)

Section SubscriberFilter.
Import EnhancedAlertService.
Context {casing : JS.Casing}.

Lemma append_cons (c : ascii) (s t : string) :
  String c s +:+ t = String c (s +:+ t).
Proof. reflexivity. Qed.

Lemma append_empty (t : string) : "" +:+ t = t.
Proof. reflexivity. Qed.

Lemma prefix_append (n h : string) :
  String.prefix n h = true ↔ ∃ after, h = n +:+ after.
Proof.
  revert h. induction n as [|a n IH]; intros h.
  - split; [intros _; by exists h | by destruct h].
  - destruct h as [|b h]; simpl.
    + split; [done | intros [after Habs]; discriminate].
    + destruct (Ascii.ascii_dec a b) as [->|Hne].
      * rewrite IH. split; intros [after Heq]; exists after;
          rewrite append_cons in *; congruence.
      * split; [done | intros [after Heq]; rewrite append_cons in Heq; congruence].
Qed.

(** [includes] decides whether the needle is a substring. *)
Lemma includes_substring (hay needle : string) :
  JS.includes hay needle = true ↔ is_substring needle hay.
Proof.
  unfold is_substring. induction hay as [|c hay IH]; cbn [JS.includes].
  - rewrite orb_false_r, prefix_append. split.
    + intros [after Heq]. by exists "", after.
    + intros ([|b before] & after & Heq).
      * rewrite append_empty in Heq. by exists after.
      * rewrite append_cons in Heq. discriminate.
  - rewrite orb_true_iff, prefix_append, IH. split.
    + intros [[after Heq] | (before & after & Heq)].
      * by exists "", after.
      * exists (String c before), after. by rewrite append_cons, Heq.
    + intros ([|b before] & after & Heq).
      * rewrite append_empty in Heq. left. by exists after.
      * rewrite append_cons in Heq. right. exists before, after. congruence.
Qed.

Lemma array_includes_elem_of (xs : list string) (x : string) :
  array_includes xs x = true ↔ x ∈ xs.
Proof.
  unfold array_includes. rewrite existsb_exists. split.
  - intros (y & Hy & Heq). apply String.eqb_eq in Heq as ->. by apply list_elem_of_In.
  - intros Hx. exists x. split; [by apply list_elem_of_In | apply String.eqb_refl].
Qed.

Lemma truthy_has_address (a : option string) :
  JS.truthy a = true ↔ has_address a.
Proof.
  unfold has_address. destruct a as [s|]; simpl.
  - rewrite negb_true_iff, String.eqb_neq. split.
    + intros Hs. by exists s.
    + intros (s' & [= <-] & Hs). done.
  - split; [done | intros (s & Hs & _); discriminate].
Qed.

Lemma isInZone_location_matches (zone : AlertZone) (subscriber : Subscriber) :
  isInZone zone subscriber = true ↔ location_matches zone subscriber.
Proof.
  unfold isInZone, location_matches. rewrite existsb_exists.
  split; intros (c & Hc & Hm); exists c.
  - rewrite orb_true_iff, !includes_substring in Hm.
    split; [by apply list_elem_of_In | done].
  - rewrite orb_true_iff, !includes_substring.
    split; [by apply list_elem_of_In | done].
Qed.

Lemma included_iff (originalAlert : Types.Alert) (zone : AlertZone)
    (subscriber : Subscriber) :
  included originalAlert zone subscriber = true ↔
    location_matches zone subscriber ∧ wants_severity zone subscriber ∧
    wants_type originalAlert subscriber ∧ reachable subscriber.
Proof.
  unfold included, inZoneAndWanted, wants_severity, wants_type, reachable.
  rewrite <- isInZone_location_matches, <- !array_includes_elem_of,
    <- !truthy_has_address.
  unfold formatRecipient; simpl.
  destruct (isInZone zone subscriber),
    (array_includes (severityLevels (preferences subscriber)) _),
    (array_includes (alertTypes (preferences subscriber)) _),
    (emailAlerts (preferences subscriber)), (smsAlerts (preferences subscriber)),
    (JS.truthy (email subscriber)), (JS.truthy (phone subscriber));
    simpl; intuition congruence.
Qed.

Lemma filter_map_commute {A B} (f : A → B) (p : B → bool) (l : list A) :
  List.filter p (map f l) = map f (List.filter (λ x, p (f x)) l).
Proof.
  induction l as [|x l IH]; simpl; [done|].
  destruct (p (f x)); simpl; by rewrite IH.
Qed.

Lemma filter_filter_and {A} (p q : A → bool) (l : list A) :
  List.filter q (List.filter p l) = List.filter (λ x, p x && q x) l.
Proof.
  induction l as [|x l IH]; simpl; [done|].
  destruct (p x); simpl; [destruct (q x)|]; by rewrite IH.
Qed.

Lemma zoneRecipients_included (originalAlert : Types.Alert) (zone : AlertZone)
    (subscribers : list Subscriber) :
  zoneRecipients originalAlert zone subscribers =
    map formatRecipient (List.filter (included originalAlert zone) subscribers).
Proof.
  unfold zoneRecipients, formattedRecipients, zoneSubscribers.
  by rewrite filter_map_commute, filter_filter_and.
Qed.

Context `{Services}.

Lemma targetedAlerts_from_returns (originalAlert : Types.Alert)
    (subscribers : list Subscriber) (zones : list AlertZone)
    (acc batches : list TargetedAlert) :
  targetedAlerts_from originalAlert subscribers zones acc = inr batches →
  ∃ new, batches = acc ++ new ∧
    Forall2 (batch_of originalAlert subscribers) new
      (List.filter (λ z, nonempty (zoneSubscribers originalAlert z subscribers)) zones).
Proof.
  revert acc. induction zones as [|z zones IH]; intros acc; simpl.
  - intros [= <-]. exists []. by rewrite app_nil_r.
  - destruct (nonempty (zoneSubscribers originalAlert z subscribers)); simpl; [|apply IH].
    destruct (createZoneSpecificAlert originalAlert z) as [e|zoneAlert] eqn:Hz; [done|].
    intros (new & -> & Hnew)%IH.
    exists (mkTargeted zoneAlert (zoneSubscribers originalAlert z subscribers) z :: new).
    split; [by rewrite <- app_assoc|]. by constructor.
Qed.

Lemma targetedAlerts_from_rejects (originalAlert : Types.Alert)
    (subscribers : list Subscriber) (zones : list AlertZone)
    (acc : list TargetedAlert) (e : JS.Error) :
  targetedAlerts_from originalAlert subscribers zones acc = inl e →
  ∃ z, z ∈ zones ∧ zoneSubscribers originalAlert z subscribers ≠ [] ∧
       createZoneSpecificAlert originalAlert z = inl e.
Proof.
  revert acc. induction zones as [|z zones IH]; intros acc; simpl; [done|].
  destruct (nonempty (zoneSubscribers originalAlert z subscribers)) eqn:Hs; simpl.
  - destruct (createZoneSpecificAlert originalAlert z) as [e'|zoneAlert] eqn:Hz.
    + intros [= <-]. exists z. split; [left|]. split; [|done].
      by destruct (zoneSubscribers originalAlert z subscribers).
    + intros (z' & ? & ? & ?)%IH. exists z'. split; [by right|done].
  - intros (z' & ? & ? & ?)%IH. exists z'. split; [by right|done].
Qed.

Lemma createTargetedAlerts_returns (originalAlert : Types.Alert)
    (zones : list AlertZone) (subscribers : list Subscriber)
    (batches : list TargetedAlert) :
  createTargetedAlerts originalAlert zones subscribers = inr batches →
  Forall2 (batch_of originalAlert subscribers) batches
    (List.filter (λ z, nonempty (zoneSubscribers originalAlert z subscribers)) zones).
Proof. unfold createTargetedAlerts. by intros (new & -> & Hnew)%targetedAlerts_from_returns. Qed.

Lemma formatted_kept (rs : list Subscriber) (subscriber : Subscriber) :
  subscriber ∈ rs →
  (formatRecipient subscriber ∈ formattedRecipients rs ↔
   JS.truthy (r_email (formatRecipient subscriber)) ||
   JS.truthy (r_phone (formatRecipient subscriber)) = true).
Proof.
  intros Hs. unfold formattedRecipients. rewrite elem_of_List_filter.
  split; [by intros [_ ?]|]. intros Ha. split; [|done].
  apply list_elem_of_fmap. by exists subscriber.
Qed.

Lemma zoneSubscribers_elem (originalAlert : Types.Alert) (z : AlertZone)
    (subscribers : list Subscriber) (subscriber : Subscriber) :
  subscriber ∈ zoneSubscribers originalAlert z subscribers ↔
  subscriber ∈ subscribers ∧ inZoneAndWanted originalAlert z subscriber = true.
Proof. apply elem_of_List_filter. Qed.

(** A batch and the request made of it. *)
Lemma notificationRequest_Some (t : TargetedAlert) (r : EdgeRequest) :
  notificationRequest t = Some r ↔
  formattedRecipients (recipients t) ≠ [] ∧
  r = mkEdgeRequest (formattedRecipients (recipients t)) (alert t)
        (type (zone t)) (radius (zone t)).
Proof.
  unfold notificationRequest. cbv zeta.
  destruct (formattedRecipients (recipients t)) as [|x xs]; simpl.
  - split; [done|by intros [? _]].
  - split; [by intros [= <-]|by intros [_ ->]].
Qed.


End SubscriberFilter.


(** ** Delivery dispatcher *)

(** *** Settling *)

Section Settling.
Import SendEmergencyAlert.

Implicit Types (tasks : list SendOp) (completion : list nat)
               (slots : list (option Settled)) (results : list Settled).

Lemma settle_step_length tasks slots i :
  length (match tasks !! i with
          | Some t => <[ i := Some (outcome t) ]> slots
          | None => slots
          end) = length slots.
Proof. destruct (tasks !! i); [apply length_insert | done]. Qed.

(** A slot only ever holds the outcome of its own task. *)
Lemma settle_slots_sound tasks completion slots0 :
  (∀ i r, slots0 !! i = Some (Some r) → outcome <$> tasks !! i = Some r) →
  ∀ i r,
    foldl (λ slots i, match tasks !! i with
                      | Some t => <[ i := Some (outcome t) ]> slots
                      | None => slots
                      end) slots0 completion !! i = Some (Some r) →
    outcome <$> tasks !! i = Some r.
Proof.
  revert slots0. induction completion as [|j completion IH]; intros slots0 H0; simpl.
  - exact H0.
  - apply IH. intros i r. destruct (tasks !! j) as [t|] eqn:Ht; [|apply H0].
    destruct (decide (j = i)) as [->|Hne].
    + intros Hi. destruct (decide (i < length slots0)) as [Hlt|Hge].
      * rewrite list_lookup_insert_eq in Hi by done. rewrite Ht. simpl. congruence.
      * rewrite list_insert_ge in Hi by lia. by apply H0.
    + rewrite list_lookup_insert_ne by done. apply H0.
Qed.

Lemma settle_slots_length tasks completion slots0 :
  length (foldl (λ slots i, match tasks !! i with
                            | Some t => <[ i := Some (outcome t) ]> slots
                            | None => slots
                            end) slots0 completion) = length slots0.
Proof.
  revert slots0. induction completion as [|j completion IH]; intros slots0; simpl.
  - done.
  - rewrite IH. apply settle_step_length.
Qed.

(** A filled slot stays filled, and the slot of a task that settles is
    filled. *)
Lemma settle_slots_filled tasks completion slots0 i :
  length slots0 = length tasks →
  i < length tasks →
  i ∈ completion ∨ (∃ r, slots0 !! i = Some (Some r)) →
  ∃ r, foldl (λ slots i, match tasks !! i with
                         | Some t => <[ i := Some (outcome t) ]> slots
                         | None => slots
                         end) slots0 completion !! i = Some (Some r).
Proof.
  revert slots0. induction completion as [|j completion IH]; intros slots0 Hlen Hi Hin; simpl.
  - destruct Hin as [Hin|Hin]; [by apply elem_of_nil in Hin | done].
  - apply IH; [by rewrite settle_step_length | done |].
    destruct (decide (j = i)) as [->|Hne].
    + right. destruct (lookup_lt_is_Some_2 tasks i Hi) as [t Ht]. rewrite Ht.
      exists (outcome t). apply list_lookup_insert_eq. lia.
    + destruct Hin as [Hin|[r Hr]].
      * apply elem_of_cons in Hin as [->|Hin]; [done | by left].
      * right. exists r. destruct (tasks !! j); [|done].
        by rewrite list_lookup_insert_ne.
Qed.

(** What [Promise.allSettled] hands over is the outcome of every task, in the
    order of the tasks, whatever the order in which they settled. *)
Lemma allSettled_outcomes tasks completion results :
  allSettled tasks completion = Some results →
  results = map outcome tasks.
Proof.
  unfold allSettled, settle_slots. intros Hm.
  apply mapM_Some in Hm.
  assert (length results = length tasks) as Hlen.
  { rewrite <- (Forall2_length _ _ _ Hm), settle_slots_length. apply length_replicate. }
  apply list_eq. intros i. rewrite list_lookup_fmap.
  destruct (results !! i) as [r|] eqn:Hr.
  - destruct (Forall2_lookup_r _ _ _ _ _ Hm Hr) as (slot & Hslot & ->).
    symmetry. eapply settle_slots_sound; [|exact Hslot].
    intros j r' Hj. apply lookup_replicate in Hj as [? _]. done.
  - apply lookup_ge_None in Hr. rewrite lookup_ge_None_2 by lia. done.
Qed.

(** Once every task has settled the array is handed over. *)
Lemma allSettled_complete tasks completion :
  (∀ i, i < length tasks → i ∈ completion) →
  allSettled tasks completion = Some (map outcome tasks).
Proof.
  intros Hall. unfold allSettled.
  destruct (mapM (λ slot, slot) (settle_slots tasks completion)) as [results|] eqn:Hm.
  - f_equal. by eapply allSettled_outcomes.
  - exfalso. apply eq_None_not_Some in Hm. apply Hm.
    apply mapM_is_Some. apply Forall_lookup. intros i slot Hslot.
    assert (i < length tasks) as Hi.
    { apply lookup_lt_Some in Hslot. unfold settle_slots in Hslot.
      by rewrite settle_slots_length, length_replicate in Hslot. }
    destruct (settle_slots_filled tasks completion (replicate (length tasks) None) i)
      as [r Hr]; [apply length_replicate | done | left; by apply Hall |].
    unfold settle_slots in Hslot. rewrite Hr in Hslot. injection Hslot as <-.
    by exists r.
Qed.

End Settling.

(** *** The loop over the recipients *)

Section Loop.
Import SendEmergencyAlert.
Context `{Host}.
Variable network : nat → FetchRequest → FetchResult.
Variable env : Env.

Implicit Types (alert : Alert) (st : Loop) (r : Recipient)
               (recipients : list Recipient).

Lemma sendEnhancedSMS_no_timer net phone alert language sid token from :
  Forall (λ e, is_timer e = false)
    (on_issue (sendEnhancedSMS net phone alert language sid token from) ++
     on_settle (sendEnhancedSMS net phone alert language sid token from)).
Proof.
  unfold sendEnhancedSMS.
  destruct (net _) as [e|status statusText text]; simpl.
  - by repeat constructor.
  - destruct (response_ok status); simpl; by repeat constructor.
Qed.

(** One pass of the loop body. *)
Lemma process_recipient_appends alert st r :
  let st' := process_recipient network env alert st r in
  deliveryMeta st' = deliveryMeta st ++ metas_of env r ∧
  earlyErrors st' = earlyErrors st ++ gated_of env r ∧
  ∃ ops, deliveryTasks st' = deliveryTasks st ++ ops ∧
         Forall2 (issued_as env) ops (metas_of env r).
Proof.
  unfold process_recipient, metas_of, gated_of, lang_of.
  destruct (JS.truthy (phone r)), (smsEnabled env) eqn:Hsms,
           (JS.truthy (email r)), (emailEnabled env) eqn:Heml; simpl;
    rewrite ?app_nil_r, <- ?app_assoc; simpl;
    (split; [reflexivity|]); (split; [reflexivity|]);
    eexists; (split; [reflexivity || (symmetry; apply app_nil_r)|]);
    repeat constructor; try done;
    try apply sendEnhancedSMS_no_timer.
Qed.

Lemma process_recipients_from alert recipients st :
  Forall2 (issued_as env) (deliveryTasks st) (deliveryMeta st) →
  let st' := foldl (process_recipient network env alert) st recipients in
  deliveryMeta st' = deliveryMeta st ++ flat_map (metas_of env) recipients ∧
  earlyErrors st' = earlyErrors st ++ flat_map (gated_of env) recipients ∧
  Forall2 (issued_as env) (deliveryTasks st') (deliveryMeta st').
Proof.
  revert st. induction recipients as [|r recipients IH]; intros st Hst; simpl.
  - by rewrite !app_nil_r.
  - destruct (process_recipient_appends alert st r) as (Hm & He & ops & Ht & Hops).
    destruct (IH (process_recipient network env alert st r)) as (Hm' & He' & Hall).
    { rewrite Hm, Ht. by apply Forall2_app. }
    split; [|split]; [| |exact Hall].
    + by rewrite Hm', Hm, <- app_assoc.
    + by rewrite He', He, <- app_assoc.
Qed.

(** The three arrays after the loop. *)
Lemma process_recipients_arrays alert recipients :
  let st := process_recipients network env alert recipients in
  deliveryMeta st = flat_map (metas_of env) recipients ∧
  earlyErrors st = flat_map (gated_of env) recipients ∧
  Forall2 (issued_as env) (deliveryTasks st) (deliveryMeta st).
Proof.
  apply (process_recipients_from alert recipients (mkLoop [] [] [])). constructor.
Qed.

(** The send operation recorded with an Email entry of [deliveryMeta] is the
    call of [sendEnhancedEmail] with that entry's address and language. *)
Lemma process_recipients_email alert recipients :
  let st := process_recipients network env alert recipients in
  Forall2 (λ t m, m_channel m = Email →
             t = sendEnhancedEmail (m_recipient m) alert (m_language m)
                   (sure (SMTP_HOST env)) (sure (SMTP_USER env))
                   (sure (SMTP_PASS env)) (sure (FROM_EMAIL env)) (smtpPort env))
          (deliveryTasks st) (deliveryMeta st).
Proof.
  unfold process_recipients.
  assert (Forall2 (λ t m, m_channel m = Email →
             t = sendEnhancedEmail (m_recipient m) alert (m_language m)
                   (sure (SMTP_HOST env)) (sure (SMTP_USER env))
                   (sure (SMTP_PASS env)) (sure (FROM_EMAIL env)) (smtpPort env))
            (deliveryTasks (mkLoop [] [] [])) (deliveryMeta (mkLoop [] [] [])))
    as Hst by constructor.
  revert Hst. generalize (mkLoop [] [] []).
  induction recipients as [|r recipients IH]; intros st Hst; [exact Hst|].
  cbn [foldl]. apply IH. unfold process_recipient.
  destruct (JS.truthy (phone r)), (smsEnabled env),
           (JS.truthy (email r)), (emailEnabled env); simpl;
    repeat (apply Forall2_app; [|by repeat constructor]); exact Hst.
Qed.

(** With the email gate open, the Email entries of [deliveryMeta]: one for
    each recipient that gave an email address, in submission order. *)
Lemma email_metas recipients :
  emailEnabled env = true →
  List.filter (λ m, bool_decide (m_channel m = Email))
              (flat_map (metas_of env) recipients) =
    map (λ r, mkMeta Email (sure (email r)) (lang_of r))
        (List.filter (λ r, JS.truthy (email r)) recipients).
Proof.
  intros Hon. induction recipients as [|r recipients IH]; [done|].
  cbn [flat_map List.filter]. rewrite List.filter_app, IH.
  unfold metas_of. rewrite Hon.
  by destruct (JS.truthy (phone r)), (smsEnabled env), (JS.truthy (email r)).
Qed.

Lemma fulfilled_at_least (p : Meta → bool) (tasks : list SendOp) (meta : list Meta) :
  Forall2 (λ t m, p m = true → is_fulfilled (outcome t) = true) tasks meta →
  length (List.filter p meta) ≤
    length (List.filter is_fulfilled (map outcome tasks)).
Proof.
  induction 1 as [|t m tasks meta Htm _ IH]; [done|]. cbn [map List.filter].
  destruct (p m); [rewrite Htm by done|destruct (is_fulfilled _)]; simpl; lia.
Qed.

(** The configuration failures one recipient leaves in [earlyErrors]. *)
Lemma gated_of_elem r (e : ErrorEntry) :
  e ∈ gated_of env r ↔
    (JS.truthy (phone r) = true ∧ smsEnabled env = false ∧ e = gated_sms env r) ∨
    (JS.truthy (email r) = true ∧ emailEnabled env = false ∧ e = gated_email env r).
Proof.
  unfold gated_of.
  destruct (JS.truthy (phone r)), (smsEnabled env),
           (JS.truthy (email r)), (emailEnabled env); simpl;
    rewrite ?elem_of_cons, ?elem_of_nil; intuition congruence.
Qed.

(** Every enumerated task is either issued or gated. *)
Lemma tasks_issued_or_gated recipients :
  length (flat_map (metas_of env) recipients) +
  length (flat_map (gated_of env) recipients) = attempted recipients.
Proof.
  unfold attempted, enumerate.
  induction recipients as [|r recipients IH]; simpl; [done|].
  rewrite !length_app, <- IH.
  unfold metas_of, gated_of, tasks_of.
  destruct (JS.truthy (phone r)), (smsEnabled env),
           (JS.truthy (email r)), (emailEnabled env); simpl; lia.
Qed.

End Loop.

(** *** The errors of the rejected operations *)

Section DeliveryErrors.
Import SendEmergencyAlert.

Implicit Types (meta : list Meta) (results : list Settled).

Lemma deliveryErrors_nil_r meta : deliveryErrors meta [] = [].
Proof. reflexivity. Qed.

Lemma omap_imap_none {A B} (f : nat → A → option B) (l : list A) :
  (∀ i x, f i x = None) → omap (λ x, x) (imap f l) = [].
Proof.
  revert f. induction l as [|x l IH]; intros f Hf; simpl; [done|].
  rewrite Hf. apply IH. intros i y. apply Hf.
Qed.

Lemma deliveryErrors_nil_l results : deliveryErrors [] results = [].
Proof.
  unfold deliveryErrors. apply omap_imap_none. intros i [v|e]; [done|].
  by rewrite lookup_nil.
Qed.

(** The errors pair each result with the meta entry at the same index. *)
Lemma deliveryErrors_cons m meta r results :
  deliveryErrors (m :: meta) (r :: results) =
    rejected_entry m r ++ deliveryErrors meta results.
Proof.
  unfold deliveryErrors. simpl.
  destruct r as [v|e]; simpl; reflexivity.
Qed.

Lemma deliveryErrors_length meta results :
  length meta = length results →
  length (deliveryErrors meta results) = rejected_count results.
Proof.
  unfold rejected_count.
  revert meta. induction results as [|r results IH]; intros [|m meta] Hlen;
    try discriminate; [done|].
  rewrite deliveryErrors_cons, length_app, IH by (simpl in Hlen; lia).
  by destruct r.
Qed.

Lemma settled_count results :
  length (List.filter is_fulfilled results) + rejected_count results = length results.
Proof.
  unfold rejected_count. induction results as [|[v|e] results IH]; simpl; lia.
Qed.

(** Every error entry of a rejected operation has the channel of a meta
    entry whose operation was rejected. *)
Lemma deliveryErrors_channels (P : Channel → Prop) meta results :
  Forall2 (λ m r, is_rejected r = true → P (m_channel m)) meta results →
  Forall (λ e, P (e_channel e)) (deliveryErrors meta results).
Proof.
  induction 1 as [|m r meta results Hm _ IH].
  - constructor.
  - rewrite deliveryErrors_cons. apply Forall_app. split; [|exact IH].
    destruct r as [v|e]; simpl; [constructor|].
    constructor; [by apply Hm | constructor].
Qed.

Lemma concat_imap_nil {A B} (f : nat → A → list B) (l : list A) :
  (∀ i x, f i x = []) → concat (imap f l) = [].
Proof.
  revert f. induction l as [|x l IH]; intros f Hf; simpl; [done|].
  rewrite Hf. apply IH. intros i y. apply Hf.
Qed.

(** The errors of the rejected operations are those of [transport_error],
    slot by slot. *)
Lemma deliveryErrors_slots meta results :
  deliveryErrors meta results =
    concat (imap (λ j m, transport_error results j m) meta).
Proof.
  revert results. induction meta as [|m meta IH]; intros results.
  - apply deliveryErrors_nil_l.
  - destruct results as [|r results].
    + rewrite deliveryErrors_nil_r. symmetry. apply concat_imap_nil.
      intros j m'. unfold transport_error. by rewrite lookup_nil.
    + rewrite deliveryErrors_cons, IH. reflexivity.
Qed.

(** An entry of the errors of the rejected operations: the meta entry of a
    slot whose result is a rejection, with the reason of the rejection. *)
Lemma deliveryErrors_elem meta results (e : ErrorEntry) :
  e ∈ deliveryErrors meta results ↔
  ∃ i m err, meta !! i = Some m ∧ results !! i = Some (Rejected err) ∧
             e = mkErrorEntry (m_channel m) (m_recipient m) (Some (m_language m))
                   (rejection_reason err).
Proof.
  revert results. induction meta as [|m meta IH]; intros results.
  - rewrite deliveryErrors_nil_l, elem_of_nil. split; [done|].
    intros (i & m & err & Hm & _). by rewrite lookup_nil in Hm.
  - destruct results as [|r results].
    + rewrite deliveryErrors_nil_r, elem_of_nil. split; [done|].
      intros (i & m' & err & _ & Hr & _). by rewrite lookup_nil in Hr.
    + rewrite deliveryErrors_cons, elem_of_app, IH. split.
      * intros [He|(i & m' & err & Hm & Hr & ->)].
        -- destruct r as [v|err]; simpl in He; [by apply elem_of_nil in He|].
           apply list_elem_of_singleton in He as ->. by exists 0, m, err.
        -- by exists (S i), m', err.
      * intros ([|i] & m' & err & Hm & Hr & ->); simpl in Hm, Hr.
        -- injection Hm as <-. injection Hr as ->. left. simpl. left.
        -- right. by exists i, m', err.
Qed.

End DeliveryErrors.

(** *** The handler *)

Section Handler.
Import SendEmergencyAlert.
Context `{Host}.
Variable network : nat → FetchRequest → FetchResult.
Variable env : Env.

Implicit Types (completion : list nat) (req : Request) (run : Run)
               (rep : DeliveryReport) (recipients : list Recipient) (alert : Alert).

(** A 200 response with a body is the report of a run over a request that
    has both recipients and alert, made once every send operation has
    settled. *)
Lemma handler_200 completion req run rep :
  handler network env completion req = Some run →
  response run = Status200 rep →
  ∃ recipients alert,
    let st := process_recipients network env alert recipients in
    let results := map outcome (deliveryTasks st) in
    body req = Json (Some recipients) (Some alert) ∧
    String.eqb (method req) "OPTIONS" = false ∧
    rep = report env alert st results ∧
    trace run = opening_logs env alert recipients ++
                flat_map on_issue (deliveryTasks st) ++
                settle_events (deliveryTasks st) completion ++
                closing_logs rep.
Proof.
  unfold handler. intros Hrun Hresp.
  destruct (String.eqb (method req) "OPTIONS"); [by injection Hrun as <-|].
  destruct (body req) as [e|[recipients|] [alert|]];
    try (by injection Hrun as <-).
  exists recipients, alert.
  destruct (allSettled _ completion) as [results|] eqn:Hsettled; [|done].
  apply allSettled_outcomes in Hsettled as ->.
  injection Hrun as <-. simpl in Hresp. injection Hresp as <-. done.
Qed.

(** The handler answers as soon as every send operation has settled. *)
Lemma handler_answers completion req :
  all_settle network env completion req →
  is_Some (handler network env completion req).
Proof.
  unfold all_settle, handler. intros Hall.
  destruct (String.eqb (method req) "OPTIONS"); [done|].
  destruct (body req) as [e|[recipients|] [alert|]]; try done.
  by rewrite (allSettled_complete _ completion Hall).
Qed.

(** C1. For every run of the handler that returns a report with status 200:
    sent + failed is the number of tasks enumerated (one per recipient and
    per channel whose address is given and not empty), failed is the number
    of early configuration failures plus the number of rejected send
    operations, and the errors array has exactly failed entries. *)
Theorem report_counts completion req run rep :
  handler network env completion req = Some run →
  response run = Status200 rep →
  ∃ recipients alert,
    let st := process_recipients network env alert recipients in
    body req = Json (Some recipients) (Some alert) ∧
    sent rep + failed rep = attempted recipients ∧
    failed rep = length (earlyErrors st) +
                 rejected_count (map outcome (deliveryTasks st)) ∧
    length (errors rep) = failed rep.
Proof.
  intros Hrun Hresp.
  destruct (handler_200 completion req run rep Hrun Hresp)
    as (recipients & alert & Hbody & _ & -> & _).
  exists recipients, alert. split; [exact Hbody|].
  destruct (process_recipients_arrays network env alert recipients)
    as (Hmeta & Hearly & Hops).
  pose proof (Forall2_length _ _ _ Hops) as Hlen.
  pose proof (tasks_issued_or_gated env recipients) as Hall.
  pose proof (settled_count
    (map outcome (deliveryTasks (process_recipients network env alert recipients))))
    as Hcount.
  rewrite length_map in Hcount.
  unfold report; simpl.
  rewrite !length_app, deliveryErrors_length by (by rewrite length_map).
  rewrite <- Hmeta, <- Hearly in Hall. lia.
Qed.

(** C8. A response with status 200 reports success exactly when failed is
    0, which is exactly when no recipient gave an address for a channel
    whose gate is closed and every send operation started was fulfilled. Its
    errors array itemizes the failures task by task: it holds the
    configuration failure of each phone number or email address whose
    channel is not configured, the entry of each send operation that was
    rejected, recorded with the channel, the address and the language of
    its task and the reason of the rejection, and nothing else. A response
    with status 500 has the body [{success: false, error, sent: 0,
    failed: 0}] and is returned only for a request that cannot be taken
    apart; a request with recipients and alert is answered with status 200
    whatever the outcomes of the send operations. *)
Theorem response_status completion req run :
  handler network env completion req = Some run →
  match response run with
  | Status200 rep =>
      ∃ recipients alert results,
        let st := process_recipients network env alert recipients in
        body req = Json (Some recipients) (Some alert) ∧
        allSettled (deliveryTasks st) completion = Some results ∧
        results = map outcome (deliveryTasks st) ∧
        length (deliveryMeta st) = length (deliveryTasks st) ∧
        (success rep = true ↔ failed rep = 0) ∧
        (failed rep = 0 ↔
           (∀ r, r ∈ recipients →
                 (JS.truthy (phone r) = true → smsEnabled env = true) ∧
                 (JS.truthy (email r) = true → emailEnabled env = true)) ∧
           Forall (λ t, is_fulfilled (outcome t) = true) (deliveryTasks st)) ∧
        length (errors rep) = failed rep ∧
        (∀ e, e ∈ errors rep ↔
           (∃ r, r ∈ recipients ∧ JS.truthy (phone r) = true ∧
                 smsEnabled env = false ∧ e = gated_sms env r) ∨
           (∃ r, r ∈ recipients ∧ JS.truthy (email r) = true ∧
                 emailEnabled env = false ∧ e = gated_email env r) ∨
           (∃ i m t err,
              deliveryMeta st !! i = Some m ∧ deliveryTasks st !! i = Some t ∧
              outcome t = Rejected err ∧ results !! i = Some (Rejected err) ∧
              e = mkErrorEntry (m_channel m) (m_recipient m) (Some (m_language m))
                    (rejection_reason err)))
  | Status500 f =>
      f_success f = false ∧ f_sent f = 0 ∧ f_failed f = 0 ∧
      malformed (body req)
  | Preflight => method req = "OPTIONS"
  end ∧
  (String.eqb (method req) "OPTIONS" = false → ¬ malformed (body req) →
   ∃ rep, response run = Status200 rep).
Proof.
  unfold handler. intros Hrun.
  destruct (String.eqb (method req) "OPTIONS") eqn:Hm.
  { injection Hrun as <-. simpl. split; [by apply String.eqb_eq | done]. }
  destruct (body req) as [e|[recipients|] [alert|]]; simpl;
    try (injection Hrun as <-; simpl; split; [tauto | intros _ Hn; exfalso; tauto]).
  destruct (allSettled _ completion) as [results|] eqn:Hsettled; [|done].
  injection Hrun as <-. simpl. split; [|by eexists].
  exists recipients, alert, results. cbv zeta.
  pose proof (allSettled_outcomes _ _ _ Hsettled) as Hresults.
  destruct (process_recipients_arrays network env alert recipients)
    as (Hmeta & Hearly & Hops).
  pose proof (Forall2_length _ _ _ Hops) as Hlen.
  set (st := process_recipients network env alert recipients) in *.
  assert (∀ e, e ∈ earlyErrors st ++ deliveryErrors (deliveryMeta st) results ↔
           (∃ r, r ∈ recipients ∧ JS.truthy (phone r) = true ∧
                 smsEnabled env = false ∧ e = gated_sms env r) ∨
           (∃ r, r ∈ recipients ∧ JS.truthy (email r) = true ∧
                 emailEnabled env = false ∧ e = gated_email env r) ∨
           (∃ i m t err,
              deliveryMeta st !! i = Some m ∧ deliveryTasks st !! i = Some t ∧
              outcome t = Rejected err ∧ results !! i = Some (Rejected err) ∧
              e = mkErrorEntry (m_channel m) (m_recipient m) (Some (m_language m))
                    (rejection_reason err))) as Hitems.
  { intros e. rewrite elem_of_app, Hearly, deliveryErrors_elem. split.
    - intros [He|(i & m & err & Hmi & Hr & ->)].
      + apply list_elem_of_In, in_flat_map in He as (r & Hr & He).
        apply list_elem_of_In in Hr, He. apply gated_of_elem in He as [He|He].
        * left. by exists r.
        * right. left. by exists r.
      + right. right. rewrite Hresults, list_lookup_fmap in Hr.
        destruct (deliveryTasks st !! i) as [t|] eqn:Ht; [|done].
        injection Hr as Hr. exists i, m, t, err.
        by rewrite Hresults, list_lookup_fmap, Ht; simpl; rewrite Hr.
    - intros [(r & Hr & Hp & Hoff & ->)|[(r & Hr & Hp & Hoff & ->)|
                (i & m & t & err & Hmi & Ht & Ho & Hres & ->)]].
      + left. apply list_elem_of_In, in_flat_map. exists r.
        split; [by apply list_elem_of_In|].
        apply list_elem_of_In, gated_of_elem. by left.
      + left. apply list_elem_of_In, in_flat_map. exists r.
        split; [by apply list_elem_of_In|].
        apply list_elem_of_In, gated_of_elem. by right.
      + right. by exists i, m, err. }
  split; [done|]. split; [done|]. split; [done|]. split; [done|].
  split; [apply bool_decide_eq_true|].
  split; [|split; [done|exact Hitems]].
  rewrite length_zero_iff_nil. split.
  - intros Hnil. rewrite Hnil in Hitems. split.
    + intros r Hr. split; intros Haddr.
      * destruct (smsEnabled env) eqn:Hsms; [done|]. exfalso.
        apply (not_elem_of_nil (gated_sms env r)), Hitems. left. by exists r.
      * destruct (emailEnabled env) eqn:Heml; [done|]. exfalso.
        apply (not_elem_of_nil (gated_email env r)), Hitems. right. left. by exists r.
    + apply Forall_lookup. intros i t Ht.
      destruct (outcome t) as [v|err] eqn:Ho; [done|]. exfalso.
      destruct (lookup_lt_is_Some_2 (deliveryMeta st) i) as [m Hmi].
      { rewrite <- Hlen. by eapply lookup_lt_Some. }
      apply (not_elem_of_nil
               (mkErrorEntry (m_channel m) (m_recipient m) (Some (m_language m))
                  (rejection_reason err))), Hitems.
      right. right. exists i, m, t, err.
      by rewrite Hresults, list_lookup_fmap, Ht; simpl; rewrite Ho.
  - intros [Hgates Hall].
    destruct (earlyErrors st ++ deliveryErrors (deliveryMeta st) results)
      as [|e errs] eqn:Herrs; [done|]. exfalso.
    assert (e ∈ e :: errs) as He by left.
    apply Hitems in He
      as [(r & Hr & Hp & Hoff & _)|[(r & Hr & Hp & Hoff & _)|
            (i & m & t & err & _ & Ht & Ho & _)]].
    + destruct (Hgates r Hr) as [Hs _]. rewrite (Hs Hp) in Hoff. discriminate.
    + destruct (Hgates r Hr) as [_ He]. rewrite (He Hp) in Hoff. discriminate.
    + rewrite Forall_lookup in Hall. specialize (Hall i t Ht).
      rewrite Ho in Hall. discriminate.
Qed.

(** C9. Two runs over the same recipients, alert and configuration, with the
    same answers of the provider, both return, and return the same response:
    the same counts and the same error entries in the same order, whatever
    the order in which the send operations settle. *)
Theorem response_independent_of_completion completion1 completion2 req :
  all_settle network env completion1 req →
  all_settle network env completion2 req →
  ∃ run1 run2,
    handler network env completion1 req = Some run1 ∧
    handler network env completion2 req = Some run2 ∧
    response run1 = response run2.
Proof.
  unfold all_settle, handler. intros Hall1 Hall2.
  destruct (String.eqb (method req) "OPTIONS"); [by eexists _, _|].
  destruct (body req) as [e|[recipients|] [alert|]]; try (by eexists _, _).
  rewrite (allSettled_complete _ completion1 Hall1),
          (allSettled_complete _ completion2 Hall2).
  by eexists _, _.
Qed.

(** *** Gates *)

Lemma missingTwilio_elem (n : string) :
  n ∈ missingTwilio env ↔
    (n = "TWILIO_ACCOUNT_SID" ∧ JS.truthy (TWILIO_ACCOUNT_SID env) = false) ∨
    (n = "TWILIO_AUTH_TOKEN" ∧ JS.truthy (TWILIO_AUTH_TOKEN env) = false) ∨
    (n = "TWILIO_PHONE_NUMBER" ∧ JS.truthy (TWILIO_PHONE_NUMBER env) = false).
Proof.
  unfold missingTwilio.
  destruct (JS.truthy (TWILIO_ACCOUNT_SID env)), (JS.truthy (TWILIO_AUTH_TOKEN env)),
           (JS.truthy (TWILIO_PHONE_NUMBER env)); simpl;
    rewrite ?elem_of_cons, ?elem_of_nil; intuition congruence.
Qed.

Lemma missingSmtp_elem (n : string) :
  n ∈ missingSmtp env ↔
    (n = "SMTP_HOST" ∧ JS.truthy (SMTP_HOST env) = false) ∨
    (n = "FROM_EMAIL" ∧ JS.truthy (FROM_EMAIL env) = false) ∨
    (n = "SMTP_USER" ∧ JS.truthy (SMTP_USER env) = false) ∨
    (n = "SMTP_PASS" ∧ JS.truthy (SMTP_PASS env) = false).
Proof.
  unfold missingSmtp.
  destruct (JS.truthy (SMTP_HOST env)), (JS.truthy (FROM_EMAIL env)),
           (JS.truthy (SMTP_USER env)), (JS.truthy (SMTP_PASS env)); simpl;
    rewrite ?elem_of_cons, ?elem_of_nil; intuition congruence.
Qed.

(** A gate is closed exactly when one of its settings is missing or empty. *)
Lemma smsEnabled_false :
  smsEnabled env = false ↔
    JS.truthy (TWILIO_ACCOUNT_SID env) = false ∨
    JS.truthy (TWILIO_AUTH_TOKEN env) = false ∨
    JS.truthy (TWILIO_PHONE_NUMBER env) = false.
Proof.
  unfold smsEnabled, missingTwilio.
  destruct (JS.truthy (TWILIO_ACCOUNT_SID env)), (JS.truthy (TWILIO_AUTH_TOKEN env)),
           (JS.truthy (TWILIO_PHONE_NUMBER env)); simpl;
    rewrite ?bool_decide_eq_false; intuition (try congruence; try lia).
Qed.

Lemma emailEnabled_false :
  emailEnabled env = false ↔
    JS.truthy (SMTP_HOST env) = false ∨ JS.truthy (SMTP_USER env) = false ∨
    JS.truthy (SMTP_PASS env) = false ∨ JS.truthy (FROM_EMAIL env) = false.
Proof.
  unfold emailEnabled, missingSmtp.
  destruct (JS.truthy (SMTP_HOST env)), (JS.truthy (FROM_EMAIL env)),
           (JS.truthy (SMTP_USER env)), (JS.truthy (SMTP_PASS env)); simpl;
    rewrite ?bool_decide_eq_false; intuition (try congruence; try lia).
Qed.

Lemma filter_none {A} (p : A → bool) (l : list A) :
  Forall (λ x, p x = false) l → List.filter p l = [].
Proof. induction 1 as [|x l Hx _ IH]; simpl; [done|]. by rewrite Hx. Qed.

(** The early errors on a channel whose gate is closed: one for each
    recipient that gave an address for it, in submission order. *)
Lemma gated_sms_errors recipients :
  smsEnabled env = false →
  List.filter (on_channel SMS) (flat_map (gated_of env) recipients) =
    map (gated_sms env) (List.filter (λ r, JS.truthy (phone r)) recipients).
Proof.
  intros Hoff. induction recipients as [|r recipients IH]; simpl; [done|].
  rewrite List.filter_app, IH. unfold gated_of. rewrite Hoff.
  destruct (JS.truthy (phone r)), (JS.truthy (email r)), (emailEnabled env); done.
Qed.

Lemma gated_email_errors recipients :
  emailEnabled env = false →
  List.filter (on_channel Email) (flat_map (gated_of env) recipients) =
    map (gated_email env) (List.filter (λ r, JS.truthy (email r)) recipients).
Proof.
  intros Hoff. induction recipients as [|r recipients IH]; simpl; [done|].
  rewrite List.filter_app, IH. unfold gated_of. rewrite Hoff.
  destruct (JS.truthy (phone r)), (JS.truthy (email r)), (smsEnabled env); done.
Qed.

Lemma gated_channels recipients :
  Forall (λ e, match e_channel e with
               | SMS => smsEnabled env = false
               | Email => emailEnabled env = false
               end) (flat_map (gated_of env) recipients).
Proof.
  induction recipients as [|r recipients IH]; simpl; [constructor|].
  apply Forall_app. split; [|exact IH]. unfold gated_of.
  destruct (JS.truthy (phone r)), (JS.truthy (email r)),
           (smsEnabled env) eqn:?, (emailEnabled env) eqn:?; simpl;
    repeat constructor; done.
Qed.

(** The operations of a run, seen through the meta entries recorded with
    them. *)
Lemma issued_results (P : Channel → Prop) (tasks : list SendOp) (meta : list Meta) :
  Forall2 (issued_as env) tasks meta →
  (∀ t m, issued_as env t m → is_rejected (outcome t) = true → P (m_channel m)) →
  Forall (λ e, P (e_channel e)) (deliveryErrors meta (map outcome tasks)).
Proof.
  intros Hops HP. apply deliveryErrors_channels.
  apply Forall2_fmap_r, Forall2_flip.
  eapply Forall2_impl; [exact Hops|]. intros t m Htm. by apply HP.
Qed.

Lemma issued_events (Q : Event → Prop) (tasks : list SendOp) (meta : list Meta)
    completion :
  Forall2 (issued_as env) tasks meta →
  (∀ t m, issued_as env t m → Forall Q (on_issue t ++ on_settle t)) →
  Forall Q (flat_map on_issue tasks ++ settle_events tasks completion).
Proof.
  intros Hops HQ.
  assert (Forall (λ t, Forall Q (on_issue t ++ on_settle t)) tasks) as Hall.
  { apply Forall_lookup. intros i t Ht.
    destruct (Forall2_lookup_l _ _ _ _ _ Hops Ht) as (m & _ & Htm). by eapply HQ. }
  apply Forall_app. split.
  - apply Forall_flat_map. eapply Forall_impl; [exact Hall|].
    intros t Ht. by apply Forall_app in Ht as [? _].
  - unfold settle_events. apply Forall_flat_map. apply Forall_forall.
    intros i _. destruct (tasks !! i) as [t|] eqn:Ht; [|constructor].
    rewrite Forall_lookup in Hall. specialize (Hall i t Ht).
    by apply Forall_app in Hall as [_ ?].
Qed.

Lemma logs_are_console (Q : Event → Prop) alert recipients rep :
  (∀ l s, Q (Console l s)) →
  Forall Q (opening_logs env alert recipients) ∧ Forall Q (closing_logs rep).
Proof.
  intros HQ. unfold opening_logs, closing_logs.
  destruct (smsEnabled env), (emailEnabled env), (0 <? length (errors rep))%nat; simpl;
    split; repeat constructor; apply HQ.
Qed.

(** C6. Whenever the email gate is open, a run that returns a report has
    started one email operation for each recipient that gave an email
    address, in submission order, and every one of them has settled as
    delivered: the slot of each Email entry of [deliveryMeta] holds the call
    of [sendEnhancedEmail] for that entry's address, and its result is
    fulfilled with status 'delivered'. So each of these recipients counts
    as sent, and no entry of the errors array is on the Email channel. An
    email operation cannot be rejected, whatever its arguments: it only
    logs and waits 500 ms, fetches nothing, and is fulfilled. *)
Theorem email_always_delivered completion req run rep :
  handler network env completion req = Some run →
  response run = Status200 rep →
  emailEnabled env = true →
  (∃ recipients alert results,
     let st := process_recipients network env alert recipients in
     let with_email := List.filter (λ r, JS.truthy (email r)) recipients in
     body req = Json (Some recipients) (Some alert) ∧
     allSettled (deliveryTasks st) completion = Some results ∧
     List.filter (λ m, bool_decide (m_channel m = Email)) (deliveryMeta st) =
       map (λ r, mkMeta Email (sure (email r)) (lang_of r)) with_email ∧
     (∀ i m, deliveryMeta st !! i = Some m → m_channel m = Email →
        deliveryTasks st !! i =
          Some (sendEnhancedEmail (m_recipient m) alert (m_language m)
                  (sure (SMTP_HOST env)) (sure (SMTP_USER env))
                  (sure (SMTP_PASS env)) (sure (FROM_EMAIL env)) (smtpPort env)) ∧
        results !! i =
          Some (Fulfilled (mkDelivery Email (m_recipient m) "delivered"
                             (m_language m)))) ∧
     length with_email ≤ sent rep) ∧
  Forall (λ e, e_channel e ≠ Email) (errors rep) ∧
  (∀ email alert language smtpHost smtpUser smtpPass fromEmail port,
     let op := sendEnhancedEmail email alert language smtpHost smtpUser smtpPass
                 fromEmail port in
     outcome op = Fulfilled (mkDelivery Email email "delivered" language) ∧
     Forall (λ e, is_fetch e = false) (on_issue op ++ on_settle op) ∧
     Forall (λ e, match e with
                  | Console _ _ => True
                  | Timer ms => ms = 500
                  | Fetch _ => False
                  end) (on_issue op ++ on_settle op)).
Proof.
  intros Hrun Hresp Hon. split; [|split].
  - unfold handler in Hrun.
    destruct (String.eqb (method req) "OPTIONS"); [by injection Hrun as <-|].
    destruct (body req) as [e|[recipients|] [alert|]];
      try (by injection Hrun as <-).
    destruct (allSettled _ completion) as [results|] eqn:Hsettled; [|done].
    injection Hrun as <-. simpl in Hresp. injection Hresp as <-.
    exists recipients, alert, results. cbv zeta.
    pose proof (allSettled_outcomes _ _ _ Hsettled) as Hresults.
    destruct (process_recipients_arrays network env alert recipients)
      as (Hmeta & _ & _).
    pose proof (process_recipients_email network env alert recipients) as Hops.
    cbv zeta in Hops.
    split; [done|]. split; [done|].
    split; [rewrite Hmeta; by apply email_metas|]. split.
    + intros i m Hm Hemail.
      destruct (Forall2_lookup_r _ _ _ _ _ Hops Hm) as (t & Ht & Htm).
      specialize (Htm Hemail). subst t. split; [exact Ht|].
      by rewrite Hresults, list_lookup_fmap, Ht.
    + cbn [report sent]. rewrite Hresults.
      pose proof (email_metas env recipients Hon) as Hem. rewrite <- Hmeta in Hem.
      rewrite <- (length_map (λ r, mkMeta Email (sure (email r)) (lang_of r))), <- Hem.
      apply fulfilled_at_least. eapply Forall2_impl; [exact Hops|].
      intros t m Htm Hemail%bool_decide_eq_true. by rewrite (Htm Hemail).
  - destruct (handler_200 completion req run rep Hrun Hresp)
      as (recipients & alert & _ & _ & -> & _).
    destruct (process_recipients_arrays network env alert recipients)
      as (Hmeta & Hearly & Hops).
    unfold report; simpl. apply Forall_app. split.
    + rewrite Hearly. eapply Forall_impl; [apply gated_channels|].
      intros e He Heq. simpl in He. rewrite Heq in He. congruence.
    + apply (issued_results (λ c, c ≠ Email) _ _ Hops).
      intros t m Htm Hrej Heq. unfold issued_as in Htm. rewrite Heq in Htm.
      destruct Htm as (_ & Hful & _). destruct (outcome t); discriminate.
  - intros email alert language smtpHost smtpUser smtpPass fromEmail port op.
    subst op. simpl. repeat split; repeat constructor.
Qed.

(** C5. In a run whose SMS gate is closed (some Twilio setting is missing or
    empty), the SMS entries of the errors array are the configuration
    failures of the recipients that gave a phone number, one each in
    submission order, with a reason that names the channel and the missing
    settings, and the run fetches nothing; likewise for a closed email gate
    (some SMTP setting missing or empty), whose run starts no email
    operation. *)
Theorem closed_gate_fails_fast completion req run rep :
  handler network env completion req = Some run →
  response run = Status200 rep →
  ∃ recipients alert,
    body req = Json (Some recipients) (Some alert) ∧
    (JS.truthy (TWILIO_ACCOUNT_SID env) = false ∨
     JS.truthy (TWILIO_AUTH_TOKEN env) = false ∨
     JS.truthy (TWILIO_PHONE_NUMBER env) = false →
       List.filter (on_channel SMS) (errors rep) =
         map (λ r, mkErrorEntry SMS (sure (phone r)) None
                     ("SMS service not configured: " +:+
                      JS.join ", " (missingTwilio env)))
             (List.filter (λ r, JS.truthy (phone r)) recipients) ∧
       Forall (λ e, is_fetch e = false) (trace run) ∧
       Forall (λ m, m_channel m ≠ SMS)
         (deliveryMeta (process_recipients network env alert recipients))) ∧
    (JS.truthy (SMTP_HOST env) = false ∨ JS.truthy (SMTP_USER env) = false ∨
     JS.truthy (SMTP_PASS env) = false ∨ JS.truthy (FROM_EMAIL env) = false →
       List.filter (on_channel Email) (errors rep) =
         map (λ r, mkErrorEntry Email (sure (email r)) None
                     ("Email service not configured: " +:+
                      JS.join ", " (missingSmtp env)))
             (List.filter (λ r, JS.truthy (email r)) recipients) ∧
       Forall (λ e, is_timer e = false) (trace run) ∧
       Forall (λ m, m_channel m ≠ Email)
         (deliveryMeta (process_recipients network env alert recipients))) ∧
    (∀ n, n ∈ missingTwilio env ↔
        (n = "TWILIO_ACCOUNT_SID" ∧ JS.truthy (TWILIO_ACCOUNT_SID env) = false) ∨
        (n = "TWILIO_AUTH_TOKEN" ∧ JS.truthy (TWILIO_AUTH_TOKEN env) = false) ∨
        (n = "TWILIO_PHONE_NUMBER" ∧ JS.truthy (TWILIO_PHONE_NUMBER env) = false)) ∧
    (∀ n, n ∈ missingSmtp env ↔
        (n = "SMTP_HOST" ∧ JS.truthy (SMTP_HOST env) = false) ∨
        (n = "FROM_EMAIL" ∧ JS.truthy (FROM_EMAIL env) = false) ∨
        (n = "SMTP_USER" ∧ JS.truthy (SMTP_USER env) = false) ∨
        (n = "SMTP_PASS" ∧ JS.truthy (SMTP_PASS env) = false)).
Proof.
  intros Hrun Hresp.
  destruct (handler_200 completion req run rep Hrun Hresp)
    as (recipients & alert & Hbody & _ & Hrep & Htrace).
  exists recipients, alert. split; [exact Hbody|].
  destruct (process_recipients_arrays network env alert recipients)
    as (Hmeta & Hearly & Hops).
  split; [|split; [|split; [apply missingTwilio_elem | apply missingSmtp_elem]]].
  - intros Hoff. apply smsEnabled_false in Hoff.
    assert (∀ t m, issued_as env t m → m_channel m ≠ SMS) as Hno.
    { intros t m Htm Heq. unfold issued_as in Htm. rewrite Heq in Htm.
      destruct Htm as [Hon _]. congruence. }
    split; [|split].
    + rewrite Hrep. unfold report; simpl.
      rewrite List.filter_app, Hearly, (gated_sms_errors _ Hoff).
      rewrite (filter_none (on_channel SMS) (deliveryErrors _ _)); [by rewrite app_nil_r|].
      eapply Forall_impl;
        [apply (issued_results (λ c, c ≠ SMS) _ _ Hops); intros t m Htm _; by eapply Hno|].
      intros e He. by apply bool_decide_eq_false.
    + rewrite Htrace.
      destruct (logs_are_console (λ e, is_fetch e = false) alert recipients rep)
        as [Hopen Hclose]; [done|].
      rewrite !app_assoc. apply Forall_app. split; [|exact Hclose].
      rewrite <- app_assoc. apply Forall_app. split; [exact Hopen|].
      apply (issued_events _ _ _ completion Hops).
      intros t m Htm. pose proof (Hno t m Htm) as Hm. unfold issued_as in Htm.
      destruct (m_channel m); [done | by destruct Htm as (_ & _ & ?)].
    + apply Forall_lookup. intros i m Hm.
      destruct (Forall2_lookup_r _ _ _ _ _ Hops Hm) as (t & _ & Htm). by eapply Hno.
  - intros Hoff. apply emailEnabled_false in Hoff.
    assert (∀ t m, issued_as env t m → m_channel m ≠ Email) as Hno.
    { intros t m Htm Heq. unfold issued_as in Htm. rewrite Heq in Htm.
      destruct Htm as [Hon _]. congruence. }
    split; [|split].
    + rewrite Hrep. unfold report; simpl.
      rewrite List.filter_app, Hearly, (gated_email_errors _ Hoff).
      rewrite (filter_none (on_channel Email) (deliveryErrors _ _)); [by rewrite app_nil_r|].
      eapply Forall_impl;
        [apply (issued_results (λ c, c ≠ Email) _ _ Hops); intros t m Htm _; by eapply Hno|].
      intros e He. by apply bool_decide_eq_false.
    + rewrite Htrace.
      destruct (logs_are_console (λ e, is_timer e = false) alert recipients rep)
        as [Hopen Hclose]; [done|].
      rewrite !app_assoc. apply Forall_app. split; [|exact Hclose].
      rewrite <- app_assoc. apply Forall_app. split; [exact Hopen|].
      apply (issued_events _ _ _ completion Hops).
      intros t m Htm. pose proof (Hno t m Htm) as Hm. unfold issued_as in Htm.
      destruct (m_channel m); [by destruct Htm as (_ & ?) | done].
    + apply Forall_lookup. intros i m Hm.
      destruct (Forall2_lookup_r _ _ _ _ _ Hops Hm) as (t & _ & Htm). by eapply Hno.
Qed.

(** *** Order of the errors array *)

Lemma slots_cons (results : list Settled) (i : nat) (m : Meta) (ms : list Meta) :
  concat (imap (λ j m, transport_error results (i + j) m) (m :: ms)) =
    transport_error results i m ++
    concat (imap (λ j m, transport_error results (S i + j) m) ms).
Proof.
  simpl. rewrite Nat.add_0_r. f_equal. f_equal. apply imap_ext.
  intros j m' _. simpl. f_equal. lia.
Qed.

Lemma slots_app (results : list Settled) (i : nat) (ms1 ms2 : list Meta) :
  concat (imap (λ j m, transport_error results (i + j) m) (ms1 ++ ms2)) =
    concat (imap (λ j m, transport_error results (i + j) m) ms1) ++
    concat (imap (λ j m, transport_error results (i + length ms1 + j) m) ms2).
Proof.
  rewrite imap_app, concat_app. f_equal. f_equal. apply imap_ext.
  intros j m _. simpl. f_equal. lia.
Qed.

Lemma transport_only (l : list ErrorEntry) :
  (List.filter is_configuration (pair Transport <$> l)).*2 = [] ∧
  (List.filter is_transport (pair Transport <$> l)).*2 = l.
Proof.
  induction l as [|e l [IH1 IH2]]; [done|]. split.
  - exact IH1.
  - change ((List.filter is_transport (pair Transport <$> e :: l)).*2)
      with (e :: (List.filter is_transport (pair Transport <$> l)).*2).
    by rewrite IH2.
Qed.

(** The failures in task order, split by kind: the configuration failures
    are the early errors, the transport failures are the errors of the
    rejected operations, each in the order of the tasks. *)
Lemma failures_by_kind (results : list Settled) (i : nat) recipients :
  (List.filter is_configuration (failures_in_task_order env results i recipients)).*2 =
    flat_map (gated_of env) recipients ∧
  (List.filter is_transport (failures_in_task_order env results i recipients)).*2 =
    concat (imap (λ j m, transport_error results (i + j) m)
                 (flat_map (metas_of env) recipients)).
Proof.
  revert i. induction recipients as [|r recipients IH]; intros i; [done|].
  cbn [failures_in_task_order flat_map].
  rewrite slots_app, !List.filter_app, !fmap_app.
  match goal with
  | |- context [failures_in_task_order env results ?k recipients] =>
      assert (i + length (metas_of env r) = k) as ->
        by (unfold metas_of;
            destruct (JS.truthy (phone r)), (smsEnabled env),
                     (JS.truthy (email r)), (emailEnabled env); simpl; lia);
      destruct (IH k) as [-> ->];
      generalize (concat (imap (λ j m, transport_error results (k + j) m)
                               (flat_map (metas_of env) recipients)))
  end.
  generalize (flat_map (gated_of env) recipients). intros early late.
  unfold gated_of, metas_of.
  destruct (JS.truthy (phone r)), (smsEnabled env),
           (JS.truthy (email r)), (emailEnabled env); simpl;
    rewrite ?slots_cons;
    repeat match goal with
           | |- context [List.filter _ (pair Transport <$> ?l)] =>
               destruct (transport_only l) as [-> ->]
           end;
    simpl; rewrite ?app_nil_r, ?Nat.add_0_r, ?Nat.add_1_r, <- ?app_assoc; done.
Qed.

Lemma filter_partition {A} (p q : A → bool) (l : list A) :
  (∀ x, q x = negb (p x)) →
  List.filter p l ++ List.filter q l ≡ₚ l.
Proof.
  intros Hq. induction l as [|x l IH]; simpl; [done|].
  rewrite Hq. destruct (p x); simpl.
  - by rewrite IH.
  - rewrite <- Permutation_middle. by rewrite IH.
Qed.

(** C7 (as amended). The errors array has exactly one entry per failed task.
    The entries of the configuration failures come first, then the entries
    of the rejected send operations; within each of the two groups the
    entries are in the order in which the tasks were enumerated. *)
Theorem errors_order completion req run rep :
  handler network env completion req = Some run →
  response run = Status200 rep →
  ∃ recipients alert,
    let st := process_recipients network env alert recipients in
    let failures :=
      failures_in_task_order env (map outcome (deliveryTasks st)) 0 recipients in
    body req = Json (Some recipients) (Some alert) ∧
    errors rep = (List.filter is_configuration failures).*2 ++
                 (List.filter is_transport failures).*2 ∧
    errors rep ≡ₚ
      errors_in_task_order env (map outcome (deliveryTasks st)) recipients.
Proof.
  intros Hrun Hresp.
  destruct (handler_200 completion req run rep Hrun Hresp)
    as (recipients & alert & Hbody & _ & Hrep & _).
  exists recipients, alert. cbv zeta.
  split; [exact Hbody|].
  destruct (process_recipients_arrays network env alert recipients)
    as (Hmeta & Hearly & _).
  set (results := map outcome
         (deliveryTasks (process_recipients network env alert recipients))).
  destruct (failures_by_kind results 0 recipients) as [Hconf Htrans].
  assert (errors rep =
    (List.filter is_configuration
       (failures_in_task_order env results 0 recipients)).*2 ++
    (List.filter is_transport
       (failures_in_task_order env results 0 recipients)).*2) as Herr.
  { rewrite Hrep, Hconf, Htrans. unfold report; simpl.
    by rewrite Hearly, deliveryErrors_slots, Hmeta. }
  split; [exact Herr|].
  rewrite Herr. unfold errors_in_task_order.
  rewrite <- fmap_app. apply fmap_Permutation.
  apply filter_partition. intros [[] e]; done.
Qed.

End Handler.

(** *** Runs *)

(** The send operations of the request [post recipients], counted. *)
Lemma settle_in_order host network env recipients (completion : list nat) n :
  length (SendEmergencyAlert.deliveryTasks
            (SendEmergencyAlert.process_recipients (H := host) network env
               SendEmergencyAlert.flood_alert recipients)) = n →
  (∀ i, i < n → i ∈ completion) →
  SendEmergencyAlert.all_settle (H := host) network env completion
    (SendEmergencyAlert.post recipients).
Proof. intros <- Hall. exact Hall. Qed.

Section Runs.
Import SendEmergencyAlert.

(** C1 (witness). SMS without its account identifier, email configured; one
    recipient with a phone number only, one with an email address only: one
    delivered, one failed. *)
Lemma report_counts_one_each :
  ∃ run rep,
    handler (H := plain_host) provider_accepts no_account_sid [0]
      (post [phone_only; email_only]) = Some run ∧
    response run = Status200 rep ∧
    sent rep = 1 ∧ failed rep = 1 ∧ success rep = false ∧
    sent rep + failed rep = attempted [phone_only; email_only] ∧
    length (errors rep) = failed rep.
Proof.
  eexists _, _.
  assert (∀ run rep,
    handler (H := plain_host) provider_accepts no_account_sid [0]
      (post [phone_only; email_only]) = Some run →
    response run = Status200 rep →
    sent rep + failed rep = attempted [phone_only; email_only] ∧
    length (errors rep) = failed rep) as Hcounts.
  { intros run rep Hrun Hresp.
    destruct (report_counts provider_accepts no_account_sid [0] _ run rep Hrun Hresp)
      as (recipients & alert & Hbody & Hsum & _ & Hlen).
    injection Hbody as <- <-. done. }
  split; [vm_compute; reflexivity|]. split; [reflexivity|].
  split; [reflexivity|]. split; [reflexivity|]. split; [reflexivity|].
  eapply Hcounts; [vm_compute|]; reflexivity.
Defined.

(** C5 (witness). The same run: the SMS gate is closed for want of the account
    identifier; the only SMS task fails with that reason, and nothing is
    fetched. *)
Lemma closed_gate_one_each :
  ∃ run rep,
    handler (H := plain_host) provider_accepts no_account_sid [0]
      (post [phone_only; email_only]) = Some run ∧
    response run = Status200 rep ∧
    JS.truthy (TWILIO_ACCOUNT_SID no_account_sid) = false ∧
    List.filter (on_channel SMS) (errors rep) =
      [ mkErrorEntry SMS "+911111111111" None
          "SMS service not configured: TWILIO_ACCOUNT_SID" ] ∧
    Forall (λ e, is_fetch e = false) (trace run).
Proof.
  eassert (handler (H := plain_host) provider_accepts no_account_sid [0]
             (post [phone_only; email_only]) = Some _) as Hrun
    by (vm_compute; reflexivity).
  eexists _, _. split; [exact Hrun|]. split; [reflexivity|]. split; [reflexivity|].
  destruct (closed_gate_fails_fast provider_accepts no_account_sid [0] _ _ _ Hrun eq_refl)
    as (recipients & alert & Hbody & Hsms & _).
  injection Hbody as <- <-.
  destruct (Hsms (or_introl eq_refl)) as (Herrors & Hquiet & _).
  split; [exact Herrors | exact Hquiet].
Defined.

(** C6 (witness). The same run: the email gate is open; the one email
    operation is started for the recipient with an email address and is
    fulfilled as delivered, one message is counted as sent, and no error
    entry is on the Email channel. *)
Lemma email_delivered_one_each :
  ∃ run rep,
    handler (H := plain_host) provider_accepts no_account_sid [0]
      (post [phone_only; email_only]) = Some run ∧
    response run = Status200 rep ∧
    emailEnabled no_account_sid = true ∧
    deliveryMeta (process_recipients (H := plain_host) provider_accepts
                    no_account_sid flood_alert [phone_only; email_only]) =
      [ mkMeta Email "a@example.org" "en" ] ∧
    (∃ results,
       allSettled (deliveryTasks
                     (process_recipients (H := plain_host) provider_accepts
                        no_account_sid flood_alert [phone_only; email_only])) [0] =
         Some results ∧
       results !! 0 =
         Some (Fulfilled (mkDelivery Email "a@example.org" "delivered" "en"))) ∧
    sent rep = 1 ∧
    Forall (λ e, e_channel e ≠ Email) (errors rep).
Proof.
  eassert (handler (H := plain_host) provider_accepts no_account_sid [0]
             (post [phone_only; email_only]) = Some _) as Hrun
    by (vm_compute; reflexivity).
  eexists _, _. split; [exact Hrun|]. split; [reflexivity|]. split; [reflexivity|].
  split; [reflexivity|].
  destruct (email_always_delivered provider_accepts no_account_sid [0] _ _ _
              Hrun eq_refl eq_refl)
    as ((recipients & alert & results & Hbody & Hsettled & _ & Hslots & _) & Hnone & _).
  injection Hbody as <- <-. split; [|split; [reflexivity|exact Hnone]].
  exists results. split; [exact Hsettled|].
  exact (proj2 (Hslots 0 (mkMeta Email "a@example.org" "en") eq_refl eq_refl)).
Defined.

(** C8 (witness). Everything configured, the provider answers 500; one
    recipient with a phone number only, one with an email address only. The
    run is answered with status 200 and [success: false]: one message
    delivered, one failed, and the errors array holds the entry of the
    rejected SMS operation. *)
Lemma response_status_one_each :
  ∃ run rep,
    handler (H := plain_host) provider_fails all_set [0; 1]
      (post [phone_only; email_only]) = Some run ∧
    response run = Status200 rep ∧
    (success rep = true ↔ failed rep = 0) ∧
    success rep = false ∧ sent rep = 1 ∧ failed rep = 1 ∧
    errors rep = [ mkErrorEntry SMS "+911111111111" (Some "en")
                     "SMS delivery failed: 500 down" ] ∧
    (∀ e, e ∈ errors rep →
          ∃ i m t err,
            deliveryMeta (process_recipients (H := plain_host) provider_fails all_set
                            flood_alert [phone_only; email_only]) !! i = Some m ∧
            deliveryTasks (process_recipients (H := plain_host) provider_fails all_set
                             flood_alert [phone_only; email_only]) !! i = Some t ∧
            outcome t = Rejected err ∧
            e = mkErrorEntry (m_channel m) (m_recipient m) (Some (m_language m))
                  (rejection_reason err)).
Proof.
  eassert (handler (H := plain_host) provider_fails all_set [0; 1]
             (post [phone_only; email_only]) = Some _) as Hrun
    by (vm_compute; reflexivity).
  eexists _, _. split; [exact Hrun|]. split; [reflexivity|].
  pose proof (response_status provider_fails all_set [0; 1] _ _ Hrun) as Hstatus.
  cbn [response] in Hstatus.
  destruct Hstatus
    as [(recipients & alert & results & Hbody & _ & _ & _ & Hiff & _ & _ & Hitems) _].
  injection Hbody as <- <-.
  split; [exact Hiff|]. split; [reflexivity|]. split; [reflexivity|].
  split; [reflexivity|]. split; [reflexivity|].
  intros e He. apply Hitems in He
    as [(r & _ & _ & Hoff & _)|[(r & _ & _ & Hoff & _)|
          (i & m & t & err & Hm & Ht & Ho & _ & ->)]];
    [discriminate Hoff|discriminate Hoff|].
  by exists i, m, t, err.
Defined.

(** C7 (counterexample). SMS configured, email without its password; one
    recipient with a phone number and an email address; the provider answers
    500. The tasks are enumerated SMS then Email, the errors array lists
    Email then SMS. *)
Lemma errors_not_in_task_order :
  ∃ run rep,
    handler (H := plain_host) provider_fails no_smtp_pass [0]
      (post [phone_and_email]) = Some run ∧
    response run = Status200 rep ∧
    t_channel <$> enumerate [phone_and_email] = [SMS; Email] ∧
    e_channel <$> errors_in_task_order no_smtp_pass
                    (map outcome (deliveryTasks
                       (process_recipients (H := plain_host) provider_fails
                          no_smtp_pass flood_alert [phone_and_email])))
                    [phone_and_email] = [SMS; Email] ∧
    e_channel <$> errors rep = [Email; SMS] ∧
    errors rep ≠ errors_in_task_order no_smtp_pass
                   (map outcome (deliveryTasks
                      (process_recipients (H := plain_host) provider_fails
                         no_smtp_pass flood_alert [phone_and_email])))
                   [phone_and_email].
Proof.
  eexists _, _. split; [vm_compute; reflexivity|]. split; [reflexivity|].
  split; [reflexivity|]. split; [vm_compute; reflexivity|].
  split; [reflexivity|]. vm_compute. discriminate.
Qed.

(** C7 (witness). The same run: the configuration failure first, then the
    rejected operation. *)
Lemma errors_order_gate_first :
  ∃ run rep,
    handler (H := plain_host) provider_fails no_smtp_pass [0]
      (post [phone_and_email]) = Some run ∧
    response run = Status200 rep ∧
    errors rep ≡ₚ
      errors_in_task_order no_smtp_pass
        (map outcome (deliveryTasks
           (process_recipients (H := plain_host) provider_fails
              no_smtp_pass flood_alert [phone_and_email])))
        [phone_and_email].
Proof.
  eassert (handler (H := plain_host) provider_fails no_smtp_pass [0]
             (post [phone_and_email]) = Some _) as Hrun
    by (vm_compute; reflexivity).
  eexists _, _. split; [exact Hrun|]. split; [reflexivity|].
  destruct (errors_order provider_fails no_smtp_pass [0] _ _ _ Hrun eq_refl)
    as (recipients & alert & Hbody & _ & Hperm).
  injection Hbody as <- <-. exact Hperm.
Defined.

(** C9 (witness). Everything configured, two recipients, three send
    operations, the first of which the provider fails: the response is the
    same whether the operations settle in the order 0, 1, 2 or 2, 0, 1. *)
Lemma response_two_orders :
  all_settle (H := plain_host) provider_fails_first all_set [0; 1; 2]
    (post [phone_only; phone_and_email]) ∧
  all_settle (H := plain_host) provider_fails_first all_set [2; 0; 1]
    (post [phone_only; phone_and_email]) ∧
  ∃ run1 run2,
    handler (H := plain_host) provider_fails_first all_set [0; 1; 2]
      (post [phone_only; phone_and_email]) = Some run1 ∧
    handler (H := plain_host) provider_fails_first all_set [2; 0; 1]
      (post [phone_only; phone_and_email]) = Some run2 ∧
    response run1 = response run2.
Proof.
  assert (all_settle (H := plain_host) provider_fails_first all_set [0; 1; 2]
            (post [phone_only; phone_and_email])) as H1.
  { apply (settle_in_order _ _ _ _ _ 3); [vm_compute; reflexivity|].
    intros [|[|[|i]]] Hi; [set_solver.. | lia]. }
  assert (all_settle (H := plain_host) provider_fails_first all_set [2; 0; 1]
            (post [phone_only; phone_and_email])) as H2.
  { apply (settle_in_order _ _ _ _ _ 3); [vm_compute; reflexivity|].
    intros [|[|[|i]]] Hi; [set_solver.. | lia]. }
  split; [exact H1|]. split; [exact H2|].
  exact (response_independent_of_completion provider_fails_first all_set
           [0; 1; 2] [2; 0; 1] _ H1 H2).
Defined.

End Runs.

(** ** Localized content *)

Section Localization.
Import SendEmergencyAlert.
Context `{Host}.

(** Both builders write the title and the description of [localized]. *)
Lemma builders_use_localized (alert : Alert) (language : string) :
  createEnhancedSMSMessage alert language =
    sms_template alert (localized alert language) ∧
  createEnhancedEmailMessage alert language =
    email_template alert language (localized alert language).
Proof. done. Qed.

(** An entry of the [languages] record is used. *)
Lemma localized_entry (alert : Alert) (language : string)
    (m : gmap string Types.Localized) (l : Types.Localized) :
  languages alert = Some m → m !! language = Some l →
  localized alert language = entry_content l.
Proof. intros Hm Hl. unfold localized, JS.get. by rewrite Hm, Hl. Qed.

(** Without a [languages] record, or without an entry under a name that is
    not inherited either, the base title and description are used. *)
Lemma localized_fallback (alert : Alert) (language : string) :
  languages alert = None ∨
  (∃ m, languages alert = Some m ∧ m !! language = None ∧
        JS.inherited language = false) →
  localized alert language = base_content alert.
Proof.
  unfold localized, JS.get. intros [->|(m & -> & -> & ->)]; done.
Qed.

(** Without an entry under a name every object inherits, the value read is
    the inherited member, which has neither title nor description. *)
Lemma localized_inherited (alert : Alert) (language : string)
    (m : gmap string Types.Localized) :
  languages alert = Some m → m !! language = None →
  JS.inherited language = true →
  localized alert language = mkContent None None.
Proof. intros Hm Hl Hi. unfold localized, JS.get. by rewrite Hm, Hl, Hi. Qed.

End Localization.

(** C10 (the code at the failing input). The alert carries a [languages]
    record with no entry and the recipient's language is "constructor": the
    content the builders write is not the alert's base title and
    description; both are [undefined]. *)
Theorem localized_constructor :
  SendEmergencyAlert.languages SendEmergencyAlert.flood_alert_untranslated = Some ∅ ∧
  SendEmergencyAlert.localized SendEmergencyAlert.flood_alert_untranslated "constructor" =
    SendEmergencyAlert.mkContent None None ∧
  SendEmergencyAlert.localized SendEmergencyAlert.flood_alert_untranslated "constructor" ≠
    SendEmergencyAlert.base_content SendEmergencyAlert.flood_alert_untranslated ∧
  SendEmergencyAlert.subject
    (SendEmergencyAlert.createEnhancedEmailMessage (H := SendEmergencyAlert.plain_host)
       SendEmergencyAlert.flood_alert_untranslated "constructor") =
    "📢 REGIONAL ALERT: undefined" ∧
  SendEmergencyAlert.createEnhancedSMSMessage (H := SendEmergencyAlert.plain_host)
    SendEmergencyAlert.flood_alert_untranslated "constructor" ≠
  SendEmergencyAlert.sms_template (H := SendEmergencyAlert.plain_host)
    SendEmergencyAlert.flood_alert_untranslated
    (SendEmergencyAlert.base_content SendEmergencyAlert.flood_alert_untranslated) ∧
  SendEmergencyAlert.localized SendEmergencyAlert.flood_alert_untranslated "hi" =
    SendEmergencyAlert.base_content SendEmergencyAlert.flood_alert_untranslated ∧
  SendEmergencyAlert.localized SendEmergencyAlert.flood_alert_hindi "hi" =
    SendEmergencyAlert.mkContent (Some "Baadh ki chetavani")
      (Some "Nadi ka star badh raha hai").
Proof.
  assert (SendEmergencyAlert.localized
            SendEmergencyAlert.flood_alert_untranslated "constructor" =
          SendEmergencyAlert.mkContent None None) as Hc.
  { by apply (localized_inherited _ _ ∅). }
  split; [done|]. split; [exact Hc|]. split; [by rewrite Hc|].
  split; [|split; [|split]].
  - unfold SendEmergencyAlert.createEnhancedEmailMessage. by rewrite Hc.
  - unfold SendEmergencyAlert.createEnhancedSMSMessage. rewrite Hc.
    vm_compute. discriminate.
  - by apply localized_fallback; right; exists ∅.
  - rewrite (localized_entry SendEmergencyAlert.flood_alert_hindi "hi" _
               (Types.mkLocalized "Baadh ki chetavani" "Nadi ka star badh raha hai")
               eq_refl); [done|].
    apply lookup_singleton_eq.
Qed.

(** * Further properties *)

(** ** Arithmetic on values that are not numbers *)

Section FloatNaN.

Lemma add_nan (x y : float) :
  is_nan x = true ∨ is_nan y = true → is_nan (x + y)%float = true.
Proof.
  rewrite <- !Prim2SF_nan_iff, add_spec. intros [-> | ->]; [done|].
  by destruct (Prim2SF x).
Qed.

Lemma sub_nan (x y : float) :
  is_nan x = true ∨ is_nan y = true → is_nan (x - y)%float = true.
Proof.
  rewrite <- !Prim2SF_nan_iff, sub_spec. intros [-> | ->]; [done|].
  by destruct (Prim2SF x).
Qed.

Lemma mul_nan (x y : float) :
  is_nan x = true ∨ is_nan y = true → is_nan (x * y)%float = true.
Proof.
  rewrite <- !Prim2SF_nan_iff, mul_spec. intros [-> | ->]; [done|].
  by destruct (Prim2SF x).
Qed.

Lemma div_nan (x y : float) :
  is_nan x = true ∨ is_nan y = true → is_nan (x / y)%float = true.
Proof.
  rewrite <- !Prim2SF_nan_iff, div_spec. intros [-> | ->]; [done|].
  by destruct (Prim2SF x).
Qed.

Lemma sqrt_nan (x : float) : is_nan x = true → is_nan (PrimFloat.sqrt x) = true.
Proof. rewrite <- !Prim2SF_nan_iff, sqrt_spec. by intros ->. Qed.

Lemma nan_leb (d a : float) : is_nan d = true → (d <=? a)%float = false.
Proof.
  intros Hn. destruct (d <=? a)%float eqn:Hle; [|done].
  apply leb_not_nan in Hle. congruence.
Qed.

End FloatNaN.

(** ** Distances that are not numbers *)

Section NaNDistance.
Import LocationService.
Context `{MathLib}.

Lemma Math_sin_nan (x : float) : is_nan x = true → Math_sin x = nan.
Proof. unfold Math_sin. by intros ->. Qed.

Lemma Math_cos_nan (x : float) : is_nan x = true → Math_cos x = nan.
Proof. unfold Math_cos. by intros ->. Qed.

Lemma toRadians_nan (x : float) : is_nan x = true → is_nan (toRadians x) = true.
Proof. intros Hx. apply mul_nan. by left. Qed.

(** The last steps of the Haversine formula, from the value [a] on. *)
Lemma haversine_nan (a : float) :
  is_nan a = true →
  is_nan (6371 * (2 * Math_atan2 (Math_sqrt a) (Math_sqrt (1 - a))))%float = true.
Proof.
  intros Ha. apply mul_nan. right. apply mul_nan. right.
  unfold Math_atan2, Math_sqrt. by rewrite (sqrt_nan a Ha).
Qed.

Lemma calculateDistance_nan (coord1 coord2 : LocationCoordinates) :
  is_nan (lat coord1) = true ∨ is_nan (lng coord1) = true ∨
  is_nan (lat coord2) = true ∨ is_nan (lng coord2) = true →
  is_nan (calculateDistance coord1 coord2) = true.
Proof.
  intros Hn. unfold calculateDistance. cbv zeta. apply haversine_nan.
  assert (is_nan (lat coord2 - lat coord1)%float = true ∨
          is_nan (lng coord2 - lng coord1)%float = true) as [Hd|Hd].
  { destruct Hn as [Hn|[Hn|[Hn|Hn]]];
      [left|right|left|right]; apply sub_nan; auto. }
  - apply add_nan. left. apply mul_nan. left.
    rewrite Math_sin_nan; [done|]. apply div_nan. left. by apply toRadians_nan.
  - apply add_nan. right. apply mul_nan. right.
    rewrite Math_sin_nan; [done|]. apply div_nan. left. by apply toRadians_nan.
Qed.

Lemma List_filter_false {A} (p : A → bool) (l : list A) :
  (∀ x, p x = false) → List.filter p l = [].
Proof. intros Hp. induction l as [|x l IH]; simpl; [done|]. by rewrite Hp. Qed.

Lemma filter_Is_true {A} (p : A → bool) (l : list A) :
  filter (λ x, Is_true (p x)) l = List.filter p l.
Proof.
  induction l as [|x l IH]; [done|].
  rewrite filter_cons, IH. cbn [List.filter].
  by destruct (p x).
Qed.

Lemma findNearbyCities_filter (alertCoordinates : LocationCoordinates)
    (radiusKm : option float) :
  findNearbyCities alertCoordinates radiusKm =
    List.filter (λ c, (calculateDistance alertCoordinates (coordinates c) <=?
                       default 50 radiusKm)%float)
                getMajorIndianCities.
Proof. unfold findNearbyCities. cbv zeta. apply filter_Is_true. Qed.

Lemma nan_coordinate_reaches_no_city_aux (epicenter : LocationCoordinates) :
  is_nan (lat epicenter) = true ∨ is_nan (lng epicenter) = true →
  getAlertZones epicenter = mkAlertZones [] [] [] ∧
  ∀ radiusKm, findNearbyCities epicenter radiusKm = [].
Proof.
  intros Hn.
  assert (∀ c, is_nan (calculateDistance epicenter c) = true) as Hd.
  { intros c. apply calculateDistance_nan. tauto. }
  split.
  - unfold getAlertZones. rewrite getAlertZones_of_filter.
    rewrite !List_filter_false; [done|..];
      intros c; unfold band1, band2, band3; rewrite !nan_leb; auto.
  - intros radiusKm. rewrite findNearbyCities_filter.
    apply List_filter_false. intros c. by apply nan_leb.
Qed.

(** X1. A coordinate that is not a number makes the Haversine distance not a
    number, whichever of the four coordinates it is and whatever the Math
    library computes; from such an epicenter the three buckets of
    [getAlertZones] stay empty and [findNearbyCities] finds no city, for
    every radius. *)
Theorem nan_coordinate_reaches_no_city (epicenter : LocationCoordinates) :
  is_nan (lat epicenter) = true ∨ is_nan (lng epicenter) = true →
  (∀ c, is_nan (calculateDistance epicenter c) = true ∧
        is_nan (calculateDistance c epicenter) = true) ∧
  getAlertZones epicenter = mkAlertZones [] [] [] ∧
  ∀ radiusKm, findNearbyCities epicenter radiusKm = [].
Proof.
  intros Hn. split; [|by apply nan_coordinate_reaches_no_city_aux].
  intros c. split; apply calculateDistance_nan; tauto.
Qed.

End NaNDistance.

(** X1 (witness): the epicenter whose two coordinates are not numbers,
    searched with a radius that spans the globe. *)
Lemma nan_coordinate_reaches_no_city_nowhere :
  is_nan (LocationService.lat LocationService.nowhere) = true ∧
  LocationService.getAlertZones (H := LocationService.coarse_math)
    LocationService.nowhere = LocationService.mkAlertZones [] [] [] ∧
  LocationService.findNearbyCities (H := LocationService.coarse_math)
    LocationService.nowhere (Some 20000%float) = [].
Proof.
  split; [reflexivity|].
  pose proof (nan_coordinate_reaches_no_city (H := LocationService.coarse_math)
                LocationService.nowhere (or_introl eq_refl)) as (_ & Hz & Hf).
  split; [exact Hz | apply Hf].
Defined.

(** ** Radius search and the three buckets *)

Section RadiusSearch.
Import LocationService.
Context `{MathLib}.

Lemma filter_split {A} (p p1 p2 : A → bool) (l : list A) :
  (∀ x, p x = p1 x || p2 x) → (∀ x, p1 x = true → p2 x = false) →
  List.filter p l ≡ₚ List.filter p1 l ++ List.filter p2 l.
Proof.
  intros Hp Hx. induction l as [|x l IH]; simpl; [done|].
  rewrite Hp. destruct (p1 x) eqn:H1; simpl.
  - rewrite (Hx x H1). by rewrite IH.
  - destruct (p2 x); simpl; [|done].
    rewrite IH. apply Permutation_middle.
Qed.

Lemma filter_sublist {A} (p q : A → bool) (l : list A) :
  (∀ x, p x = true → q x = true) → sublist (List.filter p l) (List.filter q l).
Proof.
  intros Hpq. induction l as [|x l IH]; simpl; [done|].
  destruct (p x) eqn:Hp.
  - rewrite (Hpq x Hp). by apply sublist_skip.
  - destruct (q x); [by apply sublist_cons|done].
Qed.

Lemma List_filter_sublist {A} (p : A → bool) (l : list A) :
  sublist (List.filter p l) l.
Proof.
  induction l as [|x l IH]; simpl; [done|].
  destruct (p x); [by apply sublist_skip|by apply sublist_cons].
Qed.

(** X2. [findNearbyCities] and [getAlertZones] agree: the search with radius
    5 returns the immediate bucket as it is; with radius 25 and 100 it
    returns the cities of the first two and of all three buckets; and the
    default radius of 50 lies between the two. *)
Theorem findNearbyCities_buckets (epicenter : LocationCoordinates) :
  let z := getAlertZones epicenter in
  findNearbyCities epicenter (Some 5%float) = immediate z ∧
  findNearbyCities epicenter (Some 25%float) ≡ₚ immediate z ++ nearby z ∧
  findNearbyCities epicenter (Some 100%float) ≡ₚ
    immediate z ++ nearby z ++ regional z ∧
  sublist (findNearbyCities epicenter (Some 25%float))
          (findNearbyCities epicenter None) ∧
  sublist (findNearbyCities epicenter None)
          (findNearbyCities epicenter (Some 100%float)).
Proof.
  intros z. subst z. unfold getAlertZones.
  rewrite getAlertZones_of_filter, !findNearbyCities_filter.
  cbn [immediate nearby regional default].
  generalize getMajorIndianCities. intros cities.
  assert (List.filter
            (λ c, (calculateDistance epicenter (coordinates c) <=? 25)%float) cities ≡ₚ
          List.filter (band1 epicenter) cities ++ List.filter (band2 epicenter) cities)
    as H25.
  { apply filter_split; intros c; unfold band1, band2.
    - pose proof (λ h, leb_trans (calculateDistance epicenter (coordinates c)) 5 25
                         h eq_refl) as T.
      destruct (_ <=? 5)%float; simpl; [by rewrite T|done].
    - by intros ->. }
  split; [done|]. split; [done|]. split; [|split].
  - rewrite app_assoc, <- H25.
    apply filter_split; intros c; unfold band3.
    + pose proof (λ h, leb_trans (calculateDistance epicenter (coordinates c)) 5 25
                         h eq_refl) as T1.
      pose proof (λ h, leb_trans (calculateDistance epicenter (coordinates c)) 25 100
                         h eq_refl) as T2.
      destruct (_ <=? 5)%float, (_ <=? 25)%float; simpl; auto;
        try (by rewrite T2); by discriminate T1.
    + intros Hle.
      destruct (_ <=? 5)%float; simpl; [done|]. by rewrite Hle.
  - apply filter_sublist. intros c Hle. by apply (leb_trans _ 25 50).
  - apply filter_sublist. intros c Hle. by apply (leb_trans _ 50 100).
Qed.

(** X3. A larger radius finds at least the same cities, in the same order:
    for radii [r1 <= r2] the result for [r1] is a subsequence of the result
    for [r2], which is a subsequence of the catalog. *)
Theorem findNearbyCities_monotone (epicenter : LocationCoordinates) (r1 r2 : float) :
  (r1 <=? r2)%float = true →
  sublist (findNearbyCities epicenter (Some r1)) (findNearbyCities epicenter (Some r2)) ∧
  sublist (findNearbyCities epicenter (Some r2)) getMajorIndianCities.
Proof.
  intros Hr. rewrite !findNearbyCities_filter. cbn [default]. split.
  - apply filter_sublist. intros c Hle. by apply (leb_trans _ r1 r2).
  - apply List_filter_sublist.
Qed.

End RadiusSearch.

(** X3 (witness): the radii 5 and 25 around Chennai. *)
Lemma findNearbyCities_monotone_chennai :
  (5 <=? 25)%float = true ∧
  sublist
    (LocationService.findNearbyCities (H := LocationService.coarse_math)
       (LocationService.coordinates LocationService.chennai) (Some 5%float))
    (LocationService.findNearbyCities (H := LocationService.coarse_math)
       (LocationService.coordinates LocationService.chennai) (Some 25%float)).
Proof.
  split; [reflexivity|].
  apply (findNearbyCities_monotone (H := LocationService.coarse_math)
           (LocationService.coordinates LocationService.chennai) 5 25 eq_refl).
Defined.

(** ** Looking a place up by name *)

Section NameLookup.
Import LocationService.
Context {casing : JS.Casing}.

Lemma find_elem {A} (p : A → bool) (l : list A) (x : A) :
  List.find p l = Some x → x ∈ l ∧ p x = true.
Proof. intros Hf. apply find_some in Hf as [Hin Hp]. by rewrite list_elem_of_In. Qed.

Lemma find_agree {A} (p q : A → bool) (l : list A) :
  Forall (λ x, p x = q x) l → List.find p l = List.find q l.
Proof. induction 1 as [|x l Hx _ IH]; [done|]. simpl. by rewrite Hx, IH. Qed.

(** The names of the catalog are written in ASCII, so on them and on an
    ASCII query the host's lower-casing is the one of the ASCII letters. *)
Lemma catalog_ascii :
  Forall (λ c, JS.is_ascii (city c) = true) getMajorIndianCities.
Proof.
  apply Forall_forall. intros c Hc. apply list_elem_of_In in Hc.
  assert (forallb (λ c, JS.is_ascii (city c)) getMajorIndianCities = true) as Hall
    by (vm_compute; reflexivity).
  rewrite forallb_forall in Hall. by apply Hall.
Qed.

Lemma getCityCoordinates_ascii (cityName : string) :
  JS.is_ascii cityName = true →
  getCityCoordinates cityName =
    getCityCoordinates (casing := JS.ascii_casing) cityName.
Proof.
  intros Hq. unfold getCityCoordinates. f_equal. apply find_agree.
  eapply Forall_impl; [apply catalog_ascii|]. intros c Hc.
  unfold name_matches. by rewrite !JS.toLowerCase_ascii.
Qed.

Lemma getCityCoordinates_catalog_ascii :
  Forall (λ c, getCityCoordinates (casing := JS.ascii_casing) (city c) =
                 Some (coordinates c) ↔
               city c ≠ "Patna" ∧ city c ≠ "Navi Mumbai")
         getMajorIndianCities.
Proof.
  unfold getMajorIndianCities.
  repeat (apply Forall_cons; split);
    [try (cbn [city coordinates]; split;
          [intros _; split; discriminate | intros _; vm_compute; reflexivity]) ..
    |by apply Forall_nil].
  - cbn [city coordinates]. split; [|by intros [? _]].
    vm_compute. intros Heq. exfalso.
    apply (f_equal (λ o, from_option (λ x, Prim2SF (lat x)) S754_nan o)) in Heq.
    vm_compute in Heq. discriminate Heq.
  - cbn [city coordinates]. split; [|by intros [_ ?]].
    vm_compute. intros Heq. exfalso.
    apply (f_equal (λ o, from_option (λ x, Prim2SF (lat x)) S754_nan o)) in Heq.
    vm_compute in Heq. discriminate Heq.
Qed.

(** X4. Looking up the name of a catalog entry gives that entry's own
    coordinates for every entry but two: the first entry whose name contains
    the query or is contained in it wins, so [Patna] is found inside
    [Visakhapatnam] and [Navi Mumbai] contains [Mumbai], and both get the
    coordinates of the other city. *)
Theorem getCityCoordinates_catalog_names :
  Forall (λ c, getCityCoordinates (city c) = Some (coordinates c) ↔
               city c ≠ "Patna" ∧ city c ≠ "Navi Mumbai")
         getMajorIndianCities ∧
  getCityCoordinates "Patna" = getCityCoordinates "Visakhapatnam" ∧
  getCityCoordinates "Navi Mumbai" = getCityCoordinates "Mumbai" ∧
  getCityCoordinates "Patna" = Some (mkCoordinates 17.6868 83.2185) ∧
  getCityCoordinates "Navi Mumbai" = Some (mkCoordinates 19.0760 72.8777).
Proof.
  split.
  - pose proof catalog_ascii as Hascii.
    pose proof getCityCoordinates_catalog_ascii as Hnames.
    rewrite Forall_forall in Hascii, Hnames. apply Forall_forall. intros c Hc.
    rewrite (getCityCoordinates_ascii (city c) (Hascii c Hc)). by apply Hnames.
  - rewrite !getCityCoordinates_ascii by reflexivity. by vm_compute.
Qed.

(** X5. The catalog is searched from its first entry, Mumbai: every query
    that occurs in [mumbai] when case is ignored, the empty query among
    them, resolves to Mumbai. *)
Theorem getCityCoordinates_first_entry_wins (cityName : string) :
  JS.includes "mumbai" (JS.toLowerCase cityName) = true →
  getCityCoordinates cityName = Some (mkCoordinates 19.0760 72.8777).
Proof.
  intros Hq. unfold getCityCoordinates, getMajorIndianCities.
  cbn [List.find city]. unfold name_matches.
  rewrite (JS.toLowerCase_ascii "Mumbai") by reflexivity.
  change (JS.ascii_lower "Mumbai") with "mumbai". by rewrite Hq.
Qed.

Lemma stateCoordinates_city (st : IndianState) (c : LocationCoordinates) :
  stateCoordinates st = Some c →
  ∃ e, e ∈ getMajorIndianCities ∧ coordinates e = c ∧ state e = state_name st.
Proof.
  unfold stateCoordinates. cbv zeta.
  generalize getMajorIndianCities. intros cities.
  destruct (List.filter _ cities) as [|first rest] eqn:Hf; [done|].
  assert (∀ e, e ∈ first :: rest → e ∈ cities ∧ state e = state_name st) as Hin.
  { intros e He. rewrite <- Hf in He. apply elem_of_List_filter in He as [? He].
    split; [done|]. by apply String.eqb_eq. }
  destruct (List.find _ (first :: rest)) as [capital|] eqn:Hc; intros [= <-].
  - apply find_elem in Hc as [Hc _]. apply Hin in Hc as [? ?]. by exists capital.
  - destruct (Hin first) as [? ?]; [left|]. by exists first.
Qed.

Lemma parseStateFromAlert_city (states : list IndianState) (text : string)
    (c : LocationCoordinates) :
  parseStateFromAlert states text = Some c →
  ∃ e st, e ∈ getMajorIndianCities ∧ coordinates e = c ∧ st ∈ states ∧
          JS.includes text (JS.toLowerCase (state_name st)) = true ∧
          state e = state_name st.
Proof.
  induction states as [|st states IH]; [done|]. cbn [parseStateFromAlert].
  destruct (JS.includes text _) eqn:Hi.
  - destruct (stateCoordinates st) as [c'|] eqn:Hs.
    + intros [= <-]. apply stateCoordinates_city in Hs as (e & ? & ? & ?).
      exists e, st. repeat split; try done. left.
    + intros (e & st' & ? & ? & ? & ? & ?)%IH. exists e, st'.
      repeat split; try done. by right.
  - intros (e & st' & ? & ? & ? & ? & ?)%IH. exists e, st'.
    repeat split; try done. by right.
Qed.

(** X6. The coordinates [parseLocationFromAlert] returns are always those of
    a catalog entry: of a city whose name occurs in the text, or else of a
    city of a state whose name occurs in the text; and as soon as the text
    names a catalog city, the table of states is not consulted. *)
Theorem parseLocationFromAlert_names_a_place (indianStates : list IndianState)
    (alertText : string) (c : LocationCoordinates) :
  parseLocationFromAlert indianStates alertText = Some c →
  (∃ e, e ∈ getMajorIndianCities ∧ coordinates e = c ∧
     (JS.includes (JS.toLowerCase alertText) (JS.toLowerCase (city e)) = true ∨
      ∃ st, st ∈ indianStates ∧ state e = state_name st ∧
        JS.includes (JS.toLowerCase alertText)
                    (JS.toLowerCase (state_name st)) = true)) ∧
  (parseLocationFromAlert [] alertText ≠ None →
   ∀ states, parseLocationFromAlert states alertText =
             parseLocationFromAlert [] alertText).
Proof.
  unfold parseLocationFromAlert. cbv zeta.
  destruct (List.find _ getMajorIndianCities) as [e|] eqn:Hf.
  - intros [= <-]. apply find_elem in Hf as [? ?]. split; [|done].
    exists e. auto.
  - intros Hs. split; [|done].
    apply parseStateFromAlert_city in Hs as (e & st & ? & ? & ? & ? & ?).
    exists e. split; [done|]. split; [done|]. right. by exists st.
Qed.

End NameLookup.

(** X5 (witness): the empty query. *)
Lemma getCityCoordinates_first_entry_wins_empty :
  JS.includes "mumbai" (JS.toLowerCase (Casing := JS.ascii_casing) "") = true ∧
  LocationService.getCityCoordinates (casing := JS.ascii_casing) "" =
    Some (LocationService.mkCoordinates 19.0760 72.8777).
Proof.
  split; [reflexivity|].
  apply (getCityCoordinates_first_entry_wins (casing := JS.ascii_casing) "" eq_refl).
Defined.

(** X6 (witness): a text that names no catalog city but the state of Kerala,
    whose capital is in the catalog. *)
Lemma parseLocationFromAlert_names_a_place_kerala :
  LocationService.parseLocationFromAlert (casing := JS.ascii_casing)
    [ LocationService.mkIndianState "Kerala" "KL" "Thiruvananthapuram" "South" ]
    "Heavy rain in Kerala" = Some (LocationService.mkCoordinates 8.5241 76.9366) ∧
  ∃ e, e ∈ LocationService.getMajorIndianCities ∧
       LocationService.coordinates e = LocationService.mkCoordinates 8.5241 76.9366.
Proof.
  assert (LocationService.parseLocationFromAlert (casing := JS.ascii_casing)
            [ LocationService.mkIndianState "Kerala" "KL" "Thiruvananthapuram" "South" ]
            "Heavy rain in Kerala" =
          Some (LocationService.mkCoordinates 8.5241 76.9366)) as Hp
    by (vm_compute; reflexivity).
  split; [exact Hp|].
  destruct (parseLocationFromAlert_names_a_place (casing := JS.ascii_casing) _ _ _ Hp) as [(e & He & Hc & _) _].
  by exists e.
Defined.

(** ** Zones, batches and requests *)

Section ZonePipeline.
Import EnhancedAlertService.
Context `{LocationService.MathLib} {casing : JS.Casing}.

(** A zone as [defineAlertZones] builds it from a bucket. *)
Lemma bucket_zone (epicenter : LocationService.LocationCoordinates)
    (band : LocationService.LocationInfo → bool) (t : ZoneType)
    (s : Types.Severity) (r : float) :
  (∀ e, band e = true →
        (LocationService.calculateDistance epicenter
           (LocationService.coordinates e) <=? r)%float = true) →
  nonempty (List.filter band LocationService.getMajorIndianCities) = true →
  let z := mkAlertZone t s
             (map LocationService.city
                  (List.filter band LocationService.getMajorIndianCities)) r in
  cities z ≠ [] ∧
  ∃ entries,
    sublist entries LocationService.getMajorIndianCities ∧
    cities z = map LocationService.city entries ∧
    Forall (λ e, (LocationService.calculateDistance epicenter
                    (LocationService.coordinates e) <=? radius z)%float = true)
           entries.
Proof.
  intros Hband Hne z. subst z. cbn [cities radius].
  generalize dependent LocationService.getMajorIndianCities. intros catalog Hne.
  split.
  - destruct (List.filter band catalog); [done|]. discriminate.
  - exists (List.filter band catalog). split; [apply List_filter_sublist|].
    split; [done|]. apply Forall_forall. intros e He.
    apply elem_of_List_filter in He as [_ He]. by apply Hband.
Qed.

Lemma defineAlertZones_zones
    (alertCoordinates : LocationService.LocationCoordinates) (s : Types.Severity) :
  let zones := defineAlertZones alertCoordinates s in
  sublist (map type zones) [immediate; nearby; regional] ∧
  Forall (λ z,
      radius z = match type z with
                 | immediate => 5 | nearby => 25 | regional => 100
                 end%float ∧
      cities z ≠ [] ∧
      ∃ entries,
        sublist entries LocationService.getMajorIndianCities ∧
        cities z = map LocationService.city entries ∧
        Forall (λ e, (LocationService.calculateDistance alertCoordinates
                        (LocationService.coordinates e) <=? radius z)%float = true)
               entries)
    zones.
Proof.
  intros zones. subst zones. rewrite defineAlertZones_unfold. cbv zeta.
  unfold LocationService.getAlertZones. rewrite getAlertZones_of_filter.
  cbn [LocationService.immediate LocationService.nearby LocationService.regional].
  pose proof (bucket_zone alertCoordinates (LocationService.band1 alertCoordinates)
                immediate s 5) as B1.
  pose proof (bucket_zone alertCoordinates (LocationService.band2 alertCoordinates)
                nearby (reduceSeverity s) 25) as B2.
  pose proof (bucket_zone alertCoordinates (LocationService.band3 alertCoordinates)
                regional Types.info 100) as B3.
  cbv zeta in B1, B2, B3.
  destruct (nonempty (List.filter (LocationService.band1 alertCoordinates) _));
    destruct (nonempty (List.filter (LocationService.band2 alertCoordinates) _));
    destruct (nonempty (List.filter (LocationService.band3 alertCoordinates) _));
    destruct (bool_decide (s = Types.critical));
    cbn [andb app map type];
    (split;
     [ repeat first [apply sublist_nil | apply sublist_skip | apply sublist_cons]
     | repeat (apply Forall_cons_2; [split; [reflexivity|]|]); try apply Forall_nil_2 ]);
    first
      [ apply B1; [|done]; unfold LocationService.band1; by intros e ->
      | apply B2; [|done]; unfold LocationService.band2; intros e;
        by destruct (_ <=? 5)%float
      | apply B3; [|done]; unfold LocationService.band3; intros e;
        by destruct (_ <=? 5)%float, (_ <=? 25)%float ].
Qed.

(** X7. The zones [defineAlertZones] returns come in the order immediate,
    nearby, regional, each type at most once; a zone's radius is 5, 25 or
    100 by its type; no zone is without cities, and every city of a zone is
    a catalog entry within the zone's radius of the epicenter. *)
Theorem defineAlertZones_shape
    (alertCoordinates : LocationService.LocationCoordinates) (s : Types.Severity) :
  let zones := defineAlertZones alertCoordinates s in
  sublist (map type zones) [immediate; nearby; regional] ∧
  Forall (λ z,
      radius z = match type z with
                 | immediate => 5 | nearby => 25 | regional => 100
                 end%float ∧
      cities z ≠ [] ∧
      ∃ entries,
        sublist entries LocationService.getMajorIndianCities ∧
        cities z = map LocationService.city entries ∧
        Forall (λ e, (LocationService.calculateDistance alertCoordinates
                        (LocationService.coordinates e) <=? radius z)%float = true)
               entries)
    zones.
Proof. apply defineAlertZones_zones. Qed.

Context `{Services}.

(** The zone on which a rejected call stopped: the first zone with a
    matching subscriber for which the generator did not return. *)
Lemma targetedAlerts_from_first (originalAlert : Types.Alert)
    (subscribers : list Subscriber) (zones : list AlertZone)
    (acc : list TargetedAlert) (e : JS.Error) :
  targetedAlerts_from originalAlert subscribers zones acc = inl e →
  ∃ before z after,
    List.filter (λ z, nonempty (zoneSubscribers originalAlert z subscribers)) zones =
      before ++ z :: after ∧
    Forall (λ z', ∃ zoneAlert, createZoneSpecificAlert originalAlert z' = inr zoneAlert)
           before ∧
    createZoneSpecificAlert originalAlert z = inl e.
Proof.
  revert acc. induction zones as [|z zones IH]; intros acc; simpl; [done|].
  destruct (nonempty (zoneSubscribers originalAlert z subscribers)); simpl; [|apply IH].
  destruct (createZoneSpecificAlert originalAlert z) as [e'|zoneAlert] eqn:Hz.
  - intros [= <-]. eexists [], z, _. split; [reflexivity|]. split; [constructor|done].
  - intros (before & z' & after & -> & Hbefore & Hz')%IH.
    exists (z :: before), z', after. split; [done|]. split; [|done].
    constructor; [by exists zoneAlert|done].
Qed.

Lemma targetedAlerts_from_total (originalAlert : Types.Alert)
    (subscribers : list Subscriber) (zones : list AlertZone)
    (acc : list TargetedAlert) :
  Forall (λ z, ∃ zoneAlert, createZoneSpecificAlert originalAlert z = inr zoneAlert)
    (List.filter (λ z, nonempty (zoneSubscribers originalAlert z subscribers)) zones) →
  ∃ batches, targetedAlerts_from originalAlert subscribers zones acc = inr batches.
Proof.
  revert acc. induction zones as [|z zones IH]; intros acc; simpl.
  - intros _. by exists acc.
  - destruct (nonempty (zoneSubscribers originalAlert z subscribers)); simpl; [|apply IH].
    intros [[zoneAlert ->] Hrest]%Forall_cons. by apply IH.
Qed.

(** What the batches are when the call returns. *)
Lemma createTargetedAlerts_batches_of (originalAlert : Types.Alert)
    (zones : list AlertZone) (subscribers : list Subscriber)
    (batches : list TargetedAlert) :
  createTargetedAlerts originalAlert zones subscribers = inr batches →
  map zone batches =
    List.filter (λ z, nonempty (zoneSubscribers originalAlert z subscribers)) zones ∧
  Forall (λ t, recipients t ≠ [] ∧
               recipients t = zoneSubscribers originalAlert (zone t) subscribers ∧
               createZoneSpecificAlert originalAlert (zone t) = inr (alert t)) batches.
Proof.
  intros Hcall%createTargetedAlerts_returns.
  assert (Forall (λ z, zoneSubscribers originalAlert z subscribers ≠ [])
            (List.filter (λ z, nonempty (zoneSubscribers originalAlert z subscribers))
                         zones)) as Hne.
  { apply Forall_forall. intros z [_ Hz]%elem_of_List_filter. by apply nonempty_iff. }
  revert Hne.
  induction Hcall as [|t z batches matched (<- & Hr & Ha) _ IH]; [done|].
  intros [Hz Hrest]%Forall_cons. destruct (IH Hrest) as [IH1 IH2].
  split; [by rewrite <- IH1|].
  constructor; [|done]. split; [by rewrite Hr|done].
Qed.

(** X8. When [createTargetedAlerts] returns, it has made one batch for each
    zone that has a matching subscriber, in the order of the zones, and none
    for the other zones: no batch is without recipients, and each batch
    carries the alert the content generator returned for its zone. It
    returns if and only if the generator returns for every zone that has a
    matching subscriber, so always when there is no subscriber; otherwise
    the call is rejected with the generator's error on the first such zone
    for which the generator does not return, and there is no batch at
    all. *)
Theorem createTargetedAlerts_batches (originalAlert : Types.Alert)
    (zones : list AlertZone) (subscribers : list Subscriber) :
  let matched :=
    List.filter (λ z, nonempty (zoneSubscribers originalAlert z subscribers)) zones in
  let returns z := ∃ zoneAlert, createZoneSpecificAlert originalAlert z = inr zoneAlert in
  match createTargetedAlerts originalAlert zones subscribers with
  | inr batches =>
      map zone batches = matched ∧
      Forall (λ t, recipients t ≠ [] ∧
                   recipients t = zoneSubscribers originalAlert (zone t) subscribers ∧
                   createZoneSpecificAlert originalAlert (zone t) = inr (alert t))
             batches ∧
      sublist (map zone batches) zones
  | inl e =>
      ∃ before z after,
        matched = before ++ z :: after ∧ Forall returns before ∧
        createZoneSpecificAlert originalAlert z = inl e
  end ∧
  ((∃ batches, createTargetedAlerts originalAlert zones subscribers = inr batches) ↔
   Forall returns matched) ∧
  createTargetedAlerts originalAlert zones [] = inr [].
Proof.
  cbv zeta. split; [|split].
  - destruct (createTargetedAlerts originalAlert zones subscribers)
      as [e|batches] eqn:Hcall.
    + by apply targetedAlerts_from_first in Hcall.
    + destruct (createTargetedAlerts_batches_of _ _ _ _ Hcall) as [Hz Hb].
      split; [done|]. split; [done|]. rewrite Hz. apply List_filter_sublist.
  - split.
    + intros [batches Hcall].
      destruct (createTargetedAlerts_batches_of _ _ _ _ Hcall) as [Hz Hb].
      rewrite <- Hz. apply Forall_fmap. eapply Forall_impl; [exact Hb|].
      intros t (_ & _ & Ht). by exists (alert t).
    + apply targetedAlerts_from_total.
  - unfold createTargetedAlerts.
    destruct (targetedAlerts_from_total originalAlert [] zones []) as [batches Hb].
    { rewrite List_filter_false; [constructor|]. by intros z. }
    rewrite Hb. f_equal.
    apply targetedAlerts_from_returns in Hb as (new & -> & Hnew).
    rewrite List_filter_false in Hnew by (by intros z).
    by apply Forall2_nil_inv_r in Hnew as ->.
Qed.

End ZonePipeline.

Section Requests.
Import EnhancedAlertService.
Context `{LocationService.MathLib} `{Services} {casing : JS.Casing}.

Lemma formattedRecipients_addressed (rs : list Subscriber) :
  Forall (λ x, JS.truthy (r_email x) || JS.truthy (r_phone x) = true)
         (formattedRecipients rs).
Proof.
  apply Forall_forall. intros x Hx. unfold formattedRecipients in Hx.
  by apply elem_of_List_filter in Hx as [_ Hx].
Qed.

(** The requests made of the batches, zone by zone. *)
Lemma requests_of_batches (originalAlert : Types.Alert)
    (subscribers : list Subscriber) (batches : list TargetedAlert)
    (matched : list AlertZone) :
  Forall2 (batch_of originalAlert subscribers) batches matched →
  Forall2 (λ r z, req_zone r = type z ∧ req_radius r = radius z ∧
                  req_recipients r = zoneRecipients originalAlert z subscribers ∧
                  req_recipients r ≠ [] ∧
                  createZoneSpecificAlert originalAlert z = inr (req_alert r))
    (sendLocationBasedNotifications batches)
    (List.filter (λ z, nonempty (zoneRecipients originalAlert z subscribers)) matched).
Proof.
  unfold sendLocationBasedNotifications.
  induction 1 as [|t z batches matched (<- & Hr & Ha) _ IH]; [constructor|].
  assert (zoneRecipients originalAlert (zone t) subscribers =
          formattedRecipients (recipients t)) as Hz.
  { unfold zoneRecipients. by rewrite Hr. }
  cbn [omap list_omap List.filter]. rewrite Hz.
  unfold notificationRequest. cbv zeta.
  destruct (nonempty (formattedRecipients (recipients t))) eqn:Hne; simpl; [|exact IH].
  constructor; [|exact IH]. cbn [req_zone req_radius req_recipients req_alert].
  rewrite Hz.
  split; [done|]. split; [done|]. split; [done|]. split; [|done].
  by apply nonempty_iff.
Qed.

(** The requests of a call that returns: one for each zone that is left with
    a recipient. *)
Lemma processAndDistributeAlert_returns (a : Types.Alert)
    (subscribers : list Subscriber) (requests : list EdgeRequest) :
  processAndDistributeAlert a subscribers = inr requests →
  requests = [] ∨
  ∃ c,
    match Types.coordinates a with
    | Some c => Some c
    | None => LocationService.getCityCoordinates (Types.location a)
    end = Some c ∧
    Forall2 (λ r z, req_zone r = type z ∧ req_radius r = radius z ∧
                    req_recipients r = zoneRecipients a z subscribers ∧
                    req_recipients r ≠ [] ∧
                    createZoneSpecificAlert a z = inr (req_alert r))
      requests
      (List.filter (λ z, nonempty (zoneRecipients a z subscribers))
                   (defineAlertZones c (Types.severity a))).
Proof.
  unfold processAndDistributeAlert. cbv zeta.
  destruct (match Types.coordinates a with
            | Some c => Some c
            | None => LocationService.getCityCoordinates (Types.location a)
            end) as [c|]; [|intros [= <-]; by left].
  destruct (createTargetedAlerts a (defineAlertZones c (Types.severity a)) subscribers)
    as [e|batches] eqn:Hcall; [done|].
  intros [= <-]. right. exists c. split; [done|].
  apply createTargetedAlerts_returns in Hcall.
  apply requests_of_batches in Hcall. revert Hcall.
  rewrite filter_filter_and.
  assert (∀ z, nonempty (zoneSubscribers a z subscribers) &&
               nonempty (zoneRecipients a z subscribers) =
               nonempty (zoneRecipients a z subscribers)) as Hand.
  { intros z. unfold zoneRecipients.
    destruct (zoneSubscribers a z subscribers); [done|]. done. }
  by rewrite (List.filter_ext _ _ Hand).
Qed.

Lemma defineAlertZones_regional
    (alertCoordinates : LocationService.LocationCoordinates) (s : Types.Severity) :
  Forall (λ z, type z = regional → s = Types.critical)
         (defineAlertZones alertCoordinates s).
Proof.
  rewrite defineAlertZones_unfold. cbv zeta.
  generalize (LocationService.getAlertZones alertCoordinates). intros b.
  destruct (nonempty (LocationService.immediate b)),
           (nonempty (LocationService.nearby b)),
           (nonempty (LocationService.regional b)),
           (bool_decide_reflect (s = Types.critical));
    cbn [andb app]; repeat constructor; done.
Qed.

Lemma sublist_filter_map {A B} (f : A → B) (p : A → bool) (l : list A) :
  sublist (map f (List.filter p l)) (map f l).
Proof. apply (fmap_sublist f), List_filter_sublist. Qed.

(** X9. The requests [processAndDistributeAlert] posts when it returns: at
    most one per zone type, in the order immediate, nearby, regional; each
    carries its zone's radius and at least one recipient, every recipient
    has an address, and a regional request is posted for a critical alert
    only. When it does not return, the alert was located, the content
    generator failed with the error on a zone with a matching subscriber,
    and nothing was posted. *)
Theorem processAndDistributeAlert_requests (a : Types.Alert)
    (subscribers : list Subscriber) :
  match processAndDistributeAlert a subscribers with
  | inr requests =>
      sublist (map req_zone requests) [immediate; nearby; regional] ∧
      length requests ≤ 3 ∧
      Forall (λ r,
          req_radius r = match req_zone r with
                         | immediate => 5 | nearby => 25 | regional => 100
                         end%float ∧
          req_recipients r ≠ [] ∧
          Forall (λ x, JS.truthy (r_email x) || JS.truthy (r_phone x) = true)
                 (req_recipients r) ∧
          (req_zone r ≠ regional ∨ Types.severity a = Types.critical))
        requests
  | inl e =>
      ∃ c z,
        match Types.coordinates a with
        | Some c => Some c
        | None => LocationService.getCityCoordinates (Types.location a)
        end = Some c ∧
        z ∈ defineAlertZones c (Types.severity a) ∧
        zoneSubscribers a z subscribers ≠ [] ∧
        createZoneSpecificAlert a z = inl e
  end.
Proof.
  destruct (processAndDistributeAlert a subscribers) as [e|requests] eqn:Hcall.
  { unfold processAndDistributeAlert in Hcall. cbv zeta in Hcall.
    destruct (match Types.coordinates a with
              | Some c => Some c
              | None => LocationService.getCityCoordinates (Types.location a)
              end) as [c|]; [|done].
    destruct (createTargetedAlerts a (defineAlertZones c (Types.severity a))
                subscribers) as [e'|batches] eqn:Hb; [|done].
    injection Hcall as <-.
    apply targetedAlerts_from_rejects in Hb as (z & Hz & Hs & He).
    by exists c, z. }
  apply processAndDistributeAlert_returns in Hcall as [->|(c & _ & Hreq)].
  { split; [apply sublist_nil_l|]. split; [simpl; lia|constructor]. }
  destruct (defineAlertZones_zones c (Types.severity a)) as [Hsub Hzones].
  pose proof (defineAlertZones_regional c (Types.severity a)) as Hreg.
  revert Hreq Hsub Hzones Hreg.
  generalize (defineAlertZones c (Types.severity a)). intros zones Hreq Hsub Hzones Hreg.
  assert (map req_zone requests =
          map type (List.filter (λ z, nonempty (zoneRecipients a z subscribers)) zones))
    as Htypes.
  { clear -Hreq. induction Hreq as [|r z rs zs (Hz & _) _ IH]; [done|].
    cbn [map]. by rewrite Hz, IH. }
  assert (sublist (map req_zone requests) [immediate; nearby; regional]) as Hs.
  { rewrite Htypes. etrans; [|exact Hsub]. apply sublist_filter_map. }
  split; [exact Hs|]. split.
  - apply sublist_length in Hs. by rewrite length_map in Hs.
  - apply Forall_forall. intros r Hr.
    apply list_elem_of_lookup in Hr as [i Hr].
    destruct (Forall2_lookup_l _ _ _ _ _ Hreq Hr) as (z & Hz & Ht & Hrad & Hrec & Hne & _).
    apply list_elem_of_lookup_2, elem_of_List_filter in Hz as [Hz _].
    rewrite Forall_forall in Hzones. destruct (Hzones z Hz) as (Hradius & _).
    rewrite Forall_forall in Hreg.
    split; [by rewrite Hrad, Ht|]. split; [done|].
    split; [rewrite Hrec; apply formattedRecipients_addressed|].
    rewrite Ht. destruct (type z) eqn:Htz; [by left|by left|right; by apply (Hreg z)].
Qed.

(** X10. An alert whose own coordinates are not numbers is distributed to
    nobody: it has no zone, so no request is posted whoever subscribed. *)
Theorem nan_epicenter_alerts_nobody (a : Types.Alert)
    (c : LocationService.LocationCoordinates) (subscribers : list Subscriber) :
  Types.coordinates a = Some c →
  is_nan (LocationService.lat c) = true ∨ is_nan (LocationService.lng c) = true →
  defineAlertZones c (Types.severity a) = [] ∧
  processAndDistributeAlert a subscribers = inr [] ∧
  testLocationBasedAlert a subscribers = inr [].
Proof.
  intros Hc Hn.
  assert (defineAlertZones c (Types.severity a) = []) as Hz.
  { rewrite defineAlertZones_unfold. cbv zeta.
    destruct (nan_coordinate_reaches_no_city_aux c Hn) as [-> _].
    by destruct (bool_decide _). }
  split; [exact Hz|].
  assert (processAndDistributeAlert a subscribers = inr []) as Hp.
  { unfold processAndDistributeAlert. cbv zeta. by rewrite Hc, Hz. }
  split; [exact Hp|].
  unfold testLocationBasedAlert. cbv zeta. by rewrite Hc.
Qed.

(** X11. An alert without coordinates whose location names no catalog city is
    dropped by [processAndDistributeAlert], while [testLocationBasedAlert]
    distributes it as an alert at Delhi. *)
Theorem testLocationBasedAlert_defaults_to_delhi (a : Types.Alert)
    (subscribers : list Subscriber) :
  Types.coordinates a = None →
  LocationService.getCityCoordinates (Types.location a) = None →
  processAndDistributeAlert a subscribers = inr [] ∧
  testLocationBasedAlert a subscribers =
    processAndDistributeAlert (with_coordinates a delhi) subscribers ∧
  LocationService.getCityCoordinates "Delhi" = Some delhi.
Proof.
  intros Hc Hl. split; [|split].
  - unfold processAndDistributeAlert. cbv zeta. by rewrite Hc, Hl.
  - unfold testLocationBasedAlert. cbv zeta. by rewrite Hc, Hl.
  - rewrite getCityCoordinates_ascii by reflexivity. by vm_compute.
Qed.

End Requests.

(** ** Runs of the handler *)

Section HandlerRuns.
Import SendEmergencyAlert.
Context `{Host}.
Variable network : nat → FetchRequest → FetchResult.
Variable env : Env.

(** Whatever holds of every SMS operation with its [deliveryMeta] entry, and
    of every email operation with its entry, holds slot by slot of the two
    arrays the loop fills. *)
Lemma process_recipients_related (R : SendOp → Meta → Prop) alert recipients :
  (∀ net phone lang sid token from,
     R (sendEnhancedSMS net phone alert lang sid token from) (mkMeta SMS phone lang)) →
  (∀ email lang host user pass from port,
     R (sendEnhancedEmail email alert lang host user pass from port)
       (mkMeta Email email lang)) →
  let st := process_recipients network env alert recipients in
  Forall2 R (deliveryTasks st) (deliveryMeta st).
Proof.
  intros Hsms Heml. cbv zeta. unfold process_recipients.
  assert (∀ st, Forall2 R (deliveryTasks st) (deliveryMeta st) →
    Forall2 R (deliveryTasks (foldl (process_recipient network env alert) st recipients))
              (deliveryMeta (foldl (process_recipient network env alert) st recipients)))
    as Hgen.
  { induction recipients as [|r rs IH]; intros st Hst; [done|].
    simpl. apply IH. unfold process_recipient.
    destruct (JS.truthy (phone r)), (smsEnabled env),
             (JS.truthy (email r)), (emailEnabled env); simpl;
      repeat (apply Forall2_app; [|by repeat constructor]); done. }
  apply Hgen. constructor.
Qed.

Lemma task_events (Q : Event → Prop) (tasks : list SendOp) completion :
  Forall (λ t, Forall Q (on_issue t ++ on_settle t)) tasks →
  Forall Q (flat_map on_issue tasks ++ settle_events tasks completion).
Proof.
  intros Hall. apply Forall_app. split.
  - apply Forall_flat_map. eapply Forall_impl; [exact Hall|].
    intros t Ht. by apply Forall_app in Ht as [? _].
  - unfold settle_events. apply Forall_flat_map. apply Forall_forall.
    intros i _. destruct (tasks !! i) as [t|] eqn:Ht; [|constructor].
    rewrite Forall_lookup in Hall. specialize (Hall i t Ht).
    by apply Forall_app in Hall as [_ ?].
Qed.

(** The run of a well-formed request once every send operation has settled. *)
Lemma handler_run completion req recipients alert :
  String.eqb (method req) "OPTIONS" = false →
  body req = Json (Some recipients) (Some alert) →
  let st := process_recipients network env alert recipients in
  (∀ i, i < length (deliveryTasks st) → i ∈ completion) →
  handler network env completion req =
    Some (mkRun (Status200 (report env alert st (map outcome (deliveryTasks st))))
            (opening_logs env alert recipients ++
             flat_map on_issue (deliveryTasks st) ++
             settle_events (deliveryTasks st) completion ++
             closing_logs (report env alert st (map outcome (deliveryTasks st))))).
Proof.
  intros Hm Hb st Hall. unfold handler. rewrite Hm, Hb.
  fold st. by rewrite (allSettled_complete _ completion Hall).
Qed.

Lemma all_fulfilled (tasks : list SendOp) (meta : list Meta) :
  length meta = length tasks →
  Forall (λ t, is_fulfilled (outcome t) = true) tasks →
  length (List.filter is_fulfilled (map outcome tasks)) = length tasks ∧
  deliveryErrors meta (map outcome tasks) = [].
Proof.
  intros Hlen Hall. split.
  - clear Hlen. induction Hall as [|t tasks Ht _ IH]; simpl; [done|].
    rewrite Ht. simpl. by rewrite IH.
  - apply length_zero_iff_nil. rewrite deliveryErrors_length by by rewrite length_map.
    unfold rejected_count. clear Hlen.
    induction Hall as [|t tasks Ht _ IH]; simpl; [done|].
    destruct (outcome t); [done|discriminate].
Qed.

(** *** Recipients without a phone number *)

Lemma metas_email_only recipients :
  Forall (λ r, phone r = None ∧ JS.truthy (email r) = true) recipients →
  Forall (λ m, m_channel m = Email) (flat_map (metas_of env) recipients) ∧
  length (flat_map (metas_of env) recipients) =
    (if emailEnabled env then length recipients else 0) ∧
  Forall (λ e, e_channel e = Email) (flat_map (gated_of env) recipients) ∧
  length (flat_map (gated_of env) recipients) =
    (if emailEnabled env then 0 else length recipients).
Proof.
  induction 1 as [|r rs [Hp He] _ (IH1 & IH2 & IH3 & IH4)]; simpl.
  { repeat split; try constructor; by destruct (emailEnabled env). }
  rewrite !length_app, IH2, IH4.
  assert (metas_of env r =
          if emailEnabled env then [ mkMeta Email (sure (email r)) (lang_of r) ]
          else []) as ->.
  { unfold metas_of. rewrite Hp, He. simpl. by destruct (emailEnabled env). }
  assert (gated_of env r = if emailEnabled env then [] else [ gated_email env r ])
    as ->.
  { unfold gated_of. rewrite Hp, He. simpl. by destruct (emailEnabled env). }
  destruct (emailEnabled env); simpl; repeat split; try done; by constructor.
Qed.

Lemma email_only_run completion req recipients alert :
  String.eqb (method req) "OPTIONS" = false →
  body req = Json (Some recipients) (Some alert) →
  Forall (λ r, phone r = None ∧ JS.truthy (email r) = true) recipients →
  all_settle network env completion req →
  ∃ run rep,
    handler network env completion req = Some run ∧
    response run = Status200 rep ∧
    Forall (λ e, is_fetch e = false) (trace run) ∧
    Forall (λ e, e_channel e = Email) (errors rep) ∧
    if emailEnabled env
    then success rep = true ∧ sent rep = length recipients ∧ failed rep = 0
    else sent rep = 0 ∧ failed rep = length recipients.
Proof.
  intros Hm Hb Hrs Hall. unfold all_settle in Hall. rewrite Hb in Hall.
  rewrite (handler_run completion req recipients alert Hm Hb Hall).
  eexists _, _. split; [reflexivity|]. split; [reflexivity|].
  cbn [trace].
  destruct (process_recipients_arrays network env alert recipients)
    as (Hmeta & Hearly & _).
  destruct (metas_email_only recipients Hrs) as (Hch & Hlen & Hgch & Hglen).
  assert (Forall2 (λ t m, m_channel m = Email →
                     is_fulfilled (outcome t) = true ∧
                     Forall (λ e, is_fetch e = false) (on_issue t ++ on_settle t))
            (deliveryTasks (process_recipients network env alert recipients))
            (flat_map (metas_of env) recipients)) as Hrel.
  { rewrite <- Hmeta. apply process_recipients_related.
    - intros. discriminate.
    - intros. split; [done|]. by repeat constructor. }
  assert (Forall (λ t, is_fulfilled (outcome t) = true ∧
                       Forall (λ e, is_fetch e = false) (on_issue t ++ on_settle t))
            (deliveryTasks (process_recipients network env alert recipients)))
    as Htasks.
  { apply Forall_lookup. intros i t Ht.
    destruct (Forall2_lookup_l _ _ _ _ _ Hrel Ht) as (m & Hm' & Htm).
    apply Htm. rewrite Forall_lookup in Hch. by apply (Hch i m). }
  apply Forall2_length in Hrel.
  destruct (all_fulfilled _ (deliveryMeta (process_recipients network env alert recipients))
              (eq_sym (eq_trans Hrel (eq_sym (f_equal length Hmeta))))
              (Forall_impl _ _ _ Htasks (λ t Ht, proj1 Ht))) as [Hsent Herr].
  split; [|split].
  - destruct (logs_are_console env (λ e, is_fetch e = false) alert recipients
                (report env alert (process_recipients network env alert recipients)
                   (map outcome
                      (deliveryTasks (process_recipients network env alert recipients)))))
      as [Hopen Hclose]; [done|].
    apply Forall_app. split; [exact Hopen|]. rewrite app_assoc.
    apply Forall_app. split; [|exact Hclose].
    apply task_events. eapply Forall_impl; [exact Htasks|]. by intros t [_ ?].
  - unfold report. cbn [errors]. rewrite Herr, app_nil_r, Hearly. exact Hgch.
  - unfold report. cbn [success sent failed]. rewrite Hsent, Herr, app_nil_r, Hearly, Hrel.
    rewrite Hlen, Hglen. by destruct (emailEnabled env).
Qed.

End HandlerRuns.

Section HandlerWaits.
Import SendEmergencyAlert.
Context `{Host}.
Variable network : nat → FetchRequest → FetchResult.
Variable env : Env.

Lemma no_meta_no_task alert recipients :
  flat_map (metas_of env) recipients = [] →
  deliveryTasks (process_recipients network env alert recipients) = [].
Proof.
  intros Hm.
  destruct (process_recipients_arrays network env alert recipients) as (Hmeta & _ & Hrel).
  rewrite Hmeta, Hm in Hrel. by apply Forall2_nil_inv_r in Hrel.
Qed.

Lemma nothing_issued recipients :
  Forall (λ r, (JS.truthy (phone r) = false ∨ smsEnabled env = false) ∧
               (JS.truthy (email r) = false ∨ emailEnabled env = false)) recipients →
  flat_map (metas_of env) recipients = [].
Proof.
  induction 1 as [|r rs [Hp He] _ IH]; [done|]. simpl. rewrite IH, app_nil_r.
  unfold metas_of.
  destruct Hp as [-> | ->], He as [-> | ->]; simpl;
    rewrite ?andb_false_r; done.
Qed.

(** X12. When the loop starts no send operation, because for every recipient
    each channel lacks an address or has its gate closed, the handler does
    not wait: it answers in every completion order, reports nothing sent and
    every task failed, reports success exactly when there was no task, and
    does nothing but write to the console. *)
Theorem no_task_started_answers_at_once completion req recipients alert :
  String.eqb (method req) "OPTIONS" = false →
  body req = Json (Some recipients) (Some alert) →
  Forall (λ r, (JS.truthy (phone r) = false ∨ smsEnabled env = false) ∧
               (JS.truthy (email r) = false ∨ emailEnabled env = false)) recipients →
  ∃ run rep,
    handler network env completion req = Some run ∧
    response run = Status200 rep ∧
    sent rep = 0 ∧ failed rep = attempted recipients ∧
    (success rep = true ↔ attempted recipients = 0) ∧
    Forall is_console (trace run).
Proof.
  intros Hm Hb Hrs.
  pose proof (nothing_issued recipients Hrs) as Hmeta.
  pose proof (no_meta_no_task alert recipients Hmeta) as Htasks.
  rewrite (handler_run network env completion req recipients alert Hm Hb)
    by (rewrite Htasks; simpl; lia).
  eexists _, _. split; [reflexivity|]. split; [reflexivity|].
  destruct (process_recipients_arrays network env alert recipients) as (_ & Hearly & _).
  pose proof (tasks_issued_or_gated env recipients) as Hcount.
  rewrite Hmeta in Hcount. simpl in Hcount.
  rewrite Htasks. unfold report. cbn [sent failed success trace map List.filter length].
  rewrite deliveryErrors_nil_r, app_nil_r, Hearly, Hcount.
  split; [done|]. split; [done|]. split; [apply bool_decide_eq_true|].
  destruct (logs_are_console env is_console alert recipients
              (mkReport (bool_decide (attempted recipients = 0)) 0 (attempted recipients)
                 (flat_map (gated_of env) recipients) (zone_or alert "direct")
                 (radius alert) (smsEnabled env, emailEnabled env)
                 (zone_or alert "Direct" +:+ " zone alert: " +:+ pretty 0 +:+
                  " delivered, " +:+ pretty (attempted recipients) +:+ " failed")))
    as [Hopen Hclose]; [done|].
  apply Forall_app. split; [exact Hopen|]. cbn [flat_map app].
  apply Forall_app. split; [|exact Hclose].
  unfold settle_events. apply Forall_flat_map, Forall_forall. intros i _.
  by rewrite lookup_nil.
Qed.

Lemma settle_slots_from (tasks : list SendOp) (completion : list nat)
    (slots0 : list (option Settled)) (i : nat) (r : Settled) :
  foldl (λ slots i, match tasks !! i with
                    | Some t => <[ i := Some (outcome t) ]> slots
                    | None => slots
                    end) slots0 completion !! i = Some (Some r) →
  slots0 !! i = Some (Some r) ∨ i ∈ completion.
Proof.
  revert slots0. induction completion as [|j completion IH]; intros slots0; simpl.
  { by left. }
  intros [Hi|Hi]%IH; [|right; by right].
  destruct (decide (j = i)) as [->|Hne]; [right; by left|].
  left. destruct (tasks !! j); [|done].
  by rewrite list_lookup_insert_ne in Hi.
Qed.

(** X13. The handler answers a well-formed request exactly when every send
    operation it started has settled: as long as one of them is pending
    there is no response. *)
Theorem handler_waits_for_every_task completion req :
  String.eqb (method req) "OPTIONS" = false →
  (is_Some (handler network env completion req) ↔
   all_settle network env completion req).
Proof.
  intros Hm. split; [|apply handler_answers].
  unfold handler, all_settle. rewrite Hm.
  destruct (body req) as [e|[recipients|] [alert|]]; try done.
  destruct (allSettled _ completion) as [results|] eqn:Hs; [|by intros [? ?]].
  intros _ i Hi. unfold allSettled in Hs.
  apply mapM_Some in Hs. unfold settle_slots in Hs.
  apply lookup_lt_is_Some in Hi as [t Ht].
  assert (is_Some (results !! i)) as [r Hr].
  { apply lookup_lt_is_Some. rewrite <- (Forall2_length _ _ _ Hs).
    rewrite settle_slots_length, length_replicate. by apply lookup_lt_Some in Ht. }
  destruct (Forall2_lookup_r _ _ _ _ _ Hs Hr) as (slot & Hslot & ->).
  apply settle_slots_from in Hslot as [Hslot|?]; [|done].
  apply lookup_replicate in Hslot as [? _]. done.
Qed.

End HandlerWaits.

(** X12 (witness): one recipient with a phone number while the SMS gate is
    closed, and a completion order that names no operation. *)
Lemma no_task_started_one_phone :
  ∃ run rep,
    SendEmergencyAlert.handler (H := SendEmergencyAlert.plain_host)
      SendEmergencyAlert.provider_accepts SendEmergencyAlert.no_account_sid []
      (SendEmergencyAlert.post [ SendEmergencyAlert.phone_only ]) = Some run ∧
    SendEmergencyAlert.response run = SendEmergencyAlert.Status200 rep ∧
    SendEmergencyAlert.sent rep = 0 ∧ SendEmergencyAlert.failed rep = 1 ∧
    SendEmergencyAlert.success rep = false.
Proof.
  destruct (no_task_started_answers_at_once (H := SendEmergencyAlert.plain_host)
              SendEmergencyAlert.provider_accepts SendEmergencyAlert.no_account_sid []
              (SendEmergencyAlert.post [ SendEmergencyAlert.phone_only ])
              [ SendEmergencyAlert.phone_only ] SendEmergencyAlert.flood_alert
              eq_refl eq_refl)
    as (run & rep & Hrun & Hresp & Hsent & Hfailed & Hsuccess & _).
  { constructor; [split; [right|left]; reflexivity | constructor]. }
  exists run, rep. split; [exact Hrun|]. split; [exact Hresp|].
  split; [exact Hsent|]. split; [exact Hfailed|].
  destruct (SendEmergencyAlert.success rep); [|reflexivity].
  destruct Hsuccess as [Hsuccess _].
  pose proof (Hsuccess eq_refl) as Hnone. vm_compute in Hnone. discriminate Hnone.
Defined.

(** X13 (witness): one email operation that has not settled. *)
Lemma handler_waits_pending_email :
  String.eqb (SendEmergencyAlert.method
                (SendEmergencyAlert.post [ SendEmergencyAlert.email_only ]))
             "OPTIONS" = false ∧
  SendEmergencyAlert.handler (H := SendEmergencyAlert.plain_host)
    SendEmergencyAlert.provider_accepts SendEmergencyAlert.all_set []
    (SendEmergencyAlert.post [ SendEmergencyAlert.email_only ]) = None ∧
  ¬ SendEmergencyAlert.all_settle (H := SendEmergencyAlert.plain_host)
      SendEmergencyAlert.provider_accepts SendEmergencyAlert.all_set []
      (SendEmergencyAlert.post [ SendEmergencyAlert.email_only ]).
Proof.
  split; [reflexivity|]. split; [reflexivity|].
  intros Hall.
  apply (handler_waits_for_every_task (H := SendEmergencyAlert.plain_host)
           SendEmergencyAlert.provider_accepts SendEmergencyAlert.all_set []
           (SendEmergencyAlert.post [ SendEmergencyAlert.email_only ]) eq_refl)
    in Hall as [run Hrun].
  discriminate Hrun.
Defined.

Section EventCounts.
Import SendEmergencyAlert.
Context `{Host}.
Variable network : nat → FetchRequest → FetchResult.
Variable env : Env.

Lemma tasks_act alert recipients :
  let st := process_recipients network env alert recipients in
  Forall2 acts_as (deliveryTasks st) (deliveryMeta st).
Proof.
  apply process_recipients_related.
  - intros net phone lang sid token from. unfold acts_as, sendEnhancedSMS.
    destruct (net _) as [e|status statusText text]; [|destruct (response_ok status)];
      simpl; repeat split; eauto.
  - intros. unfold acts_as. simpl. done.
Qed.

Lemma filter_flat_map {A B} (p : B → bool) (f : A → list B) (l : list A) :
  List.filter p (flat_map f l) = flat_map (λ x, List.filter p (f x)) l.
Proof.
  induction l as [|x l IH]; [done|]. simpl. by rewrite List.filter_app, IH.
Qed.

Lemma flat_map_nil {A B} (f : A → list B) (l : list A) :
  (∀ x, x ∈ l → f x = []) → flat_map f l = [].
Proof.
  induction l as [|x l IH]; intros Hf; [done|]. simpl.
  rewrite Hf by left. apply IH. intros y Hy. apply Hf. by right.
Qed.

Lemma issue_counts (p : Event → bool) (tasks : list SendOp) (meta : list Meta)
    (c : Channel) :
  Forall2 (λ t m, length (List.filter p (on_issue t)) =
                  if decide (m_channel m = c) then 1 else 0) tasks meta →
  length (List.filter p (flat_map on_issue tasks)) =
    length (List.filter (λ m, bool_decide (m_channel m = c)) meta).
Proof.
  induction 1 as [|t m tasks meta Htm _ IH]; [done|]. simpl.
  rewrite List.filter_app, length_app, IH, Htm.
  destruct (decide (m_channel m = c)) as [Hc|Hc];
    [rewrite bool_decide_eq_true_2 by done|rewrite bool_decide_eq_false_2 by done];
    done.
Qed.

Lemma metas_by_channel recipients :
  length (List.filter (λ m, bool_decide (m_channel m = SMS))
            (flat_map (metas_of env) recipients)) =
    (if smsEnabled env
     then length (List.filter (λ r, JS.truthy (phone r)) recipients) else 0) ∧
  length (List.filter (λ m, bool_decide (m_channel m = Email))
            (flat_map (metas_of env) recipients)) =
    (if emailEnabled env
     then length (List.filter (λ r, JS.truthy (email r)) recipients) else 0).
Proof.
  induction recipients as [|r rs [IH1 IH2]]; simpl.
  { by destruct (smsEnabled env), (emailEnabled env). }
  rewrite !List.filter_app, !length_app, IH1, IH2. unfold metas_of.
  destruct (JS.truthy (phone r)), (JS.truthy (email r)),
           (smsEnabled env), (emailEnabled env); simpl; done.
Qed.

Lemma trace_counts completion req run rep :
  handler network env completion req = Some run →
  response run = Status200 rep →
  ∃ recipients alert,
    body req = Json (Some recipients) (Some alert) ∧
    length (List.filter is_fetch (trace run)) =
      (if smsEnabled env
       then length (List.filter (λ r, JS.truthy (phone r)) recipients) else 0) ∧
    length (List.filter is_timer (trace run)) =
      (if emailEnabled env
       then length (List.filter (λ r, JS.truthy (email r)) recipients) else 0).
Proof.
  intros Hrun Hresp.
  destruct (handler_200 network env completion req run rep Hrun Hresp)
    as (recipients & alert & Hb & _ & _ & Htrace).
  exists recipients, alert. split; [exact Hb|]. cbv zeta in Htrace.
  pose proof (tasks_act alert recipients) as Hact. cbv zeta in Hact.
  destruct (process_recipients_arrays network env alert recipients) as (Hmeta & _ & _).
  destruct (metas_by_channel recipients) as [Hsms Heml].
  rewrite <- Hsms, <- Heml, <- Hmeta, Htrace.
  destruct (logs_are_console env (λ e, is_fetch e = false ∧ is_timer e = false)
              alert recipients rep) as [Hopen Hclose]; [done|].
  assert (∀ (l : list Event),
            Forall (λ e, is_fetch e = false ∧ is_timer e = false) l →
            List.filter is_fetch l = [] ∧ List.filter is_timer l = []) as Hnone.
  { induction 1 as [|e l [Hf Ht] _ [IH1 IH2]]; simpl; [done|]. by rewrite Hf, Ht. }
  destruct (Hnone _ Hopen) as [Ho1 Ho2]. destruct (Hnone _ Hclose) as [Hc1 Hc2].
  assert (List.filter is_fetch
            (settle_events
               (deliveryTasks (process_recipients network env alert recipients))
               completion) = [] ∧
          List.filter is_timer
            (settle_events
               (deliveryTasks (process_recipients network env alert recipients))
               completion) = []) as [Hs1 Hs2].
  { unfold settle_events. rewrite !filter_flat_map.
    split; apply flat_map_nil; intros i _;
      destruct (_ !! i) as [t|] eqn:Ht; try done;
      destruct (Forall2_lookup_l _ _ _ _ _ Hact Ht) as (m & _ & Hs1 & Hs2 & _); done. }
  rewrite !List.filter_app, Ho1, Ho2, Hc1, Hc2, Hs1, Hs2, !app_nil_r. simpl.
  split; apply issue_counts; (eapply Forall2_impl; [exact Hact|]);
    intros t m (_ & _ & Hm); destruct (m_channel m);
    [ destruct Hm as [(r & -> & _) _] | destruct Hm as [-> _]
    | destruct Hm as [_ ->] | destruct Hm as [_ ->] ]; done.
Qed.

(** X14. In a run that ends with a report, the handler makes no more requests
    to the SMS provider than there are recipients with a phone number, and
    none at all when the SMS gate is closed; it sets exactly one timer for
    each recipient with an email address, and none when the email gate is
    closed. *)
Theorem one_request_per_phone_one_timer_per_email completion req run rep :
  handler network env completion req = Some run →
  response run = Status200 rep →
  ∃ recipients alert,
    body req = Json (Some recipients) (Some alert) ∧
    length (List.filter is_fetch (trace run)) ≤
      (if smsEnabled env
       then length (List.filter (λ r, JS.truthy (phone r)) recipients) else 0) ∧
    length (List.filter is_timer (trace run)) =
      (if emailEnabled env
       then length (List.filter (λ r, JS.truthy (email r)) recipients) else 0).
Proof.
  intros Hrun Hresp.
  destruct (trace_counts completion req run rep Hrun Hresp)
    as (recipients & alert & Hb & Hf & Ht).
  exists recipients, alert. split; [exact Hb|]. split; [by rewrite Hf|exact Ht].
Qed.

End EventCounts.

(** X14 (witness): two recipients with a phone number, one of them with an
    email address, all gates open. *)
Lemma one_request_one_timer_example :
  ∃ run rep,
    SendEmergencyAlert.handler (H := SendEmergencyAlert.plain_host)
      SendEmergencyAlert.provider_accepts SendEmergencyAlert.all_set [0; 1; 2]
      (SendEmergencyAlert.post
         [ SendEmergencyAlert.phone_only; SendEmergencyAlert.phone_and_email ])
      = Some run ∧
    SendEmergencyAlert.response run = SendEmergencyAlert.Status200 rep ∧
    length (List.filter SendEmergencyAlert.is_fetch (SendEmergencyAlert.trace run)) ≤ 2 ∧
    length (List.filter SendEmergencyAlert.is_timer (SendEmergencyAlert.trace run)) = 1.
Proof.
  eexists _, _. split; [vm_compute; reflexivity|]. split; [reflexivity|].
  destruct (one_request_per_phone_one_timer_per_email
              (H := SendEmergencyAlert.plain_host)
              SendEmergencyAlert.provider_accepts SendEmergencyAlert.all_set [0; 1; 2]
              (SendEmergencyAlert.post
                 [ SendEmergencyAlert.phone_only; SendEmergencyAlert.phone_and_email ])
              _ _ eq_refl eq_refl)
    as (recipients & alert & Hb & Hf & Ht).
  injection Hb as <- <-. split; [exact Hf|exact Ht].
Defined.

(** ** The subscriber directory and what reaches the edge function *)

Section Directory.
Import EnhancedAlertService.
Context {casing : JS.Casing}.

Lemma mapM_subscribers (profiles : list Profile) (subscribers : list Subscriber) :
  mapM subscriberOfProfile profiles = Some subscribers →
  Forall (λ s, phone s = None ∧ language (preferences s) = "en" ∧
               coordinates s = LocationService.getCityCoordinates (city s))
         subscribers ∧
  map subscriber_id subscribers = map user_id profiles.
Proof.
  intros Hm. apply mapM_Some in Hm.
  induction Hm as [|p s profiles subscribers Hps _ [IH1 IH2]]; [done|].
  unfold subscriberOfProfile in Hps.
  destruct (profile_city p) as [c|]; [|done].
  destruct (alert_subscriptions p) as [|subscription ?]; [done|].
  injection Hps as <-. split; [constructor; done|]. simpl. by rewrite IH2.
Qed.

Lemma getActiveSubscribers_rows_aux (result : QueryResult) :
  Forall (λ s, phone s = None ∧ language (preferences s) = "en" ∧
               coordinates s = LocationService.getCityCoordinates (city s))
         (getActiveSubscribers result).
Proof.
  destruct result as [message|[profiles|]]; [done| |done].
  unfold getActiveSubscribers.
  change (default [] (Some profiles)) with profiles.
  destruct (mapM subscriberOfProfile profiles) as [subscribers|] eqn:Hm;
    [|constructor].
  by destruct (mapM_subscribers _ _ Hm).
Qed.

(** X15. The subscribers [getActiveSubscribers] returns never have a phone
    number (the query does not select one), always have the language [en],
    and are located by looking their city up in the catalog. They follow the
    rows of the query one by one, unless some row comes without a city or
    without a subscription: then, as after an error of the query, the
    result is empty. *)
Theorem getActiveSubscribers_rows (result : QueryResult) :
  Forall (λ s, phone s = None ∧ language (preferences s) = "en" ∧
               coordinates s = LocationService.getCityCoordinates (city s))
         (getActiveSubscribers result) ∧
  match result with
  | QueryData (Some profiles) =>
      if forallb mapped profiles
      then map subscriber_id (getActiveSubscribers result) = map user_id profiles
      else getActiveSubscribers result = []
  | _ => getActiveSubscribers result = []
  end.
Proof.
  destruct result as [message|[profiles|]]; [done| |done].
  unfold getActiveSubscribers.
  change (default [] (Some profiles)) with profiles.
  destruct (mapM subscriberOfProfile profiles) as [subscribers|] eqn:Hm.
  - destruct (mapM_subscribers _ _ Hm) as [Hall Hids]. split; [exact Hall|].
    assert (forallb mapped profiles = true) as ->; [|exact Hids].
    apply mapM_Some in Hm. clear Hall Hids.
    induction Hm as [|p s profiles subscribers Hps _ IH]; [done|]. simpl.
    rewrite IH. unfold subscriberOfProfile in Hps. unfold mapped.
    by destruct (profile_city p), (alert_subscriptions p).
  - split; [constructor|].
    assert (forallb mapped profiles = false) as ->; [|done].
    apply mapM_None in Hm.
    induction profiles as [|p profiles IH]; [by apply Exists_nil in Hm|].
    simpl. apply Exists_cons in Hm as [Hp|Hm].
    + unfold subscriberOfProfile in Hp. unfold mapped.
      by destruct (profile_city p), (alert_subscriptions p).
    + rewrite (IH Hm). apply andb_false_r.
Qed.

Context `{LocationService.MathLib} `{Services}.

Lemma processAndDistributeAlert_recipients (a : Types.Alert)
    (subscribers : list Subscriber) (requests : list EdgeRequest) (r : EdgeRequest) :
  processAndDistributeAlert a subscribers = inr requests → r ∈ requests →
  Forall (λ x, (∃ s, s ∈ subscribers ∧ x = formatRecipient s) ∧
               JS.truthy (r_email x) || JS.truthy (r_phone x) = true)
         (req_recipients r).
Proof.
  intros [->|(c & _ & Hreq)]%processAndDistributeAlert_returns Hr;
    [by apply elem_of_nil in Hr|].
  apply list_elem_of_lookup in Hr as [i Hr].
  destruct (Forall2_lookup_l _ _ _ _ _ Hreq Hr) as (z & _ & _ & _ & -> & _).
  apply Forall_and. split.
  - rewrite zoneRecipients_included.
    apply Forall_forall. intros x (s & -> & Hs)%list_elem_of_fmap.
    apply elem_of_List_filter in Hs as [Hs _]. by exists s.
  - apply formattedRecipients_addressed.
Qed.

Lemma directory_recipients (a : Types.Alert) (result : QueryResult)
    (requests : list EdgeRequest) (r : EdgeRequest) :
  processAndDistributeAlert a (getActiveSubscribers result) = inr requests →
  r ∈ requests →
  Forall (λ x, SendEmergencyAlert.phone x = None ∧
               JS.truthy (SendEmergencyAlert.email x) = true)
         (map Wire.recipient (req_recipients r)).
Proof.
  intros Hcall Hr.
  pose proof (processAndDistributeAlert_recipients _ _ _ _ Hcall Hr) as Hfrom.
  pose proof (getActiveSubscribers_rows_aux result) as Hrows.
  apply Forall_fmap. eapply Forall_impl; [exact Hfrom|].
  intros x [(s & Hs & ->) Haddr]. simpl.
  rewrite Forall_forall in Hrows. destruct (Hrows s Hs) as (Hphone & _).
  unfold formatRecipient in *. cbn [r_phone r_email] in *. rewrite Hphone in *.
  destruct (smsAlerts (preferences s)); simpl in *;
    rewrite orb_false_r in Haddr; done.
Qed.

Context `{SendEmergencyAlert.Host}.
Variable network : nat → SendEmergencyAlert.FetchRequest → SendEmergencyAlert.FetchResult.
Variable env : SendEmergencyAlert.Env.

(** X16. No request that [processAndDistributeAlert] posts for the
    subscribers of the directory carries a phone number, so the edge
    function never contacts the SMS provider for it and reports failures on
    the Email channel only: with the email gate open every recipient counts
    as sent and the report says success, with the gate closed every
    recipient counts as failed. *)
Theorem directory_pipeline_never_texts (a : Types.Alert) (result : QueryResult)
    (requests : list EdgeRequest) (r : EdgeRequest) (completion : list nat) :
  processAndDistributeAlert a (getActiveSubscribers result) = inr requests →
  r ∈ requests →
  SendEmergencyAlert.all_settle network env completion (Wire.request r) →
  Forall (λ x, r_phone x = None) (req_recipients r) ∧
  ∃ run rep,
    SendEmergencyAlert.handler network env completion (Wire.request r) = Some run ∧
    SendEmergencyAlert.response run = SendEmergencyAlert.Status200 rep ∧
    Forall (λ e, SendEmergencyAlert.is_fetch e = false) (SendEmergencyAlert.trace run) ∧
    Forall (λ e, SendEmergencyAlert.e_channel e = SendEmergencyAlert.Email)
           (SendEmergencyAlert.errors rep) ∧
    if SendEmergencyAlert.emailEnabled env
    then SendEmergencyAlert.success rep = true ∧
         SendEmergencyAlert.sent rep = length (req_recipients r) ∧
         SendEmergencyAlert.failed rep = 0
    else SendEmergencyAlert.sent rep = 0 ∧
         SendEmergencyAlert.failed rep = length (req_recipients r).
Proof.
  intros Hcall Hr Hall.
  pose proof (directory_recipients a result requests r Hcall Hr) as Hrs. split.
  - apply Forall_fmap in Hrs. eapply Forall_impl; [exact Hrs|]. by intros x [? _].
  - rewrite <- (length_map Wire.recipient (req_recipients r)).
    by apply (email_only_run network env completion (Wire.request r)
                (map Wire.recipient (req_recipients r))
                (Wire.alert (req_alert r) (req_zone r) (req_radius r))).
Qed.

End Directory.

(** X16 (witness): the flood at Chennai and the directory with one profile
    in Chennai, with a provider that would fail every message. *)
Lemma directory_pipeline_chennai :
  EnhancedAlertService.processAndDistributeAlert
    (H := LocationService.coarse_math) (H0 := Examples.plain_services)
    (casing := JS.ascii_casing) Examples.chennai_flood
    (EnhancedAlertService.getActiveSubscribers (casing := JS.ascii_casing)
       Examples.directory) = inr [ Examples.chennai_request ] ∧
  ∃ run rep,
    SendEmergencyAlert.handler (H := SendEmergencyAlert.plain_host)
      SendEmergencyAlert.provider_fails SendEmergencyAlert.all_set [0]
      (Wire.request Examples.chennai_request) = Some run ∧
    SendEmergencyAlert.response run = SendEmergencyAlert.Status200 rep ∧
    Forall (λ e, SendEmergencyAlert.is_fetch e = false) (SendEmergencyAlert.trace run) ∧
    SendEmergencyAlert.success rep = true ∧ SendEmergencyAlert.sent rep = 1.
Proof.
  assert (EnhancedAlertService.processAndDistributeAlert
            (H := LocationService.coarse_math) (H0 := Examples.plain_services)
            (casing := JS.ascii_casing) Examples.chennai_flood
            (EnhancedAlertService.getActiveSubscribers (casing := JS.ascii_casing)
               Examples.directory) = inr [ Examples.chennai_request ]) as Hcall.
  { vm_compute. reflexivity. }
  split; [exact Hcall|].
  destruct (directory_pipeline_never_texts
              (casing := JS.ascii_casing)
              (H := LocationService.coarse_math) (H0 := Examples.plain_services)
              (H1 := SendEmergencyAlert.plain_host)
              SendEmergencyAlert.provider_fails SendEmergencyAlert.all_set
              Examples.chennai_flood Examples.directory [ Examples.chennai_request ]
              Examples.chennai_request [0] Hcall (list_elem_of_here _ _))
    as (_ & run & rep & Hrun & Hresp & Hfetch & _ & Hsent).
  { intros i Hi. vm_compute in Hi. assert (i = 0) as -> by lia. apply list_elem_of_here. }
  exists run, rep. split; [exact Hrun|]. split; [exact Hresp|].
  split; [exact Hfetch|]. destruct Hsent as (Hs & Hn & _). split; [exact Hs|exact Hn].
Defined.

(** ** Requests of the alert service *)

Section ServiceRequests.
Import SendEmergencyAlert.
Context `{Host} {casing : JS.Casing}.
Variable network : nat → FetchRequest → FetchResult.
Variable env : Env.

(** X17. Every request [AlertService.sendNotifications] posts is answered
    with status 500 by the edge function, whatever the settings and the
    provider: its body has the alert under [alerts], the handler reads
    [alert], finds it undefined and fails on its first use; nothing is sent
    and no provider is contacted. *)
Theorem sendNotifications_always_rejected
    (indianStates : list LocationService.IndianState)
    (subscribers : list AlertService.Subscriber) (alerts : list Types.Alert)
    (req : Request) (completion : list nat) :
  req ∈ AlertService.sendNotifications indianStates subscribers alerts →
  handler network env completion req =
    Some (mkRun
            (Status500 (mkFailure false
               "Cannot read properties of undefined (reading 'zone')" 0 0))
            [ critical_error ]).
Proof.
  unfold AlertService.sendNotifications. rewrite list_elem_of_In, in_flat_map.
  intros (subscriber & _ & Hreq). apply in_map_iff in Hreq as (alert & <- & _).
  reflexivity.
Qed.

End ServiceRequests.

(** X17 (witness): one subscriber and one alert. *)
Lemma sendNotifications_rejected_asha :
  AlertService.sendNotifications (casing := JS.ascii_casing)
    [ Examples.kerala ] Examples.asha [ Examples.chennai_flood ] ≠ [] ∧
  Forall (λ req,
      SendEmergencyAlert.handler (H := SendEmergencyAlert.plain_host)
        SendEmergencyAlert.provider_accepts SendEmergencyAlert.all_set [0] req =
      Some (SendEmergencyAlert.mkRun
              (SendEmergencyAlert.Status500
                 (SendEmergencyAlert.mkFailure false
                    "Cannot read properties of undefined (reading 'zone')" 0 0))
              [ SendEmergencyAlert.critical_error ]))
    (AlertService.sendNotifications (casing := JS.ascii_casing)
       [ Examples.kerala ] Examples.asha [ Examples.chennai_flood ]).
Proof.
  split; [by vm_compute|].
  apply Forall_forall. intros req Hreq.
  apply (sendNotifications_always_rejected (H := SendEmergencyAlert.plain_host)
           (casing := JS.ascii_casing)
           SendEmergencyAlert.provider_accepts SendEmergencyAlert.all_set
           [ Examples.kerala ] Examples.asha [ Examples.chennai_flood ] req [0] Hreq).
Defined.

(** ** Subscriptions of the alert service *)

Section Subscriptions.
Import AlertService.
Context {casing : JS.Casing}.

Lemma same_subscriber_iff (e p : option string) (sub : Subscriber) :
  same_subscriber e p sub = true ↔ (email sub, phone sub) = (e, p).
Proof.
  unfold same_subscriber. rewrite andb_true_iff, !bool_decide_eq_true.
  split; [by intros [-> ->]|by intros [= -> ->]].
Qed.

Lemma List_filter_idemp {A} (p : A → bool) (l : list A) :
  List.filter p (List.filter p l) = List.filter p l.
Proof.
  induction l as [|x l IH]; [done|]. simpl.
  destruct (p x) eqn:Hp; [|done]. simpl. by rewrite Hp, IH.
Qed.

(** X18. [subscribe] keeps one entry for each pair of email address and phone
    number: the entry of the subscribing pair is replaced by a new last
    entry, every other entry stays, both filter lists of the stored
    preferences are set, and subscribing twice with the same arguments
    changes nothing the second time. *)
Theorem subscribe_one_entry_per_address (subscribers : list Subscriber)
    (e p : option string) (preferences : option Preferences) :
  NoDup (map (λ s, (email s, phone s)) subscribers) →
  let subscribers' := subscribe subscribers e p preferences in
  NoDup (map (λ s, (email s, phone s)) subscribers') ∧
  last subscribers' = Some (mkSubscriber e p (stored preferences)) ∧
  (∀ s, s ∈ subscribers' ↔
        (s ∈ subscribers ∧ (email s, phone s) ≠ (e, p)) ∨
        s = mkSubscriber e p (stored preferences)) ∧
  is_Some (severityLevels (stored preferences)) ∧
  is_Some (alertTypes (stored preferences)) ∧
  subscribe subscribers' e p preferences = subscribers'.
Proof.
  intros Hnd. cbv zeta. unfold subscribe.
  assert (∀ s, s ∈ List.filter (λ sub, negb (same_subscriber e p sub)) subscribers ↔
               s ∈ subscribers ∧ (email s, phone s) ≠ (e, p)) as Hkept.
  { intros s. rewrite elem_of_List_filter, negb_true_iff.
    rewrite <- not_true_iff_false, same_subscriber_iff. done. }
  split; [|split; [|split; [|split; [|split]]]].
  - rewrite map_app. apply NoDup_app. split; [|split].
    + refine (sublist_NoDup _ _ Hnd _).
      apply (fmap_sublist (λ s, (email s, phone s))), List_filter_sublist.
    + intros k Hk Hnew. apply list_elem_of_fmap in Hk as (s & -> & Hs).
      apply Hkept in Hs as [_ Hs]. apply list_elem_of_singleton in Hnew. done.
    + apply NoDup_singleton.
  - apply last_snoc.
  - intros s. rewrite elem_of_app, Hkept, list_elem_of_singleton. done.
  - by eexists.
  - by eexists.
  - rewrite List.filter_app, List_filter_idemp. simpl.
    assert (same_subscriber e p (mkSubscriber e p (stored preferences)) = true) as ->.
    { by apply same_subscriber_iff. }
    simpl. by rewrite app_nil_r.
Qed.

(** X19. A subscriber stored without preferences of their own gets the two
    default lists: of any alerts, exactly those of severity critical or
    warning and of a type other than [other] are kept for them, wherever the
    alert is. *)
Theorem default_subscription_filters
    (indianStates : list LocationService.IndianState) (e p : option string)
    (alerts : list Types.Alert) :
  last (subscribe [] e p None) = Some (mkSubscriber e p (stored None)) ∧
  filterAlertsForSubscriber indianStates alerts (mkSubscriber e p (stored None)) =
    List.filter (λ a, bool_decide (Types.severity a ≠ Types.info) &&
                      bool_decide (Types.type a ≠ Types.other)) alerts.
Proof.
  split; [done|]. unfold filterAlertsForSubscriber. apply filter_ext. intros a.
  unfold relevant, stored. simpl.
  by destruct (Types.severity a), (Types.type a).
Qed.

(** X20. An empty filter list means opposite things in the two services: in
    [AlertService.filterAlertsForSubscriber] a subscriber whose lists are
    empty or missing is sent every alert, in the zone filter of
    [createTargetedAlerts] a subscriber one of whose lists is empty is in no
    zone's recipients. *)
Theorem empty_filter_lists_differ
    (indianStates : list LocationService.IndianState) (alerts : list Types.Alert)
    (e p lang : option string)
    (originalAlert : Types.Alert) (zone : EnhancedAlertService.AlertZone)
    (s : EnhancedAlertService.Subscriber) (levels types : list string) :
  let without (severities types : option (list string)) :=
    mkSubscriber e p (mkPreferences lang None None severities types) in
  let wanting (levels types : list string) :=
    EnhancedAlertService.mkSubscriber
      (EnhancedAlertService.subscriber_id s) (EnhancedAlertService.email s)
      (EnhancedAlertService.phone s) (EnhancedAlertService.city s)
      (EnhancedAlertService.state s) (EnhancedAlertService.coordinates s)
      (EnhancedAlertService.mkPreferences
         (EnhancedAlertService.language (EnhancedAlertService.preferences s))
         (EnhancedAlertService.emailAlerts (EnhancedAlertService.preferences s))
         (EnhancedAlertService.smsAlerts (EnhancedAlertService.preferences s))
         levels types) in
  filterAlertsForSubscriber indianStates alerts (without (Some []) (Some [])) = alerts ∧
  filterAlertsForSubscriber indianStates alerts (without None None) = alerts ∧
  EnhancedAlertService.zoneSubscribers originalAlert zone [ wanting [] types ] = [] ∧
  EnhancedAlertService.zoneSubscribers originalAlert zone [ wanting levels [] ] = [].
Proof.
  cbv zeta. split; [|split; [|split]].
  - unfold filterAlertsForSubscriber.
    induction alerts as [|a alerts IH]; [done|]. simpl. by rewrite IH.
  - unfold filterAlertsForSubscriber.
    induction alerts as [|a alerts IH]; [done|]. simpl. by rewrite IH.
  - unfold EnhancedAlertService.zoneSubscribers. cbn [List.filter].
    unfold EnhancedAlertService.inZoneAndWanted.
    by destruct (EnhancedAlertService.isInZone zone _).
  - unfold EnhancedAlertService.zoneSubscribers. cbn [List.filter].
    unfold EnhancedAlertService.inZoneAndWanted.
    destruct (EnhancedAlertService.isInZone zone _); simpl; [|done].
    by rewrite andb_false_r.
Qed.

(** X21. The place of an alert is not looked at when the alert has no
    location text, and neither when the subscriber names a state whose code
    is not in the table of states, even if a region is named as well: the
    alert is then filtered as for a subscriber without state and region. *)
Theorem place_filter_skipped (indianStates : list LocationService.IndianState)
    (subscriber : Subscriber) (alert : Types.Alert) :
  Types.location alert = "" ∨
  (JS.truthy (state (preferences subscriber)) = true ∧
   List.find (λ s, bool_decide (Some (LocationService.state_code s) =
                                state (preferences subscriber)))
             indianStates = None) →
  relevant indianStates subscriber alert =
    relevant indianStates
      (mkSubscriber (email subscriber) (phone subscriber)
         (mkPreferences (language (preferences subscriber)) None None
            (severityLevels (preferences subscriber))
            (alertTypes (preferences subscriber))))
      alert.
Proof.
  intros Hskip. unfold relevant.
  cbn [preferences state region severityLevels alertTypes JS.truthy andb].
  destruct Hskip as [-> | [-> ->]].
  - cbn [String.eqb negb]. by rewrite !andb_false_r.
  - cbn [negb]. rewrite andb_false_r. cbn [andb negb].
    by destruct (negb (String.eqb (Types.location alert) "")).
Qed.

End Subscriptions.

(** X18 (witness): a subscriber who subscribes again, now with preferences. *)
Lemma subscribe_one_entry_asha :
  NoDup (map (λ s, (AlertService.email s, AlertService.phone s)) Examples.asha) ∧
  NoDup (map (λ s, (AlertService.email s, AlertService.phone s))
             (AlertService.subscribe Examples.asha (Some "asha@example.org") None
                (Some (AlertService.mkPreferences (Some "ta") (Some "TN") None
                         (Some [ "critical" ]) None)))).
Proof.
  assert (NoDup (map (λ s, (AlertService.email s, AlertService.phone s))
                     Examples.asha)) as Hnd by apply NoDup_singleton.
  split; [exact Hnd|].
  apply (subscribe_one_entry_per_address Examples.asha (Some "asha@example.org") None
           (Some (AlertService.mkPreferences (Some "ta") (Some "TN") None
                    (Some [ "critical" ]) None)) Hnd).
Defined.

(** X21 (witness): a state code the table does not have, with a region named
    as well. *)
Lemma place_filter_skipped_unknown_code :
  AlertService.relevant (casing := JS.ascii_casing) [ Examples.kerala ]
    (AlertService.mkSubscriber (Some "asha@example.org") None
       (AlertService.mkPreferences None (Some "XX") (Some "North") None None))
    Examples.chennai_flood = true.
Proof.
  rewrite (place_filter_skipped (casing := JS.ascii_casing) [ Examples.kerala ]
             (AlertService.mkSubscriber (Some "asha@example.org") None
                (AlertService.mkPreferences None (Some "XX") (Some "North") None None))
             Examples.chennai_flood (or_intror (conj eq_refl eq_refl))).
  reflexivity.
Defined.

(** ** The alert processor *)

Section Processor.
Import NLPAlertProcessor.
Context {casing : JS.Casing}.

Lemma lower_upper (c : ascii) :
  JS.lower_ascii (JS.upper_ascii c) = JS.lower_ascii c.
Proof. by destruct c as [[] [] [] [] [] [] [] []]. Qed.

Lemma ascii_lower_upper (s : string) :
  JS.ascii_lower (JS.ascii_upper s) = JS.ascii_lower s.
Proof.
  unfold JS.ascii_lower, JS.ascii_upper.
  induction s as [|c s IH]; [done|]. simpl. by rewrite lower_upper, IH.
Qed.

Lemma is_ascii_upper (s : string) :
  JS.is_ascii (JS.ascii_upper s) = JS.is_ascii s.
Proof.
  unfold JS.ascii_upper. induction s as [|c s IH]; [done|].
  cbn [JS.map_string JS.is_ascii]. rewrite IH. f_equal.
  by destruct c as [[] [] [] [] [] [] [] []].
Qed.

(** Lower-casing does not tell an ASCII word from its upper-case form. *)
Lemma toLowerCase_ascii_upper (w : string) :
  JS.is_ascii w = true → JS.toLowerCase (JS.ascii_upper w) = JS.toLowerCase w.
Proof.
  intros Hw. rewrite !JS.toLowerCase_ascii; [apply ascii_lower_upper|done|].
  by rewrite is_ascii_upper.
Qed.

(** The key a word is looked up under has no letter A to Z. *)
Lemma key_lower (word : option string) :
  JS.ascii_lower (default "undefined" (JS.toLowerCase <$> word)) =
    default "undefined" (JS.toLowerCase <$> word).
Proof. destruct word as [w|]; [apply JS.toLowerCase_folded|done]. Qed.

(** The only inherited members such a key can name. *)
Lemma inherited_lower (k : string) :
  JS.ascii_lower k = k →
  JS.inherited k || String.eqb k "__proto__" = true →
  k = "constructor" ∨ k = "__proto__".
Proof.
  intros Hk. rewrite orb_true_iff. intros [Hi|Hp].
  - unfold JS.inherited in Hi. apply bool_decide_eq_true in Hi.
    unfold JS.object_prototype_keys in Hi.
    repeat (apply elem_of_cons in Hi as [->|Hi]; [first [by left|discriminate Hk]|]).
    by apply elem_of_nil in Hi.
  - right. by apply String.eqb_eq.
Qed.

Lemma lookup_or_cases {A} (table : list (string * A)) (word : option string)
    (fallback : A) :
  let key := default "undefined" (JS.toLowerCase <$> word) in
  match lookup_or table word fallback with
  | JS.Own a => JS.assoc table key = Some a ∨ (JS.assoc table key = None ∧ a = fallback)
  | JS.Inherited k => k = key ∧ (key = "constructor" ∨ key = "__proto__")
  | JS.Undefined => False
  end.
Proof.
  cbv zeta. unfold lookup_or, read.
  destruct (JS.assoc table _) as [a|] eqn:Ha; [by left|].
  destruct (JS.inherited _ || String.eqb _ "__proto__") eqn:Hi; [|by right].
  split; [done|]. apply inherited_lower; [apply key_lower|done].
Qed.

Lemma lookup_or_upper {A} (table : list (string * A)) (w : string) (fallback : A) :
  JS.is_ascii w = true →
  lookup_or table (Some (JS.ascii_upper w)) fallback = lookup_or table (Some w) fallback.
Proof.
  intros Hw. unfold lookup_or. cbn [fmap option_fmap option_map default].
  by rewrite toLowerCase_ascii_upper.
Qed.

Lemma assoc_key {A} (table : list (string * A)) (k : string) (a : A) :
  JS.assoc table k = Some a → k ∈ table.*1.
Proof.
  induction table as [|[k' a'] table IH]; [done|]. simpl.
  destruct (String.eqb k k') eqn:Hk.
  - intros _. apply String.eqb_eq in Hk as ->. left.
  - intros Ha. right. by apply IH.
Qed.

(** X22. The four word maps do not tell a word of ASCII characters from the
    same word with its letters a to z in upper case; for a word with other
    characters this is up to the case mapping of the host. The key read is
    the lower-cased word, or [undefined] for a missing word. A severity
    word whose key is not in its table gives the fallback, which is [info]
    for the weather office and [warning] for the disaster authority; the
    result is a severity for every key but two: the keys [constructor] and
    [__proto__] read an inherited member of the table, as the word
    [Constructor] does. *)
Theorem severity_words (word : option string) :
  let key := default "undefined" (JS.toLowerCase <$> word) in
  (∀ w, JS.is_ascii w = true →
        mapIMDSeverity (Some (JS.ascii_upper w)) = mapIMDSeverity (Some w) ∧
        mapNDMASeverity (Some (JS.ascii_upper w)) = mapNDMASeverity (Some w) ∧
        mapIMDType (Some (JS.ascii_upper w)) = mapIMDType (Some w) ∧
        mapNDMAType (Some (JS.ascii_upper w)) = mapNDMAType (Some w)) ∧
  match mapIMDSeverity word with
  | JS.Own s =>
      key ∈ [ "red"; "orange"; "yellow"; "severe"; "moderate"; "light" ] ∨
      s = Types.info
  | JS.Inherited k => k = key ∧ (key = "constructor" ∨ key = "__proto__")
  | JS.Undefined => False
  end ∧
  match mapNDMASeverity word with
  | JS.Own s =>
      key ∈ [ "extreme"; "severe"; "moderate"; "minor"; "unknown" ] ∨
      s = Types.warning
  | JS.Inherited k => k = key ∧ (key = "constructor" ∨ key = "__proto__")
  | JS.Undefined => False
  end ∧
  mapIMDSeverity (Some "SEVERE") = JS.Own Types.critical ∧
  mapIMDSeverity (Some "Constructor") = JS.Inherited "constructor" ∧
  mapIMDSeverity None = JS.Own Types.info ∧
  mapNDMASeverity None = JS.Own Types.warning.
Proof.
  cbv zeta. unfold mapIMDSeverity, mapNDMASeverity, mapIMDType, mapNDMAType.
  split.
  { intros w Hw. by rewrite !lookup_or_upper. }
  split; [|split].
  - match goal with
    | |- match lookup_or ?t ?w ?f with _ => _ end =>
        pose proof (lookup_or_cases t w f) as Hc; cbv zeta in Hc;
        destruct (lookup_or t w f) as [s|k|]; [|done|done]
    end.
    destruct Hc as [Hc|[_ ->]]; [left|by right].
    by apply assoc_key in Hc.
  - match goal with
    | |- match lookup_or ?t ?w ?f with _ => _ end =>
        pose proof (lookup_or_cases t w f) as Hc; cbv zeta in Hc;
        destruct (lookup_or t w f) as [s|k|]; [|done|done]
    end.
    destruct Hc as [Hc|[_ ->]]; [left|by right].
    by apply assoc_key in Hc.
  - unfold lookup_or. cbn [fmap option_fmap option_map default].
    rewrite (JS.toLowerCase_ascii "SEVERE"), (JS.toLowerCase_ascii "Constructor")
      by reflexivity.
    done.
Qed.

(** X23. The severity of an earthquake does not decrease with its magnitude:
    of two magnitudes the larger gets the same or a higher severity; the
    thresholds 4.5 and 6.0 belong to the higher class, and a magnitude that
    is not a number gets [info]. *)
Theorem determineSeverityFromMagnitude_monotone (m1 m2 : float) :
  (m1 <=? m2)%float = true →
  let rank s :=
    match s with Types.info => 0 | Types.warning => 1 | Types.critical => 2 end in
  rank (determineSeverityFromMagnitude m1) ≤ rank (determineSeverityFromMagnitude m2) ∧
  determineSeverityFromMagnitude 6 = Types.critical ∧
  determineSeverityFromMagnitude 4.5 = Types.warning ∧
  determineSeverityFromMagnitude nan = Types.info.
Proof.
  intros Hle. cbv zeta. split; [|done].
  unfold determineSeverityFromMagnitude.
  pose proof (λ h, leb_trans 6 m1 m2 h Hle) as T6.
  pose proof (λ h, leb_trans 4.5 m1 m2 h Hle) as T45.
  pose proof (λ h, leb_trans 4.5 6 m2 eq_refl h) as T.
  destruct (6 <=? m1)%float, (4.5 <=? m1)%float;
    try rewrite (T6 eq_refl); try rewrite (T45 eq_refl);
    destruct (6 <=? m2)%float, (4.5 <=? m2)%float; simpl; try lia;
    try discriminate (T eq_refl).
Qed.

Lemma translate_into_english (alert : Types.Alert) (supported : list Language)
    (languages : gmap string Types.Localized) :
  translate_into alert supported languages =
    if forallb (λ l, String.eqb (code l) "en") supported
    then inr (if EnhancedAlertService.nonempty supported
              then <[ "en" := Types.mkLocalized (Types.title alert)
                                (Types.description alert) ]> languages
              else languages)
    else inl (not_defined "emergencyInstructions").
Proof.
  revert languages. induction supported as [|l rest IH]; intros languages; [done|].
  cbn [translate_into forallb EnhancedAlertService.nonempty].
  destruct (String.eqb (code l) "en") eqn:Hl; [|done].
  apply String.eqb_eq in Hl. rewrite Hl, IH. cbn [andb].
  destruct (forallb _ rest); [|done].
  destruct rest; [done|]. cbn [EnhancedAlertService.nonempty].
  by rewrite insert_insert_eq.
Qed.

Lemma forallb_english (supported : list Language) :
  forallb (λ l, String.eqb (code l) "en") supported = true ↔
  Forall (λ l, code l = "en") supported.
Proof.
  induction supported as [|l rest IH]; simpl.
  - split; [constructor|done].
  - rewrite andb_true_iff, IH, Forall_cons, String.eqb_eq. done.
Qed.

Lemma generateMultilingualContent_rejects (supportedLanguages : list Language)
    (alert : Types.Alert) :
  Exists (λ l, code l ≠ "en") supportedLanguages →
  generateMultilingualContent supportedLanguages alert =
    inl (not_defined "emergencyInstructions").
Proof.
  intros Hex. unfold generateMultilingualContent. rewrite translate_into_english.
  destruct (forallb _ supportedLanguages) eqn:Hall; [|done].
  apply forallb_english in Hall. apply Exists_exists in Hex as (l & Hl & Hne).
  rewrite Forall_forall in Hall. by destruct (Hne (Hall l Hl)).
Qed.

(** X24. [translateAlert] never returns: whatever the alert and the language,
    it ends in the reference error of [getEmergencyInstructions], which
    reads a name that is not in its scope. So [generateMultilingualContent]
    returns only when every supported language has the code [en], and then
    with the alert's own title and description as the one entry; with any
    other language in the list it is rejected with that error. *)
Theorem generateMultilingualContent_english_only (supportedLanguages : list Language)
    (alert : Types.Alert) :
  (∀ targetLanguage,
     translateAlert alert targetLanguage = inl (not_defined "emergencyInstructions")) ∧
  match generateMultilingualContent supportedLanguages alert with
  | inr multilingual =>
      Forall (λ l, code l = "en") supportedLanguages ∧
      Types.languages multilingual =
        (if EnhancedAlertService.nonempty supportedLanguages
         then {[ "en" := Types.mkLocalized (Types.title alert)
                           (Types.description alert) ]}
         else ∅) ∧
      Types.title multilingual = Types.title alert ∧
      Types.description multilingual = Types.description alert ∧
      Types.severity multilingual = Types.severity alert
  | inl e =>
      e = not_defined "emergencyInstructions" ∧
      Exists (λ l, code l ≠ "en") supportedLanguages
  end.
Proof.
  split; [done|]. unfold generateMultilingualContent.
  rewrite translate_into_english.
  destruct (forallb _ supportedLanguages) eqn:Hall.
  - apply forallb_english in Hall. split; [exact Hall|]. cbn [Types.languages].
    split; [|done]. destruct supportedLanguages; [done|].
    cbn [EnhancedAlertService.nonempty]. by rewrite insert_empty.
  - split; [done|]. apply not_true_iff_false in Hall.
    rewrite forallb_english in Hall. apply not_Forall_Exists in Hall; [done|].
    intros l. apply _.
Qed.

Context `{LocationService.MathLib}.

(** X25. With a language other than English among the supported ones, the
    loop of [processGovernmentData] is rejected as soon as one alert can be
    located, and returns its array unchanged when none can: it never adds a
    processed alert. *)
Theorem processGovernmentData_adds_nothing
    (indianStates : list LocationService.IndianState)
    (supportedLanguages : list Language)
    (processedAlerts : list Types.Alert) (alerts : list ProcessedAlert) :
  Exists (λ l, code l ≠ "en") supportedLanguages →
  processAlerts indianStates supportedLanguages processedAlerts alerts =
    if existsb (λ a, bool_decide (is_Some (extractCoordinates indianStates a)))
               processedAlerts
    then inl (not_defined "emergencyInstructions")
    else inr alerts.
Proof.
  intros Hex. induction processedAlerts as [|a rest IH]; [done|].
  cbn [processAlerts existsb].
  destruct (extractCoordinates indianStates a) as [c|] eqn:Hc.
  - by rewrite generateMultilingualContent_rejects.
  - rewrite IH. by rewrite bool_decide_eq_false_2 by by intros [? ?].
Qed.

End Processor.

(** ** The content generator of the repository in the pipeline *)

Section RepositoryGenerator.
Import EnhancedAlertService.
Context `{LocationService.MathLib} {casing : JS.Casing}.
Variable supportedLanguages : list NLPAlertProcessor.Language.

Lemma repository_createZoneSpecificAlert (a : Types.Alert) (z : AlertZone) :
  Exists (λ l, NLPAlertProcessor.code l ≠ "en") supportedLanguages →
  createZoneSpecificAlert (H := Examples.repository_services supportedLanguages) a z =
    inl (NLPAlertProcessor.not_defined "emergencyInstructions").
Proof.
  intros Hex. unfold createZoneSpecificAlert. cbv zeta.
  cbn [generateMultilingualContent Examples.repository_services].
  by apply generateMultilingualContent_rejects.
Qed.

Lemma repository_targetedAlerts_from (a : Types.Alert) (subscribers : list Subscriber)
    (zones : list AlertZone) (acc : list TargetedAlert) :
  Exists (λ l, NLPAlertProcessor.code l ≠ "en") supportedLanguages →
  targetedAlerts_from (H := Examples.repository_services supportedLanguages)
    a subscribers zones acc =
    if existsb (λ z, nonempty (zoneSubscribers a z subscribers)) zones
    then inl (NLPAlertProcessor.not_defined "emergencyInstructions")
    else inr acc.
Proof.
  intros Hex. induction zones as [|z zones IH]; [done|].
  cbn [targetedAlerts_from existsb]. cbv zeta.
  destruct (nonempty (zoneSubscribers a z subscribers)); cbn [negb orb]; [|exact IH].
  by rewrite repository_createZoneSpecificAlert.
Qed.

(** X27. With the content generator of the repository and a language other
    than English among the supported ones, [createTargetedAlerts] is
    rejected with the reference error of [getEmergencyInstructions] as soon
    as one zone has a matching subscriber, and returns no batch otherwise.
    So [processAndDistributeAlert] never posts a request: it is rejected
    when the alert is located and some zone has a matching subscriber, and
    returns having posted nothing in every other case. *)
Theorem repository_generator_posts_nothing (a : Types.Alert)
    (subscribers : list Subscriber) :
  Exists (λ l, NLPAlertProcessor.code l ≠ "en") supportedLanguages →
  (∀ zones,
     createTargetedAlerts (H := Examples.repository_services supportedLanguages)
       a zones subscribers =
       if existsb (λ z, nonempty (zoneSubscribers a z subscribers)) zones
       then inl (NLPAlertProcessor.not_defined "emergencyInstructions")
       else inr []) ∧
  processAndDistributeAlert (H0 := Examples.repository_services supportedLanguages)
    a subscribers =
    match match Types.coordinates a with
          | Some c => Some c
          | None => LocationService.getCityCoordinates (Types.location a)
          end with
    | Some c =>
        if existsb (λ z, nonempty (zoneSubscribers a z subscribers))
                   (defineAlertZones c (Types.severity a))
        then inl (NLPAlertProcessor.not_defined "emergencyInstructions")
        else inr []
    | None => inr []
    end.
Proof.
  intros Hex.
  assert (∀ zones,
     createTargetedAlerts (H := Examples.repository_services supportedLanguages)
       a zones subscribers =
       if existsb (λ z, nonempty (zoneSubscribers a z subscribers)) zones
       then inl (NLPAlertProcessor.not_defined "emergencyInstructions")
       else inr []) as Hbatches.
  { intros zones. by apply repository_targetedAlerts_from. }
  split; [exact Hbatches|].
  unfold processAndDistributeAlert. cbv zeta.
  destruct (match Types.coordinates a with
            | Some c => Some c
            | None => LocationService.getCityCoordinates (Types.location a)
            end) as [c|]; [|done].
  rewrite Hbatches. by destruct (existsb _ _).
Qed.

End RepositoryGenerator.

(** X27 (witness): English and Hindi supported; the flood at Chennai, which
    the subscriber of the directory would be sent, is rejected. *)
Lemma repository_generator_rejects_chennai :
  Exists (λ l, NLPAlertProcessor.code l ≠ "en") Examples.english_and_hindi ∧
  EnhancedAlertService.processAndDistributeAlert
    (H := LocationService.coarse_math)
    (H0 := Examples.repository_services Examples.english_and_hindi)
    (casing := JS.ascii_casing) Examples.chennai_flood
    (EnhancedAlertService.getActiveSubscribers (casing := JS.ascii_casing)
       Examples.directory) =
    inl (NLPAlertProcessor.not_defined "emergencyInstructions").
Proof.
  assert (Exists (λ l, NLPAlertProcessor.code l ≠ "en") Examples.english_and_hindi)
    as Hex.
  { apply Exists_cons_tl, Exists_cons_hd. discriminate. }
  split; [exact Hex|].
  rewrite (proj2 (repository_generator_posts_nothing
                    (H := LocationService.coarse_math) (casing := JS.ascii_casing)
                    Examples.english_and_hindi Examples.chennai_flood
                    (EnhancedAlertService.getActiveSubscribers
                       (casing := JS.ascii_casing) Examples.directory) Hex)).
  vm_compute. reflexivity.
Defined.

(** X22 (witness): the word [Severe] in upper case, and the reading of a
    word that is in neither case in the table of the weather office. *)
Lemma severity_words_severe :
  JS.is_ascii "Severe" = true ∧
  NLPAlertProcessor.mapNDMASeverity (casing := JS.ascii_casing) (Some "SEVERE") =
    JS.Own Types.critical ∧
  NLPAlertProcessor.mapIMDSeverity (casing := JS.ascii_casing) (Some "Extreme") =
    JS.Own Types.info.
Proof.
  split; [reflexivity|].
  destruct (severity_words (casing := JS.ascii_casing) (Some "Extreme"))
    as (Hcase & Hfallback & _).
  destruct (Hcase "Severe" eq_refl) as (_ & Hndma & _).
  split; [exact Hndma|].
  revert Hfallback.
  destruct (NLPAlertProcessor.mapIMDSeverity (casing := JS.ascii_casing)
              (Some "Extreme")) as [s|k|]; [|by intros [? [|]]|done].
  intros [Hkey| ->]; [|done]. exfalso. revert Hkey. vm_compute.
  intros Hkey. repeat (apply elem_of_cons in Hkey as [Hkey|Hkey]; [discriminate|]).
  by apply elem_of_nil in Hkey.
Defined.

(** X23 (witness): the magnitudes 4.4 and 6. *)
Lemma determineSeverity_monotone_example :
  (4.4 <=? 6)%float = true ∧
  NLPAlertProcessor.determineSeverityFromMagnitude 4.4 = Types.info ∧
  NLPAlertProcessor.determineSeverityFromMagnitude 6 = Types.critical.
Proof.
  split; [reflexivity|]. split; [reflexivity|].
  apply (determineSeverityFromMagnitude_monotone 4.4 6 eq_refl).
Defined.

(** X25 (witness): English and Hindi supported, one alert that cannot be
    located and one that can. *)
Lemma processGovernmentData_rejects_chennai :
  Exists (λ l, NLPAlertProcessor.code l ≠ "en")
    [ NLPAlertProcessor.mkLanguage "en" "English" "English" "GB";
      NLPAlertProcessor.mkLanguage "hi" "Hindi" "Hindi" "IN" ] ∧
  NLPAlertProcessor.processAlerts (H := LocationService.coarse_math)
    (casing := JS.ascii_casing) [ Examples.kerala ]
    [ NLPAlertProcessor.mkLanguage "en" "English" "English" "GB";
      NLPAlertProcessor.mkLanguage "hi" "Hindi" "Hindi" "IN" ]
    [ Examples.atlantis_flood; Examples.chennai_flood ] [] =
    inl (NLPAlertProcessor.not_defined "emergencyInstructions").
Proof.
  assert (Exists (λ l, NLPAlertProcessor.code l ≠ "en")
            [ NLPAlertProcessor.mkLanguage "en" "English" "English" "GB";
              NLPAlertProcessor.mkLanguage "hi" "Hindi" "Hindi" "IN" ]) as Hex.
  { apply Exists_cons_tl, Exists_cons_hd. discriminate. }
  split; [exact Hex|].
  apply (processGovernmentData_adds_nothing (H := LocationService.coarse_math)
           (casing := JS.ascii_casing)
           [ Examples.kerala ] _ [ Examples.atlantis_flood; Examples.chennai_flood ]
           [] Hex).
Defined.

(** ** Who is in a zone *)

Section ZoneMembership.
Import EnhancedAlertService.
Context `{LocationService.MathLib} {casing : JS.Casing}.

Lemma includes_empty (hay : string) : JS.includes hay "" = true.
Proof. by destruct hay. Qed.

(** X26. A subscriber whose city is the empty string is in every zone that
    [defineAlertZones] returns, wherever the alert is: every city name
    contains the empty string. *)
Theorem empty_city_is_in_every_zone
    (alertCoordinates : LocationService.LocationCoordinates) (s : Types.Severity)
    (subscriber : Subscriber) :
  city subscriber = "" →
  Forall (λ z, isInZone z subscriber = true) (defineAlertZones alertCoordinates s).
Proof.
  intros Hcity.
  destruct (defineAlertZones_zones alertCoordinates s) as [_ Hzones].
  eapply Forall_impl; [exact Hzones|]. intros z (_ & Hne & _).
  unfold isInZone. rewrite Hcity.
  destruct (cities z) as [|c cs]; [done|]. cbn [existsb].
  rewrite (JS.toLowerCase_ascii "") by reflexivity.
  change (JS.ascii_lower "") with "". by rewrite includes_empty, orb_true_r.
Qed.

End ZoneMembership.

(** X26 (witness): the zones of a critical alert at Chennai. *)
Lemma empty_city_in_chennai_zones :
  EnhancedAlertService.defineAlertZones (H := LocationService.coarse_math)
    (LocationService.coordinates LocationService.chennai) Types.critical ≠ [] ∧
  Forall (λ z, EnhancedAlertService.isInZone (casing := JS.ascii_casing) z
                 (EnhancedAlertService.mkSubscriber "u-2" (Some "b@example.org") None ""
                    None None
                    (EnhancedAlertService.mkPreferences "en" true false
                       [ "critical" ] [ "flood" ])) = true)
    (EnhancedAlertService.defineAlertZones (H := LocationService.coarse_math)
       (LocationService.coordinates LocationService.chennai) Types.critical).
Proof.
  split; [by vm_compute|].
  apply (empty_city_is_in_every_zone (H := LocationService.coarse_math)
           (casing := JS.ascii_casing)
           (LocationService.coordinates LocationService.chennai) Types.critical
           (EnhancedAlertService.mkSubscriber "u-2" (Some "b@example.org") None ""
              None None
              (EnhancedAlertService.mkPreferences "en" true false
                 [ "critical" ] [ "flood" ])) eq_refl).
Defined.

(** X10 (witness): the flood whose coordinates are not numbers. *)
Lemma nan_epicenter_lost_flood :
  Types.coordinates Examples.lost_flood = Some LocationService.nowhere ∧
  EnhancedAlertService.processAndDistributeAlert
    (H := LocationService.coarse_math) (H0 := Examples.plain_services)
    (casing := JS.ascii_casing) Examples.lost_flood
    (EnhancedAlertService.getActiveSubscribers (casing := JS.ascii_casing)
       Examples.directory) = inr [].
Proof.
  split; [reflexivity|].
  apply (nan_epicenter_alerts_nobody
           (H := LocationService.coarse_math) (H0 := Examples.plain_services)
           (casing := JS.ascii_casing)
           Examples.lost_flood LocationService.nowhere
           (EnhancedAlertService.getActiveSubscribers (casing := JS.ascii_casing)
              Examples.directory)
           eq_refl (or_introl eq_refl)).
Defined.

(** X11 (witness): the flood at a place the catalog does not know. *)
Lemma testLocationBasedAlert_atlantis :
  LocationService.getCityCoordinates (casing := JS.ascii_casing)
    (Types.location Examples.atlantis_flood) = None ∧
  EnhancedAlertService.processAndDistributeAlert
    (H := LocationService.coarse_math) (H0 := Examples.plain_services)
    (casing := JS.ascii_casing) Examples.atlantis_flood
    (EnhancedAlertService.getActiveSubscribers (casing := JS.ascii_casing)
       Examples.directory) = inr [] ∧
  EnhancedAlertService.testLocationBasedAlert
    (H := LocationService.coarse_math) (H0 := Examples.plain_services)
    (casing := JS.ascii_casing) Examples.atlantis_flood
    (EnhancedAlertService.getActiveSubscribers (casing := JS.ascii_casing)
       Examples.directory) =
  EnhancedAlertService.processAndDistributeAlert
    (H := LocationService.coarse_math) (H0 := Examples.plain_services)
    (casing := JS.ascii_casing)
    (EnhancedAlertService.with_coordinates Examples.atlantis_flood
       EnhancedAlertService.delhi)
    (EnhancedAlertService.getActiveSubscribers (casing := JS.ascii_casing)
       Examples.directory).
Proof.
  assert (LocationService.getCityCoordinates (casing := JS.ascii_casing)
            (Types.location Examples.atlantis_flood) = None) as Hnone
    by (vm_compute; reflexivity).
  split; [exact Hnone|].
  destruct (testLocationBasedAlert_defaults_to_delhi
              (H := LocationService.coarse_math) (H0 := Examples.plain_services)
              (casing := JS.ascii_casing)
              Examples.atlantis_flood
              (EnhancedAlertService.getActiveSubscribers (casing := JS.ascii_casing)
                 Examples.directory)
              eq_refl Hnone) as (Hp & Ht & _).
  split; [exact Hp|exact Ht].
Defined.
